(** * The compressed-streaming codec of the NI-DAQmx C examples

    A shallow embedding of the two programs that share the compacted binary
    file format,

    - [ContAcqVoltage-ToFile-Compacted.c], which writes the textual header
      and appends the raw blocks (module [Encoder]), and
    - [GraphAcquiredCompactedData.c], which parses the header and turns the
      binary region into scaled samples (module [Decoder]),

    followed by the properties of the format that the two programs do, or do
    not, provide.

    Conventions of the embedding.  The examples are written for the platform
    of the driver: [uInt32] is [unsigned long], the header is read with
    ["%ld"] into [uInt32] fields and the file lives at ["c:\\stream.cfg"];
    [int], [long] and [uInt32] are therefore 32 bits wide.  Integers are
    values of [Z]; every C operation that can leave the range of its type is
    followed by the wrap-around of that type ([to_uInt32], [to_long]).
    [float64] is the binary64 type of the kernel's primitive floats. *)

From Stdlib Require Import ZArith NArith List String Ascii Bool Lia Floats Uint63.
From Stdlib Require DecimalString DecimalPos.
Import ListNotations.
Local Open Scope Z_scope.

(** ** C integers and the pieces of libc the examples call *)

Module C.

Definition to_uInt32 (z : Z) : Z := z mod 2 ^ 32.

(** [long] and [int]: 32-bit two's complement. *)
Definition to_long (z : Z) : Z := (z + 2 ^ 31) mod 2 ^ 32 - 2 ^ 31.

(** [x << n] on 32 bits, result read as unsigned.  A count outside [0,32)
    is undefined in C; the model gives 0 there (all bits shifted out). *)
Definition shl32 (x n : Z) : Z :=
  if (0 <=? n) && (n <? 32) then to_uInt32 (x * 2 ^ n) else 0.

(** [x >> n] on an unsigned 32-bit operand; 0 for a count outside [0,32). *)
Definition shr32 (x n : Z) : Z :=
  if (0 <=? n) && (n <? 32) then Z.shiftr x n else 0.

(** Conversion of a [long] to [double] (exact on 32 bits). *)
Definition double_of_long (z : Z) : float :=
  if z <? 0 then PrimFloat.opp (PrimFloat.of_uint63 (Uint63.of_Z (- z)))
  else PrimFloat.of_uint63 (Uint63.of_Z z).

(** Control leaves a loop body either at its end or through [goto Error]. *)
Inductive flow (A : Type) : Type :=
| Next (a : A)
| GotoError (a : A).
Arguments Next {A} a.
Arguments GotoError {A} a.

(** *** Text: C strings, streams and file contents *)

(** A character string, a text stream and the bytes of a file are all lists
    of 8-bit characters.  A buffer of type [char[N]] is modelled by the
    string it holds; its capacity is stated where a property needs it. *)
Definition text := list ascii.

Definition NL : ascii := "010"%char.
Definition CR : ascii := "013"%char.

(** A string literal of the source, with its escapes [\n] and [\\]. *)
Fixpoint str (s : string) : text :=
  match s with
  | EmptyString => []
  | String "\"%char (String "n"%char s') => NL :: str s'
  | String "\"%char (String "\"%char s') => "\"%char :: str s'
  | String a s' => a :: str s'
  end.

Definition byte_of_ascii (a : ascii) : Z := Z.of_N (N_of_ascii a).

(** [strcmp(a,b)==0] *)
Fixpoint streq (a b : text) : bool :=
  match a, b with
  | [], [] => true
  | x :: a', y :: b' => Ascii.eqb x y && streq a' b'
  | _, _ => false
  end.

Definition isspace (a : ascii) : bool :=
  let n := N_of_ascii a in ((n =? 32) || ((9 <=? n) && (n <=? 13)))%N.

Definition isdigit (a : ascii) : bool :=
  let n := N_of_ascii a in ((48 <=? n) && (n <=? 57))%N.

Fixpoint skip_space (f : text) : text :=
  match f with
  | a :: f' => if isspace a then skip_space f' else f
  | [] => []
  end.

(** The longest prefix of characters satisfying [p], and what follows it. *)
Fixpoint span (p : ascii -> bool) (f : text) : text * text :=
  match f with
  | a :: f' => if p a then let '(w, r) := span p f' in (a :: w, r) else ([], f)
  | [] => ([], [])
  end.

(** *** fscanf *)

(** The directives the formats of the examples are made of: white space,
    an ordinary character, [%s] and [%ld]. *)
Inductive directive := DSpace | DChar (a : ascii) | DString | DLong.

Fixpoint directives (fmt : text) : list directive :=
  match fmt with
  | [] => []
  | "%"%char :: "s"%char :: r => DString :: directives r
  | "%"%char :: "l"%char :: "d"%char :: r => DLong :: directives r
  | a :: r => (if isspace a then DSpace else DChar a) :: directives r
  end.

Inductive item := IString (s : text) | ILong (z : Z).

Definition EOF : Z := -1.

Definition decimal_value (ds : text) : Z :=
  fold_left (fun acc d => acc * 10 + (byte_of_ascii d - 48)) ds 0.

(** The value [fscanf] returns when it stops: [EOF] for an input failure
    before the first conversion has completed, the number of items assigned
    otherwise. *)
Definition input_failure (items : list item) : Z :=
  match items with [] => EOF | _ => Z.of_nat (List.length items) end.

Definition matching_failure (items : list item) : Z :=
  Z.of_nat (List.length items).

(** ISO C 7.21.6.2.  A white-space directive reads input up to the first
    character that is not white space and never fails; an ordinary character
    must be the next character of the input; [%s] and [%ld] skip white
    space, fail with an input failure at the end of the input, and take the
    longest sequence that is (a prefix of) a matching one.  The result is
    the value returned, the items assigned in order, and the rest of the
    stream. *)
Fixpoint fscanf_run (ds : list directive) (f : text) (items : list item)
  : Z * list item * text :=
  match ds with
  | [] => (Z.of_nat (List.length items), items, f)
  | DSpace :: ds' => fscanf_run ds' (skip_space f) items
  | DChar a :: ds' =>
      match f with
      | [] => (input_failure items, items, f)
      | b :: f' =>
          if Ascii.eqb a b then fscanf_run ds' f' items
          else (matching_failure items, items, f)
      end
  | DString :: ds' =>
      match skip_space f with
      | [] => (input_failure items, items, [])
      | f1 =>
          let '(w, f2) := span (fun a => negb (isspace a)) f1 in
          fscanf_run ds' f2 (items ++ [IString w])
      end
  | DLong :: ds' =>
      match skip_space f with
      | [] => (input_failure items, items, [])
      | a :: f1 =>
          let signed := Ascii.eqb a "-" || Ascii.eqb a "+" in
          let '(digits, f2) := span isdigit (if signed then f1 else a :: f1) in
          match digits with
          | [] => (matching_failure items, items, if signed then f1 else a :: f1)
          | _ =>
              let v := decimal_value digits in
              fscanf_run ds' f2
                (items ++ [ILong (if Ascii.eqb a "-" then - v else v)])
          end
      end
  end.

Definition fscanf (f : text) (format : string) : Z * list item * text :=
  fscanf_run (directives (str format)) f [].

(** *** sprintf, strstr, strtok *)

(** ["%u"] and, for a value that is not negative, ["%d"]. *)
Definition decimal (z : Z) : text :=
  list_ascii_of_string (DecimalString.NilZero.string_of_int (Z.to_int z)).

Definition digit (z : Z) : ascii := ascii_of_N (Z.to_N (48 + z)).

(** The [w] low decimal digits of [z], zeros included. *)
Fixpoint fixed_decimal (w : nat) (z : Z) : text :=
  match w with
  | O => []
  | S w' => fixed_decimal w' (z / 10) ++ [digit (z mod 10)]
  end.

(** ["%010d"] of an [int]: at least ten characters, padded with zeros after
    the sign.  An [int] that is not negative has at most ten digits. *)
Definition decimal_010 (z : Z) : text :=
  if z <? 0 then
    "-"%char :: (if - z <? 10 ^ 9 then fixed_decimal 9 (- z)
                 else fixed_decimal 10 (- z))
  else fixed_decimal 10 z.

Fixpoint starts_with (needle s : text) : bool :=
  match needle, s with
  | [], _ => true
  | x :: needle', y :: s' => Ascii.eqb x y && starts_with needle' s'
  | _ :: _, [] => false
  end.

(** [strstr(s,needle)]: the offset of the first occurrence, [None] for a
    null pointer. *)
Fixpoint strstr (s needle : text) : option nat :=
  if starts_with needle s then Some O
  else match s with
       | [] => None
       | _ :: s' => option_map S (strstr s' needle)
       end.

(** All the tokens the calls [strtok(s,";")], [strtok(NULL,";")], ...
    return: the maximal runs of characters other than [;]. *)
Fixpoint strtok_all (s : text) (tok : text) : list text :=
  match s with
  | [] => match tok with [] => [] | _ => [tok] end
  | a :: s' =>
      if Ascii.eqb a ";" then
        match tok with [] => strtok_all s' [] | _ => tok :: strtok_all s' [] end
      else strtok_all s' (tok ++ [a])
  end.

(** *** Text mode *)

(** What a stream opened without ["b"] does to new lines: nothing, or the
    translation between [\n] in memory and [\r\n] in the file. *)
Inductive TextMode := Untranslated | CRLF.

Fixpoint to_disk (m : TextMode) (s : text) : text :=
  match s with
  | [] => []
  | a :: s' =>
      match m with
      | Untranslated => a :: to_disk m s'
      | CRLF => if Ascii.eqb a NL then CR :: NL :: to_disk m s'
                else a :: to_disk m s'
      end
  end.

Fixpoint from_disk (m : TextMode) (d : text) : text :=
  match d with
  | [] => []
  | a :: d' =>
      match m, d' with
      | CRLF, b :: d'' =>
          if Ascii.eqb a CR && Ascii.eqb b NL then NL :: from_disk m d''
          else a :: from_disk m d'
      | _, _ => a :: from_disk m d'
      end
  end.

(** Writing [w] over the start of [old] (a buffer or a file). *)
Definition overwrite (old w : text) : text := w ++ skipn (List.length w) old.

(** *** Conversion from [uInt32] to [double] *)

(** Conversion of a [uInt32] to [double] (exact). *)
Definition double_of_uInt32 (z : Z) : float :=
  PrimFloat.of_uint63 (Uint63.of_Z z).

End C.

(** ** NIDAQmx.h *)

(** The constants of the driver's header that the two programs exchange
    through the file.  [rawSampleJustification] and [compressionType] are
    [uInt32] fields, but only these constants are ever stored in them. *)
Module DAQmx.

Inductive Justification := DAQmx_Val_LeftJustified | DAQmx_Val_RightJustified.

Inductive CompressionType :=
  DAQmx_Val_None | DAQmx_Val_LosslessPacking | DAQmx_Val_LossyLSBRemoval.

End DAQmx.

(** ** GraphAcquiredCompactedData.c *)

(** The decoding functions get the pointer [rawData] and the count
    [numBytes], which their caller sets to the buffer read from the file and
    its size and which they move together ([*rawData++] with [--numBytes]):
    the model has the list of the bytes not yet read, and [numBytes] is its
    length.  The arrays [data[iChan]] are written one cell at a time; a
    decoder yields the list of its assignments in the order it makes them.
    Loops whose number of iterations is fixed when they are entered recurse
    on that number; the two loops [while( numBytes )] over the blocks take
    fuel, one unit per block. *)
Module Decoder.
Import C DAQmx.

Inductive ByteOrder := BigEndian | LittleEndian.

(** [ChannelInfo]; the [next] pointer is the tail of the list that holds the
    record, [polynomialScalingCoeffChain] is the list of the [ScaleCoeff]s. *)
Record ChannelInfo := mkChannelInfo {
  name : text;
  rawSampleResolution : Z;
  rawSampleSizeInBits : Z;
  rawSampleJustification : Justification;
  signedNumber : bool;
  compressionType : CompressionType;
  compressedSampleSizeInBits : Z;
  compressionByteOrder : ByteOrder;
  polynomialScalingCoeffChain : list float
}.

Record DataFileInfo := mkDataFileInfo {
  version : text;
  headerSize : Z;
  taskName : text;
  numberOfChannels : Z;
  readBlockSize : Z;
  readBlockSizeInBytes : Z;
  channelInfoChain : list ChannelInfo
}.

(** One assignment [data[iChan][numSamples] = ...]: the cell written, the
    raw integer [val] the polynomial was evaluated at, and the [float64]
    stored. *)
Record Cell := mkCell {
  cell_chan : Z;
  cell_samp : Z;
  cell_val : Z;
  cell_data : float
}.

(** The content of [data[iChan][iSamp]] after a sequence of assignments:
    the last value written there, [None] for a cell never written. *)
Fixpoint data_at (cells : list Cell) (iChan iSamp : Z) : option float :=
  match cells with
  | [] => None
  | c :: rest =>
      match data_at rest iChan iSamp with
      | Some x => Some x
      | None =>
          if (cell_chan c =? iChan) && (cell_samp c =? iSamp)
          then Some (cell_data c) else None
      end
  end.

(** The scaling loop
    [for(data=0.0,coeff=chain; coeff; coeff=coeff->next, polynom*=val)
       data += coeff->scalingCoeff * polynom;] *)
Fixpoint ScaleLoop (coeff : list float) (data polynom : float) (val : Z)
  : float :=
  match coeff with
  | [] => data
  | c :: next =>
      ScaleLoop next (data + c * polynom)%float
                (polynom * double_of_long val)%float val
  end.

Definition Scale (chan : ChannelInfo) (val : Z) : float :=
  ScaleLoop (polynomialScalingCoeffChain chan) 0%float 1%float val.

(** [if( signedNumber && size<32 && val&signmask ) val |= extendmask;] *)
Definition ExtendSign (chan : ChannelInfo) (size signmask extendmask val : Z)
  : Z :=
  if signedNumber chan && (size <? 32)
     && negb (Z.land (to_uInt32 val) signmask =? 0)
  then to_long (Z.lor (to_uInt32 val) extendmask)
  else val.

(** *** DecodeDataWithoutPacking *)

(** [for(iByte=0;iByte<bytes&&numBytes;++iByte,--numBytes)
      val += *rawData++ << iByte * 8;]
    The first argument counts the iterations [iByte<bytes] still allows;
    [numBytes] is the length of what is left of [rawData]. *)
Fixpoint ReadLittle (n : nat) (iByte val : Z) (rawData : list Z)
  : Z * list Z :=
  match n, rawData with
  | S n', b :: rest =>
      ReadLittle n' (iByte + 1) (to_long (val + to_long (shl32 b (iByte * 8))))
                 rest
  | _, _ => (val, rawData)
  end.

(** [for(iByte=0;iByte<bytes&&numBytes;++iByte,--numBytes)
      val = (val<<8) + *rawData++;] *)
Fixpoint ReadBig (n : nat) (val : Z) (rawData : list Z) : Z * list Z :=
  match n, rawData with
  | S n', b :: rest => ReadBig n' (to_long (val * 2 ^ 8 + b)) rest
  | _, _ => (val, rawData)
  end.

(** The raw integer of one channel of one sample, before scaling. *)
Definition UnpackedValue (chan : ChannelInfo) (rawData : list Z)
  : Z * list Z :=
  let size := rawSampleSizeInBits chan in
  let bytes := size / 8 in
  let signmask := shl32 1 (to_uInt32 (size - 1)) in
  let extendmask := to_uInt32 (0xFFFFFFFF - shl32 1 (to_uInt32 (32 - size)) + 1) in
  let '(val, rawData') :=
    match compressionByteOrder chan with
    | LittleEndian => ReadLittle (Z.to_nat bytes) 0 0 rawData
    | BigEndian => ReadBig (Z.to_nat bytes) 0 rawData
    end in
  (ExtendSign chan size signmask extendmask val, rawData').

(** The loop over the channels of one sample; [n] iterations are left,
    [chan] walks the chain. *)
Fixpoint UnpackedChannels (n : nat) (iChan : Z) (chan : list ChannelInfo)
    (numSamples : Z) (rawData : list Z) : list Cell * flow (list Z) :=
  match n with
  | O => ([], Next rawData)
  | S n' =>
      match chan with
      | [] => ([], GotoError rawData)
      | c :: next =>
          let '(val, rawData') := UnpackedValue c rawData in
          let cell := mkCell iChan numSamples val (Scale c val) in
          let '(cells, out) :=
            UnpackedChannels n' (to_uInt32 (iChan + 1)) next numSamples rawData' in
          (cell :: cells, out)
      end
  end.

(** The loop over the samples of one block; the state that survives an
    iteration is [numSamples] and the cursor. *)
Fixpoint UnpackedSamples (n : nat) (info : DataFileInfo) (numSamples : Z)
    (rawData : list Z) : list Cell * flow (Z * list Z) :=
  match n with
  | O => ([], Next (numSamples, rawData))
  | S n' =>
      match UnpackedChannels (Z.to_nat (numberOfChannels info)) 0
                             (channelInfoChain info) numSamples rawData with
      | (cells, GotoError rawData') => (cells, GotoError (numSamples, rawData'))
      | (cells, Next rawData') =>
          let '(cells', out) :=
            UnpackedSamples n' info (to_uInt32 (numSamples + 1)) rawData' in
          (cells ++ cells', out)
      end
  end.

(** [while( numBytes ) { ... }]: one unit of fuel per block; [None] when the
    fuel is used up before the loop is left. *)
Fixpoint UnpackedBlocks (fuel : nat) (info : DataFileInfo) (numSamples : Z)
    (rawData : list Z) : option (list Cell * Z) :=
  match rawData with
  | [] => Some ([], numSamples)
  | _ :: _ =>
      match fuel with
      | O => None
      | S fuel' =>
          match UnpackedSamples (Z.to_nat (readBlockSize info)) info
                                numSamples rawData with
          | (cells, GotoError (numSamples', _)) => Some (cells, numSamples')
          | (cells, Next (numSamples', rawData')) =>
              match UnpackedBlocks fuel' info numSamples' rawData' with
              | Some (cells', r) => Some (cells ++ cells', r)
              | None => None
              end
          end
      end
  end.

(** The assignments to [data] and the [int] returned. *)
Definition DecodeDataWithoutPacking (fuel : nat) (info : DataFileInfo)
    (rawData : list Z) : option (list Cell * Z) :=
  match UnpackedBlocks fuel info 0 rawData with
  | Some (cells, numSamples) => Some (cells, to_long numSamples)
  | None => None
  end.

(** *** DecodeDataWithPacking *)

(** The bit cursor of a block: the byte being taken apart, the number of its
    bits already used, the bytes of the block fetched so far, and the
    buffer behind it. *)
Record Cursor := mkCursor {
  ch : Z;
  bitPos : Z;
  byteCount : Z;
  rawData : list Z
}.

(** [while( bitCount<size ) { ... }], with [n] iterations left. *)
Fixpoint ReadBits (n : nat) (info : DataFileInfo) (val : Z) (cur : Cursor)
  : flow (Z * Cursor) :=
  match n with
  | O => Next (val, cur)
  | S n' =>
      let val := to_long (val * 2) in
      let val := to_long (val + Z.land (shr32 (ch cur) (8 - bitPos cur - 1)) 1) in
      let bitPos' := to_long (bitPos cur + 1) in
      if (bitPos' =? 8) && (byteCount cur <? readBlockSizeInBytes info) then
        match rawData cur with
        | [] => GotoError (val, mkCursor (ch cur) 0 (byteCount cur) [])
        | b :: rest =>
            ReadBits n' info val
                     (mkCursor b 0 (to_uInt32 (byteCount cur + 1)) rest)
        end
      else
        ReadBits n' info val
                 (mkCursor (ch cur) bitPos' (byteCount cur) (rawData cur))
  end.

(** The width the compressed sample is restored to. *)
Definition RawWidth (chan : ChannelInfo) : Z :=
  match rawSampleJustification chan with
  | DAQmx_Val_LeftJustified => rawSampleSizeInBits chan
  | DAQmx_Val_RightJustified => rawSampleResolution chan
  end.

(** [val <<= lsb] on a [long]. *)
Definition shl_long (val lsb : Z) : Z :=
  if (0 <=? lsb) && (lsb <? 32) then to_long (val * 2 ^ lsb) else 0.

(** What follows the bit loop: the lost bits are scaled back in and the
    sign is extended. *)
Definition Reconstruct (chan : ChannelInfo) (val : Z) : Z :=
  let size := compressedSampleSizeInBits chan in
  let lsb := to_uInt32 (RawWidth chan - size) in
  let realsize := to_uInt32 (size + lsb) in
  let signmask := shl32 1 (to_uInt32 (realsize - 1)) in
  let extendmask := to_uInt32 (0xFFFFFFFF - shl32 1 realsize + 1) in
  ExtendSign chan realsize signmask extendmask (shl_long val lsb).

Definition PackedValue (info : DataFileInfo) (chan : ChannelInfo)
    (cur : Cursor) : flow (Z * Cursor) :=
  match ReadBits (Z.to_nat (compressedSampleSizeInBits chan)) info 0 cur with
  | GotoError s => GotoError s
  | Next (val, cur') => Next (Reconstruct chan val, cur')
  end.

Fixpoint PackedChannels (n : nat) (info : DataFileInfo) (iChan : Z)
    (chan : list ChannelInfo) (numSamples : Z) (cur : Cursor)
  : list Cell * flow Cursor :=
  match n with
  | O => ([], Next cur)
  | S n' =>
      match chan with
      | [] => ([], GotoError cur)
      | c :: next =>
          match PackedValue info c cur with
          | GotoError (_, cur') => ([], GotoError cur')
          | Next (val, cur') =>
              let cell := mkCell iChan numSamples val (Scale c val) in
              let '(cells, out) :=
                PackedChannels n' info (to_uInt32 (iChan + 1)) next
                               numSamples cur' in
              (cell :: cells, out)
          end
      end
  end.

Fixpoint PackedSamples (n : nat) (info : DataFileInfo) (numSamples : Z)
    (cur : Cursor) : list Cell * flow (Z * Cursor) :=
  match n with
  | O => ([], Next (numSamples, cur))
  | S n' =>
      match PackedChannels (Z.to_nat (numberOfChannels info)) info 0
                           (channelInfoChain info) numSamples cur with
      | (cells, GotoError cur') => (cells, GotoError (numSamples, cur'))
      | (cells, Next cur') =>
          let '(cells', out) :=
            PackedSamples n' info (to_uInt32 (numSamples + 1)) cur' in
          (cells ++ cells', out)
      end
  end.

(** [while( numBytes ) { bitPos=0; ch=*rawData++; byteCount=1; --numBytes;
    ... }] *)
Fixpoint PackedBlocks (fuel : nat) (info : DataFileInfo) (numSamples : Z)
    (rawData : list Z) : option (list Cell * Z) :=
  match rawData with
  | [] => Some ([], numSamples)
  | b :: rest =>
      match fuel with
      | O => None
      | S fuel' =>
          match PackedSamples (Z.to_nat (readBlockSize info)) info numSamples
                              (mkCursor b 0 1 rest) with
          | (cells, GotoError (numSamples', _)) => Some (cells, numSamples')
          | (cells, Next (numSamples', mkCursor _ _ _ rawData')) =>
              match PackedBlocks fuel' info numSamples' rawData' with
              | Some (cells', r) => Some (cells ++ cells', r)
              | None => None
              end
          end
      end
  end.

(** Every block takes at least its first byte from the buffer, so the
    length of the buffer is fuel enough (lemma [PackedBlocks_total]). *)
Definition DecodeDataWithPacking (info : DataFileInfo) (rawData : list Z)
  : option (list Cell * Z) :=
  match PackedBlocks (List.length rawData) info 0 rawData with
  | Some (cells, numSamples) => Some (cells, to_long numSamples)
  | None => None
  end.

(** *** ParseDataFileHeader *)

(** A computation on the stream [f] that can end in [return NULL]. *)
Definition Parse (A : Type) : Type := text -> option (A * text).

Definition ret {A : Type} (a : A) : Parse A := fun f => Some (a, f).

Definition bind {A B : Type} (m : Parse A) (k : A -> Parse B) : Parse B :=
  fun f => match m f with
           | Some (a, f') => k a f'
           | None => None
           end.

Definition return_NULL {A : Type} : Parse A := fun _ => None.

Notation "x <- m ;; k" := (bind m (fun x => k))
  (at level 61, m at next level, right associativity).

(** One operand [fscanf(f,format,...)<0] of the [||] chains: the parser
    gives up when it holds; otherwise the items assigned are handed on. *)
Definition scan (format : string) : Parse (list item) :=
  fun f => let '(r, items, f') := fscanf f format in
           if r <? 0 then None else Some (items, f').

(** The content of a destination after the call: the item assigned, or what
    the destination held before when nothing was assigned. *)
Definition stored_s (items : list item) (before : text) : text :=
  match items with
  | IString s :: _ => s
  | _ => before
  end.

Definition stored_ld (items : list item) (before : Z) : Z :=
  match items with
  | ILong z :: _ => to_uInt32 z
  | _ => before
  end.

(** The automatic variables of the parser that live across the channels. *)
Record Locals := mkLocals {
  channelNum : Z;
  justificationBuff : text;
  signedBuff : text;
  compBuff : text;
  byteOrderBuff : text;
  coeffBuff : text
}.

(** What the parser does not initialise before it may read it: [numTasks]
    and the other automatic variables, the [i]-th [ChannelInfo] as [malloc]
    returns it, and the [k]-th [ScaleCoeff] allocated for channel [i]. *)
Record Indeterminate := mkIndeterminate {
  numTasks_before : Z;
  locals_before : Locals;
  malloc_ChannelInfo : Z -> ChannelInfo;
  malloc_ScaleCoeff : Z -> nat -> float
}.

Section Parser.

(** [sscanf(s,"%le",&x)]: the value stored, [None] when nothing is. *)
Variable sscanf_le : text -> option float.
Variable ind : Indeterminate.

(** The [while( coeffStr )] loop over the tokens of [coeffBuff]. *)
Fixpoint ParseCoeffs (i : Z) (k : nat) (tokens : list text) : list float :=
  match tokens with
  | [] => []
  | coeffStr :: rest =>
      match sscanf_le coeffStr with
      | Some x => x
      | None => malloc_ScaleCoeff ind i k
      end :: ParseCoeffs i (S k) rest
  end.

(** The body of [for(;i<info.numberOfChannels;++i)], [n] iterations left. *)
Fixpoint ParseChannels (n : nat) (i : Z) (loc : Locals)
  : Parse (list ChannelInfo) :=
  match n with
  | O => ret []
  | S n' =>
      let chan := malloc_ChannelInfo ind i in
      a <- scan "[Task0Channel%ld]\n" ;;
      let channelNum := stored_ld a (channelNum loc) in
      a <- scan "Name=%s\n" ;;
      let name := stored_s a (name chan) in
      a <- scan "RawSampleResolution=%ld\n" ;;
      let rawSampleResolution := stored_ld a (rawSampleResolution chan) in
      a <- scan "RawSampleSizeInBits=%ld\n" ;;
      let rawSampleSizeInBits := stored_ld a (rawSampleSizeInBits chan) in
      a <- scan "RawSampleJustification=%s\n" ;;
      let justificationBuff := stored_s a (justificationBuff loc) in
      a <- scan "SignedNumber=%s\n" ;;
      let signedBuff := stored_s a (signedBuff loc) in
      a <- scan "CompressionType=%s\n" ;;
      let compBuff := stored_s a (compBuff loc) in
      a <- scan "CompressedSampleSizeInBits=%ld\n" ;;
      let compressedSampleSizeInBits :=
        stored_ld a (compressedSampleSizeInBits chan) in
      a <- scan "CompressionByteOrder=%s\n" ;;
      let byteOrderBuff := stored_s a (byteOrderBuff loc) in
      a <- scan "PolynomialScalingCoeffs=%s\n" ;;
      let coeffBuff := stored_s a (coeffBuff loc) in
      if negb (channelNum =? i)
         || match coeffBuff with
            | [] => true
            | c :: _ => Ascii.eqb c ";"
            end
      then return_NULL
      else
        let tokens := strtok_all coeffBuff [] in
        let chan :=
          mkChannelInfo name rawSampleResolution rawSampleSizeInBits
            (if streq justificationBuff (str "Left")
             then DAQmx_Val_LeftJustified else DAQmx_Val_RightJustified)
            (streq signedBuff (str "TRUE"))
            (if streq compBuff (str "LosslessPacking")
             then DAQmx_Val_LosslessPacking
             else if streq compBuff (str "LossyLSBRemoval")
                  then DAQmx_Val_LossyLSBRemoval else DAQmx_Val_None)
            compressedSampleSizeInBits
            (if streq byteOrderBuff (str "LittleEndian")
             then LittleEndian else BigEndian)
            (ParseCoeffs i O tokens) in
        (* [strtok] has cut [coeffBuff] after its first token *)
        let loc' := mkLocals channelNum justificationBuff signedBuff compBuff
                             byteOrderBuff (hd [] tokens) in
        chain <- ParseChannels n' (i + 1) loc' ;;
        ret (chan :: chain)
  end.

(** [info] is the static record as the call finds it (all zero at the first
    call); [file] is the stream [fopen(filePath,"r")] gives, [None] when the
    file cannot be opened. *)
Definition ParseDataFileHeader (info : DataFileInfo) (file : option text)
  : option DataFileInfo :=
  match file with
  | None => None
  | Some f =>
      option_map fst
        ((_ <- scan "[DAQCompressedBinaryFile]\n" ;;
          a <- scan "Version=%s\n" ;;
          let version := stored_s a (version info) in
          a <- scan "HeaderSize=%ld\n" ;;
          let headerSize := stored_ld a (headerSize info) in
          a <- scan "NumberOfTasks=%ld\n" ;;
          let numTasks := stored_ld a (numTasks_before ind) in
          _ <- scan "[Task0]\n" ;;
          a <- scan "Name=%s\n" ;;
          let taskName := stored_s a (taskName info) in
          a <- scan "NumberOfChannels=%ld\n" ;;
          let numberOfChannels := stored_ld a (numberOfChannels info) in
          a <- scan "ReadBlockSize=%ld\n" ;;
          let readBlockSize := stored_ld a (readBlockSize info) in
          a <- scan "ReadBlockSizeInBytes=%ld\n" ;;
          let readBlockSizeInBytes := stored_ld a (readBlockSizeInBytes info) in
          if negb (streq version (str "1.0.0")) || (numberOfChannels <? 1)
          then return_NULL
          else
            chain <- ParseChannels (Z.to_nat numberOfChannels) 0
                                   (locals_before ind) ;;
            _ <- scan "[BinaryData]\n" ;;
            _ <- scan "Begin=Here\n" ;;
            ret (mkDataFileInfo version headerSize taskName numberOfChannels
                                readBlockSize readBlockSizeInBytes chain)) f)
  end.

End Parser.

(** The static [info] before the first call. *)
Definition info_zero : DataFileInfo := mkDataFileInfo [] 0 [] 0 0 0 [].

(** *** ReadDataFileData, ReadScaleAndPlotDataFileData *)

Definition FindOutFileSize (disk : option text) : Z :=
  match disk with
  | Some d => to_long (Z.of_nat (List.length d))
  | None => 0
  end.

(** The bytes from offset [headerSize] to the end of the file.  [fseek]
    refuses a negative offset and [malloc] a negative size; an allocation of
    no bytes is taken to succeed. *)
Definition ReadDataFileData (info : DataFileInfo) (disk : option text)
  : option (list Z) :=
  match disk with
  | None => None
  | Some d =>
      let size := FindOutFileSize disk in
      if to_long (headerSize info) <? 0 then None
      else
        let size := to_long (size - headerSize info) in
        if size <? 0 then None
        else Some (map byte_of_ascii (skipn (Z.to_nat (headerSize info)) d))
  end.

Inductive Path := WithoutPacking | WithPacking.

(** The condition under which [DecodeDataWithoutPacking] is called; [chan]
    is the first channel, [info->channelInfoChain]. *)
Definition SelectPath (chan : ChannelInfo) : Path :=
  match compressionType chan with
  | DAQmx_Val_None => WithoutPacking
  | _ =>
      match compressionByteOrder chan with
      | LittleEndian =>
          if compressedSampleSizeInBits chan mod 8 =? 0
          then WithoutPacking else WithPacking
      | BigEndian => WithPacking
      end
  end.

(** The value [ReadScaleAndPlotDataFileData] returns, [numSamples>0]; [None]
    when the fuel does not suffice for the decoding loop.  The buffers
    [data[iChan]] are taken to be allocated; [tm] is the text mode of the
    platform. *)
Definition ReadScaleAndPlotDataFileData (fuel : nat) (tm : TextMode)
    (sscanf_le : text -> option float) (ind : Indeterminate)
    (disk : option text) : option Z :=
  match ParseDataFileHeader sscanf_le ind info_zero
                            (option_map (from_disk tm) disk) with
  | None => Some 0
  | Some info =>
      match ReadDataFileData info disk with
      | None => Some 0
      | Some rawData =>
          match channelInfoChain info with
          | [] => Some 0
          | chan :: _ =>
              match
                match SelectPath chan with
                | WithoutPacking => DecodeDataWithoutPacking fuel info rawData
                | WithPacking => DecodeDataWithPacking info rawData
                end
              with
              | None => None
              | Some (_, numSamples) =>
                  Some (if 0 <? to_uInt32 numSamples then 1 else 0)
              end
          end
      end
  end.

(** *** The buffers [data[iChan]] *)

(** What [data[iChan][iSamp]] holds after the assignments [cells] to
    buffers that [malloc] returned with the content [malloc_data]. *)
Definition content (malloc_data : Z -> Z -> float) (cells : list Cell)
    (iChan iSamp : Z) : float :=
  match data_at cells iChan iSamp with
  | Some x => x
  | None => malloc_data iChan iSamp
  end.

(** *** PlotScaledData *)

(** One line of output: the arguments of the [printf]. *)
Record PlotLine := mkPlotLine {
  line_channel : Z;
  line_samples : Z;
  line_average : float
}.

(** [for(total=0.0,iSamp=0;iSamp<numSamples;total+=data[iChan][iSamp++]);]
    on the row [data[iChan]], with [n] iterations left. *)
Fixpoint Total (n : nat) (row : Z -> float) (iSamp : Z) (total : float)
  : float :=
  match n with
  | O => total
  | S n' => Total n' row (to_uInt32 (iSamp + 1)) (total + row iSamp)%float
  end.

(** [for(;iChan<numChannels;++iChan,printf(...,(int)iChan,numSamples,
    total/numSamples)) ...], with [n] iterations left: the line is printed
    after [iChan] has been incremented. *)
Fixpoint PlotChannels (n : nat) (data : Z -> Z -> float)
    (iChan numSamples : Z) : list PlotLine :=
  match n with
  | O => []
  | S n' =>
      let total := Total (Z.to_nat numSamples) (data iChan) 0 0%float in
      let iChan' := to_uInt32 (iChan + 1) in
      mkPlotLine (to_long iChan') numSamples
                 (total / double_of_uInt32 numSamples)%float
      :: PlotChannels n' data iChan' numSamples
  end.

(** The value returned and the lines printed. *)
Definition PlotScaledData (data : Z -> Z -> float)
    (numChannels numSamples : Z) : Z * list PlotLine :=
  if (numChannels <=? 0) || (numSamples <=? 0) then (0, [])
  else (1, PlotChannels (Z.to_nat numChannels) data 0 numSamples).

End Decoder.

(** ** ContAcqVoltage-ToFile-Compacted.c *)

Module Encoder.
Import C DAQmx.

(** What the driver answers to the queries of the header functions.  A
    channel is named by its string; the empty string asks for the whole
    task.  [DAQmxGetAIResolution] yields a [float64] that holds a whole
    number of bits and is given as that number. *)
Record Driver := mkDriver {
  DAQmxGetTaskName : text;
  DAQmxGetNthTaskChannel : Z -> text;
  DAQmxGetAIResolution : text -> Z;
  DAQmxGetAIRawSampSize : text -> Z;
  DAQmxGetAIRawSampJustification : text -> Justification;
  DAQmxGetAIMin : text -> float;
  DAQmxGetAIRawDataCompressionType : text -> CompressionType;
  DAQmxGetAILossyLSBRemovalCompressedSampSize : text -> Z;
  DAQmxGetAIDevScalingCoeff : text -> list float;
  DAQmxGetReadRawDataWidth : Z;
  (** whether the queries of [CalculateReadBlockSize] report
      [DAQmxErrorCompressedSampSizeExceedsResolution] *)
  CompressedSampSizeExceedsResolution : bool
}.

Section Header.

Variable drv : Driver.
(** [sprintf] with ["%0.15lE"] *)
Variable format_E15 : float -> text.

(** The compressed width of a sample, as both header functions choose it. *)
Definition CompressedSize (chan : text) (rawSampSize : Z) : Z :=
  match DAQmxGetAIRawDataCompressionType drv chan with
  | DAQmx_Val_LosslessPacking => to_uInt32 (DAQmxGetAIResolution drv chan)
  | DAQmx_Val_LossyLSBRemoval =>
      DAQmxGetAILossyLSBRemovalCompressedSampSize drv chan
  | DAQmx_Val_None => rawSampSize
  end.

(** Returns the success flag and the new [gReadBlockSize]. *)
Definition CalculateReadBlockSize (gReadBlockSize numChannels sampsPerChan : Z)
  : Z * Z :=
  if CompressedSampSizeExceedsResolution drv then (0, gReadBlockSize)
  else
    let rawSampSize := DAQmxGetAIRawSampSize drv [] in
    let val := CompressedSize [] rawSampSize in
    let rawDataWidth := to_uInt32 (DAQmxGetReadRawDataWidth drv * 8) in
    let gReadBlockSize :=
      to_uInt32 (val * rawDataWidth) in
    let gReadBlockSize :=
      to_uInt32 (gReadBlockSize * sampsPerChan) / rawSampSize / 8 in
    if negb (rawDataWidth mod rawSampSize =? 0)
       && negb (rawDataWidth / rawSampSize =? numChannels)
    then (0, gReadBlockSize)
    else (1, gReadBlockSize).

(** Returns [success], [gHeader] and [gReadBlockSize]. *)
Definition CreateDataFileTaskEntry (gHeader : text) (gReadBlockSize : Z)
    (numChannels sampsToRead : Z) : Z * text * Z :=
  let gHeader := gHeader ++ str "[Task0]\n" in
  let gHeader := gHeader ++ str "Name=" ++ DAQmxGetTaskName drv ++ str "\n" in
  let gHeader := gHeader ++ str "NumberOfChannels="
                         ++ decimal (to_long numChannels) ++ str "\n" in
  let gHeader := gHeader ++ str "ReadBlockSize="
                         ++ decimal (to_long sampsToRead) ++ str "\n" in
  let '(success, gReadBlockSize) :=
    CalculateReadBlockSize gReadBlockSize numChannels sampsToRead in
  let gHeader := gHeader ++ str "ReadBlockSizeInBytes="
                         ++ decimal (to_long gReadBlockSize) ++ str "\n" in
  (success, gHeader, gReadBlockSize).

Definition CreateDataFileChannelEntry (gHeader : text) (idx : Z) : text :=
  let channelName := DAQmxGetNthTaskChannel drv (idx + 1) in
  let gHeader := gHeader ++ str "[Task0Channel" ++ decimal idx ++ str "]\n"
                         ++ str "Name=" ++ channelName ++ str "\n" in
  let resolution := DAQmxGetAIResolution drv channelName in
  let gHeader := gHeader ++ str "RawSampleResolution="
                         ++ decimal (to_uInt32 resolution) ++ str "\n" in
  let rawSampSize := DAQmxGetAIRawSampSize drv channelName in
  let gHeader := gHeader ++ str "RawSampleSizeInBits="
                         ++ decimal (to_uInt32 rawSampSize) ++ str "\n" in
  let gHeader :=
    gHeader ++ str "RawSampleJustification="
            ++ match DAQmxGetAIRawSampJustification drv channelName with
               | DAQmx_Val_LeftJustified => str "Left"
               | DAQmx_Val_RightJustified => str "Right"
               end ++ str "\n" in
  let gHeader :=
    gHeader ++ str "SignedNumber="
            ++ (if PrimFloat.ltb (DAQmxGetAIMin drv channelName) 0
                then str "TRUE" else str "FALSE") ++ str "\n" in
  let i32 := DAQmxGetAIRawDataCompressionType drv channelName in
  let gHeader :=
    gHeader ++ match i32 with
               | DAQmx_Val_LosslessPacking =>
                   str "CompressionType=LosslessPacking\n"
               | DAQmx_Val_LossyLSBRemoval =>
                   str "CompressionType=LossyLSBRemoval\n"
               | DAQmx_Val_None => str "CompressionType=None\n"
               end in
  let u32 := CompressedSize channelName rawSampSize in
  let gHeader := gHeader ++ str "CompressedSampleSizeInBits="
                         ++ decimal (to_uInt32 u32) ++ str "\n" in
  let gHeader :=
    gHeader ++ str "CompressionByteOrder="
            ++ (if (rawSampSize =? resolution)
                   || match i32 with DAQmx_Val_None => true | _ => false end
                then str "LittleEndian" else str "BigEndian") ++ str "\n" in
  let coeffs := firstn 1000 (DAQmxGetAIDevScalingCoeff drv channelName) in
  let gHeader := gHeader ++ str "PolynomialScalingCoeffs=" in
  let gHeader :=
    fold_left (fun g c => g ++ format_E15 c ++ str ";") coeffs gHeader in
  gHeader ++ str "\n".

(** [while( i<numChannels ) CreateDataFileChannelEntry(taskHandle,i++);]
    with [n] iterations left. *)
Fixpoint ChannelEntries (n : nat) (i : Z) (gHeader : text) : text :=
  match n with
  | O => gHeader
  | S n' => ChannelEntries n' (i + 1) (CreateDataFileChannelEntry gHeader i)
  end.

(** [ch = s[10]; sprintf(s,"%010d",(int)size); s[10] = ch;] on the string
    that starts at [s]: [sprintf] puts its digits and a terminator there,
    and the character saved takes the place of whatever is at offset 10. *)
Definition PatchSize (s : text) (size : Z) : text :=
  let d := decimal_010 size in
  firstn 10 d ++
  match skipn 10 s with
  | [] => []
  | ch :: tail => ch :: (if (List.length d =? 10)%nat then tail else skipn 11 d)
  end.

(** [FindOutFileSize], a [long], for a file that can be opened. *)
Definition FindOutFileSize (disk : text) : Z :=
  to_long (Z.of_nat (List.length disk)).

(** The program state the header function works on. *)
Record State := mkState {
  gHeader : text;
  gReadBlockSize : Z;
  (** the bytes of the file at [filePath], [None] while there is none *)
  disk : option text
}.

(** The first half of [CreateDataFileHeader], up to the [fclose] that
    follows [fputs(gHeader,gFileHandle)]: the header with the placeholder
    is built and written.  The result is the success flag, [gHeader],
    [gReadBlockSize] and the bytes of the file; the stream was opened
    without ["b"], so the text goes through the text mode [tm]. *)
Definition WriteHeaderWithPlaceholder (tm : TextMode) (gReadBlockSize : Z)
    (numChannels sampsPerChan : Z) : Z * text * Z * text :=
  let gHeader :=
    str "[DAQCompressedBinaryFile]\nVersion=1.0.0\nHeaderSize=0deadBEEF0\nNumberOfTasks=1\n" in
  let '(success, gHeader, gReadBlockSize) :=
    CreateDataFileTaskEntry gHeader gReadBlockSize numChannels sampsPerChan in
  if success =? 0 then (0, gHeader, gReadBlockSize, [])
  else
    let gHeader := ChannelEntries (Z.to_nat numChannels) 0 gHeader in
    let gHeader := gHeader ++ str "[BinaryData]\nBegin=Here\n" in
    (1, gHeader, gReadBlockSize, to_disk tm gHeader).

(** The second half: the size of the file is taken, the file is read back
    into [gHeader], the placeholder is replaced and the header is written
    over the start of the file.  The result is [gHeader] and the bytes of
    the file. *)
Definition PatchHeaderSize (tm : TextMode) (gHeader written : text)
  : text * text :=
  let size := to_uInt32 (FindOutFileSize written) in
  (* fread(gHeader,1,2*size,gFileHandle) *)
  let read :=
    firstn (Z.to_nat (to_uInt32 (2 * size))) (from_disk tm written) in
  let gHeader := overwrite gHeader read in
  let gHeader :=
    match strstr gHeader (str "0deadBEEF0") with
    | Some off =>
        firstn off gHeader ++ PatchSize (skipn off gHeader) (to_long size)
    | None => gHeader
    end in
  (* fseek(gFileHandle,0,SEEK_SET); fwrite(gHeader,1,strlen(gHeader),...) *)
  (gHeader, overwrite written (to_disk tm gHeader)).

(** [writable] tells whether [fopen(filePath,"w")] succeeds; the later
    calls of [fopen] on the file just written are taken to succeed. *)
Definition CreateDataFileHeader (tm : TextMode) (writable : bool)
    (st : State) (filePath : text) (numChannels sampsPerChan : Z)
  : bool * State :=
  match filePath with
  | [] => (false, st)
  | _ :: _ =>
      if negb writable then (false, st)
      else
        let '(success, gHeader, gReadBlockSize, written) :=
          WriteHeaderWithPlaceholder tm (gReadBlockSize st)
                                     numChannels sampsPerChan in
        if success =? 0
        then (false, mkState gHeader gReadBlockSize (Some []))
        else
          let '(gHeader, disk) := PatchHeaderSize tm gHeader written in
          (true, mkState gHeader gReadBlockSize (Some disk))
  end.

End Header.

(** [fwrite(data,sizeof(uInt8),numBytes,gFileHandle)] on the stream opened
    with ["ab"]. *)
Definition WriteDataToDataFile (st : State) (data : text) : State :=
  mkState (gHeader st) (gReadBlockSize st)
          (option_map (fun d => d ++ data) (disk st)).

(** *** EveryNCallback *)

(** What [DAQmxReadRaw] does in one call: the status it returns, the number
    of samples it stores in [read], and the bytes that are in memory from
    the address [data] on when it returns (the byte at every offset,
    whether the buffer reaches that far or not). *)
Record ReadRaw := mkReadRaw {
  status : Z;
  read : Z;
  memory : nat -> ascii
}.

Definition DAQmxFailed (error : Z) : bool := error <? 0.

(** The file and the [static int totalRead] of the callback. *)
Record Acquisition := mkAcquisition {
  file : State;
  totalRead : Z
}.

(** [fwrite] takes [numBytes], an [int32] that was passed the [uInt32]
    [gReadBlockSize], as a [size_t]. *)
Definition EveryNCallback (acq : Acquisition) (r : ReadRaw) : Acquisition :=
  if DAQmxFailed (status r) then acq
  else if 0 <? read r then
    let numBytes := to_long (gReadBlockSize (file acq)) in
    mkAcquisition
      (WriteDataToDataFile
         (file acq)
         (map (memory r) (seq 0 (Z.to_nat (to_uInt32 numBytes)))))
      (to_long (totalRead acq + read r))
  else acq.

(** The callbacks of one acquisition, in the order of the calls. *)
Definition Callbacks (acq : Acquisition) (calls : list ReadRaw)
  : Acquisition :=
  fold_left EveryNCallback calls acq.

End Encoder.

(** ** The format as the specification describes it, and the notions the
    proofs are stated with *)

Module Spec.
Import C DAQmx Decoder Encoder.

(** *** Sizes of a sample *)

(** Bytes the unpacked decoder reads for one sample of every channel. *)
Definition bytes_per_sample (chain : list ChannelInfo) : nat :=
  fold_right (fun c acc => Z.to_nat (rawSampleSizeInBits c / 8) + acc)%nat
             O chain.

(** *** The bit stream of a block *)

(** Bit [j] of a block, counted from the most significant bit of its first
    byte. *)
Definition bit_at (buf : list Z) (j : Z) : Z :=
  Z.land (Z.shiftr (nth (Z.to_nat (j / 8)) buf 0) (7 - j mod 8)) 1.

(** The accumulator of the bit loop after the [n] bits from bit [j] on. *)
Fixpoint field (buf : list Z) (n : nat) (j val : Z) : Z :=
  match n with
  | O => val
  | S n' => field buf n' (j + 1) (to_long (to_long (val * 2) + bit_at buf j))
  end.

(** The cursor of a block that starts at [buf], after [j] of its bits. *)
Definition At (rbsb : Z) (buf : list Z) (j : Z) (cur : Cursor) : Prop :=
  let bc := Z.min (j / 8 + 1) rbsb in
  byteCount cur = bc
  /\ bitPos cur = j - 8 * (bc - 1)
  /\ ch cur = nth (Z.to_nat (bc - 1)) buf 0
  /\ rawData cur = skipn (Z.to_nat bc) buf
  /\ bc <= Z.of_nat (List.length buf).

(** Reading the [n] bits after bit [j] of a block of which [N] bytes are
    there asks for a byte behind the last one. *)
Definition exhausted (N rbsb j n : Z) : bool :=
  (j <? 8 * N) && (8 * N <=? j + n) && (N <? rbsb).

(** Bits the packed decoder reads for one sample of every channel. *)
Definition bits_per_sample (chain : list ChannelInfo) : nat :=
  fold_right (fun c acc => Z.to_nat (compressedSampleSizeInBits c) + acc)%nat
             O chain.

(** The assignments of one sample whose bits start at bit [j] of the block:
    each channel's field is read at its offset, reconstructed and scaled. *)
Fixpoint sample_cells (buf : list Z) (chain : list ChannelInfo)
    (iChan numSamples j : Z) : list Cell :=
  match chain with
  | [] => []
  | c :: next =>
      let n := Z.to_nat (compressedSampleSizeInBits c) in
      let val := Reconstruct c (field buf n j 0) in
      mkCell iChan numSamples val (Scale c val)
      :: sample_cells buf next (to_uInt32 (iChan + 1)) numSamples
                      (j + Z.of_nat n)
  end.

(** The assignments of [n] consecutive samples from bit [j] on. *)
Fixpoint block_cells (buf : list Z) (chain : list ChannelInfo) (n : nat)
    (numSamples j : Z) : list Cell :=
  match n with
  | O => []
  | S n' =>
      sample_cells buf chain 0 numSamples j
      ++ block_cells buf chain n' (to_uInt32 (numSamples + 1))
                     (j + Z.of_nat (bits_per_sample chain))
  end.

(** *** Bit packing *)

(** Bit packing as the format describes it: the bits of the samples, most
    significant first, one after the other without padding, eight to a
    byte from its most significant bit down; the last byte of a block is
    filled up with zero bits. *)
Definition bits_to_Z (bs : list bool) (acc : Z) : Z :=
  fold_left (fun a (b : bool) => 2 * a + Z.b2z b) bs acc.

Definition byte_of_bits (bs : list bool) : Z := bits_to_Z bs 0.

Fixpoint pack_bits (bits cur : list bool) : list Z :=
  match bits with
  | [] =>
      match cur with
      | [] => []
      | _ => [byte_of_bits (cur ++ repeat false (8 - List.length cur))]
      end
  | b :: bits' =>
      if (List.length cur =? 7)%nat
      then byte_of_bits (cur ++ [b]) :: pack_bits bits' []
      else pack_bits bits' (cur ++ [b])
  end.

(** The [w] low bits of [v], most significant first (two's complement for
    a negative [v]). *)
Fixpoint bits_msb (w : nat) (v : Z) : list bool :=
  match w with
  | O => []
  | S w' => Z.testbit v (Z.of_nat w') :: bits_msb w' v
  end.

(** One sample: the value of each channel at the channel's compressed
    width, in the order of the chain. *)
Fixpoint sample_bits (chain : list ChannelInfo) (row : list Z) : list bool :=
  match chain, row with
  | c :: chain', v :: row' =>
      bits_msb (Z.to_nat (compressedSampleSizeInBits c)) v
      ++ sample_bits chain' row'
  | _, _ => []
  end.

Definition pack_block (chain : list ChannelInfo) (rows : list (list Z))
  : list Z :=
  pack_bits (flat_map (sample_bits chain) rows) [].

(** *** What the packed decoder is to store *)

(** The bits [bs] are what the buffer holds from bit [j] on. *)
Definition holds (buf : list Z) (j : Z) (bs : list bool) : Prop :=
  forall i, (i < List.length bs)%nat ->
            bit_at buf (j + Z.of_nat i) = Z.b2z (nth i bs false).

(** What the decoder is to make of the value [v] packed for [chan]. *)
Definition stored (chan : ChannelInfo) (v : Z) : Z :=
  Reconstruct chan
    (to_long (v mod 2 ^ Z.of_nat (Z.to_nat (compressedSampleSizeInBits chan)))).

Fixpoint expect_sample (chain : list ChannelInfo) (row : list Z)
    (iChan numSamples : Z) : list Cell :=
  match chain, row with
  | c :: chain', v :: row' =>
      mkCell iChan numSamples (stored c v) (Scale c (stored c v))
      :: expect_sample chain' row' (to_uInt32 (iChan + 1)) numSamples
  | _, _ => []
  end.

Fixpoint expect_rows (chain : list ChannelInfo) (rows : list (list Z))
    (numSamples : Z) : list Cell :=
  match rows with
  | [] => []
  | row :: rows' =>
      expect_sample chain row 0 numSamples
      ++ expect_rows chain rows' (to_uInt32 (numSamples + 1))
  end.

Fixpoint expect_blocks (chain : list ChannelInfo)
    (blocks : list (list (list Z))) (numSamples : Z) : list Cell :=
  match blocks with
  | [] => []
  | rows :: blocks' =>
      expect_rows chain rows numSamples
      ++ expect_blocks chain blocks'
           (to_uInt32 (numSamples + Z.of_nat (List.length rows)))
  end.

(** A block of [r] samples, each with one value for every channel. *)
Definition well_formed_block (chain : list ChannelInfo) (r : nat)
    (rows : list (list Z)) : Prop :=
  List.length rows = r
  /\ Forall (fun row => List.length row = List.length chain) rows.

(** The number of samples the packed decoder counts in a buffer of [N]
    bytes: the samples of the whole blocks, and of a last partial block of
    [p] bytes those that end before its last bit. *)
Definition packed_count (rbs rbsb S N : Z) : Z :=
  (N / rbsb) * rbs
  + (if N mod rbsb =? 0 then 0 else (8 * (N mod rbsb) - 1) / S).

(** *** Channels of 12 bits *)

(** A channel stored at 12 bits with no bits removed. *)
Definition channel_12 (c : ChannelInfo) : bool :=
  (compressedSampleSizeInBits c =? 12) && (RawWidth c =? 12).

(** A raw value of 12 bits, signed or unsigned as the channel says. *)
Definition in_range_12 (c : ChannelInfo) (v : Z) : bool :=
  if signedNumber c then (-2048 <=? v) && (v <? 2048)
  else (0 <=? v) && (v <? 4096).

Fixpoint row_in_range_12 (chain : list ChannelInfo) (row : list Z) : bool :=
  match chain, row with
  | [], [] => true
  | c :: chain', v :: row' => in_range_12 c v && row_in_range_12 chain' row'
  | _, _ => false
  end.

Definition block_in_range_12 (chain : list ChannelInfo) (r : nat)
    (rows : list (list Z)) : bool :=
  (List.length rows =? r)%nat && forallb (row_in_range_12 chain) rows.

(** *** Truncated streams *)

(** The number of samples the unpacked decoder counts in a buffer of [N]
    bytes: every block that is begun counts in full. *)
Definition unpacked_count (rbs bpb N : Z) : Z :=
  rbs * ((N + bpb - 1) / bpb).

(** Truncation as the specification words it: only whole blocks count. *)
Definition claimed_truncated_count (rbs bytesPerBlock totalBytes : Z) : Z :=
  (totalBytes / bytesPerBlock) * rbs.

Definition ch16 : ChannelInfo :=
  mkChannelInfo (str "Dev1/ai0") 16 16 DAQmx_Val_RightJustified false
                DAQmx_Val_None 16 LittleEndian [0%float; 1%float].

Definition ch12s : ChannelInfo :=
  mkChannelInfo (str "Dev1/ai0") 12 16 DAQmx_Val_RightJustified true
                DAQmx_Val_LosslessPacking 12 BigEndian [0%float; 1%float].

(** One 16-bit channel, blocks of two samples (four bytes). *)
Definition info_unpacked_2 : DataFileInfo :=
  mkDataFileInfo (str "1.0.0") 0 (str "t") 1 2 4 [ch16].

(** One 16-bit channel, blocks of 1000 samples (2000 bytes). *)
Definition info_unpacked_1000 : DataFileInfo :=
  mkDataFileInfo (str "1.0.0") 0 (str "t") 1 1000 2000 [ch16].

(** One 12-bit channel, blocks of four samples (six bytes). *)
Definition info_packed_4 : DataFileInfo :=
  mkDataFileInfo (str "1.0.0") 0 (str "t") 1 4 6 [ch12s].

(** One 16-bit channel and a [ReadBlockSize] of zero. *)
Definition info_empty_blocks : DataFileInfo :=
  mkDataFileInfo (str "1.0.0") 0 (str "t") 1 0 0 [ch16].

(** *** Widths, sign extension and byte order *)

(** Every channel is at least one byte wide. *)
Definition all_at_least_a_byte (chain : list ChannelInfo) : bool :=
  forallb (fun c => 8 <=? rawSampleSizeInBits c) chain.

(** Every channel is narrower than a byte. *)
Definition all_below_a_byte (chain : list ChannelInfo) : bool :=
  forallb (fun c => rawSampleSizeInBits c <? 8) chain.

(** A signed channel of 8 bits, not compressed. *)
Definition ch8 : ChannelInfo :=
  mkChannelInfo (str "Dev1/ai0") 8 8 DAQmx_Val_RightJustified true
                DAQmx_Val_None 8 LittleEndian [0%float; 1%float].

Definition info_8 : DataFileInfo :=
  mkDataFileInfo (str "1.0.0") 0 (str "t") 1 1 1 [ch8].

(** The same channel as the packed path sees it when it is stored packed. *)
Definition ch8_packed : ChannelInfo :=
  mkChannelInfo (str "Dev1/ai0") 8 8 DAQmx_Val_RightJustified true
                DAQmx_Val_LosslessPacking 8 BigEndian [0%float; 1%float].

(** [sum(byte[i] << (8*i))], the first byte being number [i]. *)
Fixpoint sum_shifted (bytes : list Z) (i : Z) : Z :=
  match bytes with
  | [] => 0
  | b :: rest => Z.shiftl b (8 * i) + sum_shifted rest (i + 1)
  end.

(** [value = (value << 8) | byte[i]] over the bytes in order. *)
Definition big_endian (bytes : list Z) (value : Z) : Z :=
  fold_left (fun v b => Z.lor (Z.shiftl v 8) b) bytes value.

Definition is_byte (b : Z) : bool := (0 <=? b) && (b <? 256).

(** *** The two-channel scenario *)

(** The channels of the scenario: 16 bits as transferred, little endian,
    identity scale. *)
Definition scenario_channel (c : ChannelInfo) : Prop :=
  rawSampleSizeInBits c = 16
  /\ compressionByteOrder c = LittleEndian
  /\ polynomialScalingCoeffChain c = [0%float; 1%float].

(** *** The header of the encoder *)

(** The header up to the field, the placeholder, and the end of every
    header. *)
Definition header_prefix : text :=
  str "[DAQCompressedBinaryFile]\nVersion=1.0.0\nHeaderSize=".
Definition placeholder : text := str "0deadBEEF0".
Definition header_end : text := str "[BinaryData]\nBegin=Here\n".

(** A task of one channel of 16 bits, read 1000 samples at a time. *)
Definition example_driver : Driver :=
  mkDriver (str "_unnamedTask<0>") (fun _ => str "Dev1/ai0") (fun _ => 16)
           (fun _ => 16) (fun _ => DAQmx_Val_RightJustified)
           (fun _ => (-10)%float) (fun _ => DAQmx_Val_None) (fun _ => 16)
           (fun _ => [0%float; 1%float]) 2 false.

Definition example_format (x : float) : text :=
  if PrimFloat.eqb x 0 then str "0.000000000000000E+00"
  else str "1.000000000000000E+00".

Definition example_state : State := mkState [] 0 None.

Definition example_written : Z * text * Z * text :=
  WriteHeaderWithPlaceholder example_driver example_format CRLF 0 1 1000.

(** *** Path selection and headers for the parser *)

(** The selection of the decode path as the specification words it: the
    byte order plays no part. *)
Definition claimed_path (chan : ChannelInfo) : Path :=
  match compressionType chan with
  | DAQmx_Val_None => WithoutPacking
  | _ => if compressedSampleSizeInBits chan mod 8 =? 0
         then WithoutPacking else WithPacking
  end.

(** Lossless packing at 16 bits, in the two byte orders. *)
Definition ch16_packed (order : ByteOrder) : ChannelInfo :=
  mkChannelInfo (str "Dev1/ai0") 16 16 DAQmx_Val_RightJustified true
                DAQmx_Val_LosslessPacking 16 order [0%float; 1%float].

(** A task of one channel packed losslessly at 16 bits, stored in the byte
    order [order]; a single byte of data follows.  The two files differ in
    the byte order only (and, with the length of its name, in the header
    size). *)
Definition file_packed_16 (order : ByteOrder) : text :=
  str "[DAQCompressedBinaryFile]\nVersion=1.0.0\nHeaderSize="
  ++ match order with
     | BigEndian => str "0000000463"
     | LittleEndian => str "0000000466"
     end
  ++ str "\nNumberOfTasks=1\n[Task0]\nName=Task\nNumberOfChannels=1\nReadBlockSize=1\nReadBlockSizeInBytes=2\n[Task0Channel0]\nName=Dev1/ai0\nRawSampleResolution=16\nRawSampleSizeInBits=16\nRawSampleJustification=Right\nSignedNumber=TRUE\nCompressionType=LosslessPacking\nCompressedSampleSizeInBits=16\nCompressionByteOrder="
  ++ match order with
     | BigEndian => str "BigEndian"
     | LittleEndian => str "LittleEndian"
     end
  ++ str "\nPolynomialScalingCoeffs=0.000000000000000E+00;1.000000000000000E+00;\n[BinaryData]\nBegin=Here\n"
  ++ ["001"]%char.

(** A header whose only channel has an empty coefficient field, as the
    encoder writes it for a channel without device scaling coefficients;
    one sample of data follows. *)
Definition file_empty_coeffs : text :=
  str "[DAQCompressedBinaryFile]\nVersion=1.0.0\nHeaderSize=0000000411\nNumberOfTasks=1\n[Task0]\nName=Task\nNumberOfChannels=1\nReadBlockSize=1\nReadBlockSizeInBytes=2\n[Task0Channel0]\nName=Dev1/ai0\nRawSampleResolution=16\nRawSampleSizeInBits=16\nRawSampleJustification=Right\nSignedNumber=TRUE\nCompressionType=None\nCompressedSampleSizeInBits=16\nCompressionByteOrder=LittleEndian\nPolynomialScalingCoeffs=\n[BinaryData]\nBegin=Here\n"
  ++ ["001"; "000"]%char.

(** A task whose two channels differ in compression type and compressed
    width; one sample of each follows. *)
Definition file_mixed : text :=
  str "[DAQCompressedBinaryFile]\nVersion=1.0.0\nHeaderSize=0000000740\nNumberOfTasks=1\n[Task0]\nName=Task\nNumberOfChannels=2\nReadBlockSize=1\nReadBlockSizeInBytes=4\n[Task0Channel0]\nName=Dev1/ai0\nRawSampleResolution=16\nRawSampleSizeInBits=16\nRawSampleJustification=Right\nSignedNumber=TRUE\nCompressionType=None\nCompressedSampleSizeInBits=16\nCompressionByteOrder=LittleEndian\nPolynomialScalingCoeffs=0.000000000000000E+00;1.000000000000000E+00;\n[Task0Channel1]\nName=Dev1/ai1\nRawSampleResolution=12\nRawSampleSizeInBits=16\nRawSampleJustification=Right\nSignedNumber=TRUE\nCompressionType=LosslessPacking\nCompressedSampleSizeInBits=12\nCompressionByteOrder=BigEndian\nPolynomialScalingCoeffs=0.000000000000000E+00;1.000000000000000E+00;\n[BinaryData]\nBegin=Here\n"
  ++ ["001"; "000"; "002"; "000"]%char.

(** The channels of a manifest do not all share compression type, raw
    width and compressed width. *)
Definition mixed_formats (info : DataFileInfo) : bool :=
  match channelInfoChain info with
  | [] => false
  | c :: rest =>
      negb (forallb
              (fun d =>
                 match compressionType c, compressionType d with
                 | DAQmx_Val_None, DAQmx_Val_None
                 | DAQmx_Val_LosslessPacking, DAQmx_Val_LosslessPacking
                 | DAQmx_Val_LossyLSBRemoval, DAQmx_Val_LossyLSBRemoval => true
                 | _, _ => false
                 end
                 && (rawSampleSizeInBits c =? rawSampleSizeInBits d)
                 && (compressedSampleSizeInBits c
                     =? compressedSampleSizeInBits d))
              rest)
  end.

(** Headers that the parser is to refuse. *)
Definition file_version_2 : text :=
  str "[DAQCompressedBinaryFile]\nVersion=2.0.0\nHeaderSize=0000000411\nNumberOfTasks=1\n[Task0]\nName=Task\nNumberOfChannels=1\nReadBlockSize=1\nReadBlockSizeInBytes=2\n[Task0Channel0]\nName=Dev1/ai0\nRawSampleResolution=16\nRawSampleSizeInBits=16\nRawSampleJustification=Right\nSignedNumber=TRUE\nCompressionType=None\nCompressedSampleSizeInBits=16\nCompressionByteOrder=LittleEndian\nPolynomialScalingCoeffs=1.0;\n[BinaryData]\nBegin=Here\n".

Definition file_no_channels : text :=
  str "[DAQCompressedBinaryFile]\nVersion=1.0.0\nHeaderSize=0000000143\nNumberOfTasks=1\n[Task0]\nName=Task\nNumberOfChannels=0\nReadBlockSize=1\nReadBlockSizeInBytes=2\n[BinaryData]\nBegin=Here\n".

Definition file_index_gap : text :=
  str "[DAQCompressedBinaryFile]\nVersion=1.0.0\nHeaderSize=0000000700\nNumberOfTasks=1\n[Task0]\nName=Task\nNumberOfChannels=2\nReadBlockSize=1\nReadBlockSizeInBytes=4\n[Task0Channel0]\nName=Dev1/ai0\nRawSampleResolution=16\nRawSampleSizeInBits=16\nRawSampleJustification=Right\nSignedNumber=TRUE\nCompressionType=None\nCompressedSampleSizeInBits=16\nCompressionByteOrder=LittleEndian\nPolynomialScalingCoeffs=1.0;\n[Task0Channel2]\nName=Dev1/ai1\nRawSampleResolution=16\nRawSampleSizeInBits=16\nRawSampleJustification=Right\nSignedNumber=TRUE\nCompressionType=None\nCompressedSampleSizeInBits=16\nCompressionByteOrder=LittleEndian\nPolynomialScalingCoeffs=1.0;\n[BinaryData]\nBegin=Here\n".

Definition file_leading_semicolon : text :=
  str "[DAQCompressedBinaryFile]\nVersion=1.0.0\nHeaderSize=0000000411\nNumberOfTasks=1\n[Task0]\nName=Task\nNumberOfChannels=1\nReadBlockSize=1\nReadBlockSizeInBytes=2\n[Task0Channel0]\nName=Dev1/ai0\nRawSampleResolution=16\nRawSampleSizeInBits=16\nRawSampleJustification=Right\nSignedNumber=TRUE\nCompressionType=None\nCompressedSampleSizeInBits=16\nCompressionByteOrder=LittleEndian\nPolynomialScalingCoeffs=;1.0;\n[BinaryData]\nBegin=Here\n".

(** *** Further example channels *)

Definition ch12 (s : bool) : ChannelInfo :=
  mkChannelInfo (str "Dev1/ai0") 12 16 DAQmx_Val_RightJustified s
                DAQmx_Val_LosslessPacking 12 BigEndian [0%float; 1%float].

Definition ch10in12 : ChannelInfo :=
  mkChannelInfo (str "Dev1/ai0") 12 16 DAQmx_Val_RightJustified true
                DAQmx_Val_LossyLSBRemoval 10 BigEndian [0%float; 1%float].

Definition ch4 : ChannelInfo :=
  mkChannelInfo (str "Dev1/ai0") 4 4 DAQmx_Val_RightJustified false
                DAQmx_Val_None 4 LittleEndian [0%float; 1%float].

(** *** Stand-ins for what the programs leave open *)

(** An [sscanf] that stores nothing, and zeroed memory. *)
Definition sscanf_nothing : text -> option float := fun _ => None.

Definition zeroed : Indeterminate :=
  mkIndeterminate 0 (mkLocals 0 [] [] [] [] [])
    (fun _ => mkChannelInfo [] 0 0 DAQmx_Val_RightJustified false
                            DAQmx_Val_None 0 BigEndian [])
    (fun _ _ => 0%float).

(** *** The cells of the buffers *)

(** The place of an assignment: channel and sample. *)
Definition cell_index (c : Cell) : Z * Z := (cell_chan c, cell_samp c).

(** The cells of sample [iSamp] from channel [a] on, [n] of them, in the
    order of the channels. *)
Definition cells_from (a n : nat) (iSamp : Z) : list (Z * Z) :=
  map (fun i => (Z.of_nat i, iSamp)) (seq a n).

(** The cells of sample [iSamp] of [numChannels] channels. *)
Definition sample_row (numChannels : nat) (iSamp : Z) : list (Z * Z) :=
  cells_from 0 numChannels iSamp.

(** The cells of the [n] samples from [first] on, sample by sample. *)
Definition sample_rows (numChannels : nat) (first : Z) (n : nat)
  : list (Z * Z) :=
  flat_map (fun s => sample_row numChannels (first + Z.of_nat s)) (seq 0 n).

(** The assignment [c] made [d] samples later. *)
Definition later (d : Z) (c : Cell) : Cell :=
  mkCell (cell_chan c) (cell_samp c + d) (cell_val c) (cell_data c).

(** *** Samples at any width *)

(** A channel whose compressed samples the packed decoder can restore: at
    least one bit, not more bits than the raw sample has, and a raw sample
    that fits a [long] (31 bits when it is unsigned). *)
Definition restorable (c : ChannelInfo) : bool :=
  (1 <=? compressedSampleSizeInBits c)
  && (compressedSampleSizeInBits c <=? RawWidth c)
  && ((RawWidth c <=? 31) || (signedNumber c && (RawWidth c <=? 32))).

(** A value of the compressed width, signed or unsigned as the channel
    says. *)
Definition in_range (c : ChannelInfo) (v : Z) : bool :=
  let size := compressedSampleSizeInBits c in
  if signedNumber c then (- 2 ^ (size - 1) <=? v) && (v <? 2 ^ (size - 1))
  else (0 <=? v) && (v <? 2 ^ size).

Fixpoint row_in_range (chain : list ChannelInfo) (row : list Z) : bool :=
  match chain, row with
  | [], [] => true
  | c :: chain', v :: row' => in_range c v && row_in_range chain' row'
  | _, _ => false
  end.

Definition block_in_range (chain : list ChannelInfo) (r : nat)
    (rows : list (list Z)) : bool :=
  (List.length rows =? r)%nat && forallb (row_in_range chain) rows.

(** The compressed value with the bits that were removed put back as
    zeros. *)
Definition restored (c : ChannelInfo) (v : Z) : Z :=
  v * 2 ^ (RawWidth c - compressedSampleSizeInBits c).

Fixpoint restored_row (chain : list ChannelInfo) (row : list Z) : list Z :=
  match chain, row with
  | c :: chain', v :: row' => restored c v :: restored_row chain' row'
  | _, _ => []
  end.

(** A channel compressed by the removal of two bits of 12, unsigned. *)
Definition ch10in12u : ChannelInfo :=
  mkChannelInfo (str "Dev1/ai1") 12 16 DAQmx_Val_RightJustified false
                DAQmx_Val_LossyLSBRemoval 10 BigEndian [0%float; 1%float].

(** *** Samples of 16 bits, not packed *)

(** A channel whose samples take two bytes. *)
Definition channel_16 (c : ChannelInfo) : bool := rawSampleSizeInBits c =? 16.

(** A value of 16 bits, signed or unsigned as the channel says. *)
Definition in_range_16 (c : ChannelInfo) (v : Z) : bool :=
  if signedNumber c then (-32768 <=? v) && (v <? 32768)
  else (0 <=? v) && (v <? 65536).

(** The two bytes of a value (two's complement when it is negative), in
    the byte order of the channel. *)
Definition bytes_16 (c : ChannelInfo) (v : Z) : list Z :=
  let y := v mod 65536 in
  match compressionByteOrder c with
  | LittleEndian => [y mod 256; y / 256]
  | BigEndian => [y / 256; y mod 256]
  end.

Fixpoint row_in_range_16 (chain : list ChannelInfo) (row : list Z) : bool :=
  match chain, row with
  | [], [] => true
  | c :: chain', v :: row' => in_range_16 c v && row_in_range_16 chain' row'
  | _, _ => false
  end.

Definition block_in_range_16 (chain : list ChannelInfo) (r : nat)
    (rows : list (list Z)) : bool :=
  (List.length rows =? r)%nat && forallb (row_in_range_16 chain) rows.

(** The bytes of one sample of every channel, in the order of the chain. *)
Fixpoint sample_bytes_16 (chain : list ChannelInfo) (row : list Z) : list Z :=
  match chain, row with
  | c :: chain', v :: row' => bytes_16 c v ++ sample_bytes_16 chain' row'
  | _, _ => []
  end.

(** Two channels of 16 bits, one signed and little endian, one unsigned and
    big endian. *)
Definition ch16s : ChannelInfo :=
  mkChannelInfo (str "Dev1/ai0") 16 16 DAQmx_Val_RightJustified true
                DAQmx_Val_None 16 LittleEndian [0%float; 1%float].

Definition ch16ub : ChannelInfo :=
  mkChannelInfo (str "Dev1/ai1") 16 16 DAQmx_Val_RightJustified false
                DAQmx_Val_None 16 BigEndian [0%float; 1%float].

(** *** The header, line by line *)

(** One line of the header: a key, a value, a new line. *)
Definition header_line (key : string) (value : text) : text :=
  str key ++ value ++ str "\n".

(** A value that ["%s"] reads back whole: at least one character and no
    white space. *)
Definition is_word (w : text) : bool :=
  match w with
  | [] => false
  | _ => forallb (fun a => negb (isspace a)) w
  end.

(** A coefficient as [strtok] is to find it: a word without a semicolon. *)
Definition is_token (w : text) : bool :=
  is_word w && forallb (fun a => negb (Ascii.eqb a ";")) w.

(** A number that ["%d"] prints and ["%ld"] reads without loss. *)
Definition int31 (z : Z) : bool := (0 <=? z) && (z <? 2 ^ 31).

Section HeaderText.

Variable drv : Driver.
Variable format_E15 : float -> text.

(** What [CreateDataFileTaskEntry] appends, for the block size [size]. *)
Definition task_text (numChannels sampsToRead size : Z) : text :=
  str "[Task0]\n"
  ++ header_line "Name=" (DAQmxGetTaskName drv)
  ++ header_line "NumberOfChannels=" (decimal (to_long numChannels))
  ++ header_line "ReadBlockSize=" (decimal (to_long sampsToRead))
  ++ header_line "ReadBlockSizeInBytes=" (decimal (to_long size)).

(** What [CreateDataFileChannelEntry] appends for channel [idx]. *)
Definition channel_text (idx : Z) : text :=
  let channelName := DAQmxGetNthTaskChannel drv (idx + 1) in
  let resolution := DAQmxGetAIResolution drv channelName in
  let rawSampSize := DAQmxGetAIRawSampSize drv channelName in
  let i32 := DAQmxGetAIRawDataCompressionType drv channelName in
  str "[Task0Channel" ++ decimal idx ++ str "]\n"
  ++ header_line "Name=" channelName
  ++ header_line "RawSampleResolution=" (decimal (to_uInt32 resolution))
  ++ header_line "RawSampleSizeInBits=" (decimal (to_uInt32 rawSampSize))
  ++ header_line "RawSampleJustification="
       match DAQmxGetAIRawSampJustification drv channelName with
       | DAQmx_Val_LeftJustified => str "Left"
       | DAQmx_Val_RightJustified => str "Right"
       end
  ++ header_line "SignedNumber="
       (if PrimFloat.ltb (DAQmxGetAIMin drv channelName) 0
        then str "TRUE" else str "FALSE")
  ++ header_line "CompressionType="
       match i32 with
       | DAQmx_Val_LosslessPacking => str "LosslessPacking"
       | DAQmx_Val_LossyLSBRemoval => str "LossyLSBRemoval"
       | DAQmx_Val_None => str "None"
       end
  ++ header_line "CompressedSampleSizeInBits="
       (decimal (to_uInt32 (CompressedSize drv channelName rawSampSize)))
  ++ header_line "CompressionByteOrder="
       (if (rawSampSize =? resolution)
           || match i32 with DAQmx_Val_None => true | _ => false end
        then str "LittleEndian" else str "BigEndian")
  ++ header_line "PolynomialScalingCoeffs="
       (flat_map (fun c => format_E15 c ++ str ";")
                 (firstn 1000 (DAQmxGetAIDevScalingCoeff drv channelName))).

(** The entries of the [n] channels from [i] on. *)
Fixpoint channels_text (n : nat) (i : Z) : text :=
  match n with
  | O => []
  | S n' => channel_text i ++ channels_text n' (i + 1)
  end.

(** The header with [field] in the place of the header size. *)
Definition header_text (field : text) (numChannels sampsPerChan size : Z)
  : text :=
  str "[DAQCompressedBinaryFile]\n"
  ++ header_line "Version=" (str "1.0.0")
  ++ header_line "HeaderSize=" field
  ++ header_line "NumberOfTasks=" (str "1")
  ++ task_text numChannels sampsPerChan size
  ++ channels_text (Z.to_nat numChannels) 0
  ++ str "[BinaryData]\n" ++ str "Begin=Here\n".

(** A channel whose entry the parser reads back: a name that is a word,
    numbers that ["%ld"] reads without loss, at least one coefficient, and
    every coefficient printed as a token. *)
Definition channel_is_plain (idx : Z) : bool :=
  let channelName := DAQmxGetNthTaskChannel drv (idx + 1) in
  let rawSampSize := DAQmxGetAIRawSampSize drv channelName in
  let coeffs := firstn 1000 (DAQmxGetAIDevScalingCoeff drv channelName) in
  is_word channelName
  && int31 (DAQmxGetAIResolution drv channelName)
  && int31 rawSampSize
  && int31 (CompressedSize drv channelName rawSampSize)
  && match coeffs with [] => false | _ => true end
  && forallb (fun c => is_token (format_E15 c)) coeffs.

(** The record the decoder is to have of channel [idx]; [read_back] is
    what [sscanf] makes of a coefficient as it was printed. *)
Definition channel_written (read_back : float -> float) (idx : Z)
  : ChannelInfo :=
  let channelName := DAQmxGetNthTaskChannel drv (idx + 1) in
  let resolution := DAQmxGetAIResolution drv channelName in
  let rawSampSize := DAQmxGetAIRawSampSize drv channelName in
  let i32 := DAQmxGetAIRawDataCompressionType drv channelName in
  mkChannelInfo channelName resolution rawSampSize
    (DAQmxGetAIRawSampJustification drv channelName)
    (PrimFloat.ltb (DAQmxGetAIMin drv channelName) 0)
    i32
    (CompressedSize drv channelName rawSampSize)
    (if (rawSampSize =? resolution)
        || match i32 with DAQmx_Val_None => true | _ => false end
     then LittleEndian else BigEndian)
    (map read_back (firstn 1000 (DAQmxGetAIDevScalingCoeff drv channelName))).

Fixpoint channels_written (read_back : float -> float) (n : nat) (i : Z)
  : list ChannelInfo :=
  match n with
  | O => []
  | S n' => channel_written read_back i
            :: channels_written read_back n' (i + 1)
  end.

End HeaderText.

(** A task of one channel of 12 bits in samples of 16, packed without
    loss. *)
Definition packing_driver : Driver :=
  mkDriver (str "_unnamedTask<0>") (fun _ => str "Dev1/ai0") (fun _ => 12)
           (fun _ => 16) (fun _ => DAQmx_Val_RightJustified)
           (fun _ => (-10)%float) (fun _ => DAQmx_Val_LosslessPacking)
           (fun _ => 12) (fun _ => [0%float; 1%float]) 2 false.

(** A call of [DAQmxReadRaw] that leaves [n] samples and the byte [b]
    everywhere, and one that fails. *)
Definition read_ok (n : Z) (b : ascii) : ReadRaw := mkReadRaw 0 n (fun _ => b).
Definition read_failed : ReadRaw := mkReadRaw (-200279) 0 (fun _ => "000"%char).

(** The calls of [DAQmxReadRaw] after which the callback writes. *)
Definition writes (r : ReadRaw) : bool :=
  negb (DAQmxFailed (status r)) && (0 <? read r).

(** An [sscanf] that reads the two coefficients [example_format] prints,
    and what it makes of a coefficient printed by it. *)
Definition example_sscanf (s : text) : option float :=
  if streq s (str "0.000000000000000E+00") then Some 0%float
  else Some 1%float.

Definition example_read_back (x : float) : float :=
  if PrimFloat.eqb x 0 then 0%float else 1%float.

(** The outcome of a loop of the decoder when it starts [d] samples
    later. *)
Definition later_flow {A} (d : Z) (out : flow (Z * A)) : flow (Z * A) :=
  match out with
  | Next (ns, a) => Next (ns + d, a)
  | GotoError (ns, a) => GotoError (ns + d, a)
  end.

(** The characters of a decimal number, and what [decimal_value] does with
    one digit. *)
Definition uint_chars (d : Decimal.uint) : text :=
  list_ascii_of_string (DecimalString.NilEmpty.string_of_uint d).

Definition decimal_step (acc : Z) (d : ascii) : Z :=
  acc * 10 + (byte_of_ascii d - 48).

(** *** Samples as the bytes of their channels *)

(** The bytes of one channel of one sample: as many as the channel is
    wide, one to four of them. *)
Definition channel_bytes (c : ChannelInfo) (bytes : list Z) : bool :=
  (Z.of_nat (List.length bytes) =? rawSampleSizeInBits c / 8)
  && (1 <=? List.length bytes)%nat && (List.length bytes <=? 4)%nat
  && forallb is_byte bytes.

(** One sample: the bytes of every channel, in the order of the chain. *)
Fixpoint sample_of_bytes (chain : list ChannelInfo) (row : list (list Z))
  : bool :=
  match chain, row with
  | [], [] => true
  | c :: chain', bytes :: row' =>
      channel_bytes c bytes && sample_of_bytes chain' row'
  | _, _ => false
  end.

(** What the bytes of a channel are to add up to:
    [sum(byte[i] << (8*i))] in little endian order,
    [value = (value << 8) | byte[i]] in big endian order. *)
Definition accumulated (c : ChannelInfo) (bytes : list Z) : Z :=
  match compressionByteOrder c with
  | LittleEndian => sum_shifted bytes 0
  | BigEndian => big_endian bytes 0
  end.

(** The integer passed to the scaling: the bytes accumulated in a [long],
    after the sign extension of the unpacked path. *)
Definition unpacked_raw (c : ChannelInfo) (bytes : list Z) : Z :=
  let size := rawSampleSizeInBits c in
  ExtendSign c size (shl32 1 (to_uInt32 (size - 1)))
    (to_uInt32 (0xFFFFFFFF - shl32 1 (to_uInt32 (32 - size)) + 1))
    (to_long (accumulated c bytes)).

(** The assignments of one sample, channel by channel from [iChan] on. *)
Fixpoint unpacked_sample (chain : list ChannelInfo) (row : list (list Z))
    (iChan numSamples : Z) : list Cell :=
  match chain, row with
  | c :: chain', bytes :: row' =>
      mkCell iChan numSamples (unpacked_raw c bytes)
             (Scale c (unpacked_raw c bytes))
      :: unpacked_sample chain' row' (iChan + 1) numSamples
  | _, _ => []
  end.

(** The assignments of the samples [rows], from sample [numSamples] on. *)
Fixpoint unpacked_samples (chain : list ChannelInfo)
    (rows : list (list (list Z))) (numSamples : Z) : list Cell :=
  match rows with
  | [] => []
  | row :: rows' =>
      unpacked_sample chain row 0 numSamples
      ++ unpacked_samples chain rows' (numSamples + 1)
  end.

(** A channel of 24 bits, unsigned and big endian. *)
Definition ch24ub : ChannelInfo :=
  mkChannelInfo (str "Dev1/ai1") 24 24 DAQmx_Val_RightJustified false
                DAQmx_Val_None 24 BigEndian [0%float; 1%float].

End Spec.

(** * Properties *)

(** ** Arithmetic of the 32-bit types *)

Module CFacts.
Import C.

Lemma to_uInt32_range z : 0 <= to_uInt32 z < 2 ^ 32.
Proof. unfold to_uInt32. apply Z.mod_pos_bound. lia. Qed.

Lemma to_uInt32_small z : 0 <= z < 2 ^ 32 -> to_uInt32 z = z.
Proof. intros. unfold to_uInt32. apply Z.mod_small. lia. Qed.

Lemma to_uInt32_add_l a b : to_uInt32 (to_uInt32 a + b) = to_uInt32 (a + b).
Proof. unfold to_uInt32. rewrite Zplus_mod_idemp_l. reflexivity. Qed.

Lemma to_long_range z : - 2 ^ 31 <= to_long z < 2 ^ 31.
Proof.
  unfold to_long. pose proof (Z.mod_pos_bound (z + 2 ^ 31) (2 ^ 32)). lia.
Qed.

Lemma to_long_small z : - 2 ^ 31 <= z < 2 ^ 31 -> to_long z = z.
Proof. intros. unfold to_long. rewrite Z.mod_small; lia. Qed.

Lemma to_long_eqm a b : a mod 2 ^ 32 = b mod 2 ^ 32 -> to_long a = to_long b.
Proof.
  intro H. unfold to_long.
  rewrite <- (Zplus_mod_idemp_l a), H, Zplus_mod_idemp_l. reflexivity.
Qed.

Lemma to_long_mod z : to_long z mod 2 ^ 32 = z mod 2 ^ 32.
Proof.
  unfold to_long.
  rewrite Zminus_mod_idemp_l.
  f_equal. lia.
Qed.

Lemma to_uInt32_to_long z : to_uInt32 (to_long z) = to_uInt32 z.
Proof. apply to_long_mod. Qed.

End CFacts.

(** ** The unpacked decoder: bytes taken and samples counted *)

Module UnpackedFacts.
Import C DAQmx Decoder Spec CFacts.

Lemma ReadLittle_rest n : forall iByte val rd,
  snd (ReadLittle n iByte val rd) = skipn n rd.
Proof.
  induction n as [|n IH]; intros iByte val rd.
  - reflexivity.
  - destruct rd as [|b rest]; [reflexivity|]. simpl. apply IH.
Qed.

Lemma ReadBig_rest n : forall val rd,
  snd (ReadBig n val rd) = skipn n rd.
Proof.
  induction n as [|n IH]; intros val rd.
  - reflexivity.
  - destruct rd as [|b rest]; [reflexivity|]. simpl. apply IH.
Qed.

Lemma UnpackedValue_rest chan rd :
  snd (UnpackedValue chan rd)
  = skipn (Z.to_nat (rawSampleSizeInBits chan / 8)) rd.
Proof.
  unfold UnpackedValue.
  destruct (compressionByteOrder chan).
  - pose proof (ReadBig_rest (Z.to_nat (rawSampleSizeInBits chan / 8)) 0 rd) as H.
    destruct (ReadBig _ _ _) as [v r]. exact H.
  - pose proof (ReadLittle_rest (Z.to_nat (rawSampleSizeInBits chan / 8)) 0 0 rd) as H.
    destruct (ReadLittle _ _ _ _) as [v r]. exact H.
Qed.

(** One sample: every channel of the chain is visited and the cursor moves
    over the bytes of the sample that are there. *)
Lemma UnpackedChannels_rest : forall chain iChan ns rd,
  exists cells,
    UnpackedChannels (List.length chain) iChan chain ns rd
    = (cells, Next (skipn (bytes_per_sample chain) rd))
    /\ List.length cells = List.length chain.
Proof.
  induction chain as [|c chain IH]; intros iChan ns rd.
  - exists []. simpl. auto.
  - simpl UnpackedChannels.
    pose proof (UnpackedValue_rest c rd) as Hv.
    destruct (UnpackedValue c rd) as [val rd']. simpl in Hv. subst rd'.
    destruct (IH (to_uInt32 (iChan + 1)) ns
                 (skipn (Z.to_nat (rawSampleSizeInBits c / 8)) rd))
      as [cells [E L]].
    rewrite E. rewrite skipn_skipn.
    replace (bytes_per_sample chain + Z.to_nat (rawSampleSizeInBits c / 8))%nat
      with (bytes_per_sample (c :: chain)) by (simpl; lia).
    eexists. split; [reflexivity|]. simpl. rewrite L. reflexivity.

Qed.

(** [n] samples of a block whose chain is complete: [numSamples] grows by
    [n] and the cursor moves over [n] samples' worth of bytes. *)
Lemma UnpackedSamples_rest info : forall n ns rd,
  numberOfChannels info = Z.of_nat (List.length (channelInfoChain info)) ->
  0 <= ns < 2 ^ 32 ->
  exists cells,
    UnpackedSamples n info ns rd
    = (cells,
       Next (to_uInt32 (ns + Z.of_nat n),
             skipn (n * bytes_per_sample (channelInfoChain info)) rd)).
Proof.
  intros n ns rd Hn. revert ns rd.
  induction n as [|n IH]; intros ns rd Hns.
  - exists []. simpl. rewrite Z.add_0_r, to_uInt32_small by lia. reflexivity.
  - simpl UnpackedSamples. rewrite Hn, Nat2Z.id.
    destruct (UnpackedChannels_rest (channelInfoChain info) 0 ns rd)
      as [cells [E _]].
    rewrite E.
    destruct (IH (to_uInt32 (ns + 1))
                 (skipn (bytes_per_sample (channelInfoChain info)) rd)
                 (to_uInt32_range _)) as [cells' E'].
    rewrite E'. eexists. f_equal. f_equal. f_equal.
    + rewrite to_uInt32_add_l. f_equal. lia.
    + rewrite skipn_skipn. f_equal. lia.
Qed.

Lemma ceil_div_step L b :
  0 < b -> 0 < L ->
  (L + b - 1) / b = 1 + (Z.max 0 (L - b) + b - 1) / b.
Proof.
  intros Hb HL.
  destruct (Z_le_gt_dec L b) as [Hle|Hgt].
  - rewrite Z.max_l by lia.
    replace (0 + b - 1) with (b - 1) by lia.
    rewrite (Z.div_small (b - 1)) by lia.
    replace (L + b - 1) with (L - 1 + 1 * b) by lia.
    rewrite Z.div_add by lia. rewrite Z.div_small; lia.
  - rewrite Z.max_r by lia.
    replace (L + b - 1) with (L - b + b - 1 + 1 * b) by lia.
    rewrite Z.div_add by lia. lia.
Qed.

(** The number of samples the loop over the blocks counts: every block that
    is begun is counted in full. *)
Lemma UnpackedBlocks_count info : forall fuel ns rd,
  numberOfChannels info = Z.of_nat (List.length (channelInfoChain info)) ->
  0 <= readBlockSize info ->
  let bpb := readBlockSize info
             * Z.of_nat (bytes_per_sample (channelInfoChain info)) in
  0 < bpb ->
  0 <= ns < 2 ^ 32 ->
  (List.length rd <= fuel)%nat ->
  exists cells,
    UnpackedBlocks fuel info ns rd
    = Some (cells,
            to_uInt32 (ns + readBlockSize info
                            * ((Z.of_nat (List.length rd) + bpb - 1) / bpb))).
Proof.
  intros fuel ns rd Hn Hrbs bpb Hbpb. revert ns rd.
  induction fuel as [|fuel IH]; intros ns rd Hns Hfuel.
  - destruct rd; [|simpl in Hfuel; lia].
    exists []. simpl. rewrite Z.div_small by lia.
    rewrite Z.mul_0_r, Z.add_0_r, to_uInt32_small by lia. reflexivity.
  - destruct rd as [|b rest].
    + exists []. simpl. rewrite Z.div_small by lia.
      rewrite Z.mul_0_r, Z.add_0_r, to_uInt32_small by lia. reflexivity.
    + set (rd := b :: rest) in *.
      change (UnpackedBlocks (S fuel) info ns rd)
        with (match UnpackedSamples (Z.to_nat (readBlockSize info)) info ns rd with
              | (cells, GotoError (numSamples', _)) => Some (cells, numSamples')
              | (cells, Next (numSamples', rawData')) =>
                  match UnpackedBlocks fuel info numSamples' rawData' with
                  | Some (cells', r) => Some (cells ++ cells', r)
                  | None => None
                  end
              end).
      destruct (UnpackedSamples_rest info (Z.to_nat (readBlockSize info)) ns rd Hn Hns)
        as [cells E].
      rewrite E. rewrite Z2Nat.id by lia.
      set (rd' := skipn _ rd).
      assert (Hlen : Z.of_nat (List.length rd')
                     = Z.max 0 (Z.of_nat (List.length rd) - bpb)).
      { unfold rd'. rewrite length_skipn. unfold bpb. lia. }
      destruct (IH (to_uInt32 (ns + readBlockSize info)) rd'
                   (to_uInt32_range _)) as [cells' E'].
      { subst rd. simpl List.length in *. lia. }
      rewrite E'. eexists. f_equal. f_equal.
      rewrite to_uInt32_add_l. f_equal.
      rewrite Hlen.
      rewrite (ceil_div_step (Z.of_nat (List.length rd)) bpb) by (subst rd; simpl List.length; lia).
      lia.
Qed.

End UnpackedFacts.

(** ** The packed decoder: the bit cursor *)

Module PackedFacts.
Import C DAQmx Decoder Spec CFacts.

Lemma exhausted_split N r j a b :
  0 <= a -> 0 <= b ->
  exhausted N r j (a + b) = exhausted N r j a || exhausted N r (j + a) b.
Proof.
  intros Ha Hb. unfold exhausted.
  destruct (Z.ltb_spec j (8 * N)), (Z.leb_spec (8 * N) (j + (a + b))),
    (Z.ltb_spec N r), (Z.leb_spec (8 * N) (j + a)),
    (Z.ltb_spec (j + a) (8 * N)), (Z.leb_spec (8 * N) (j + a + b));
    simpl; try reflexivity; lia.
Qed.

Lemma skipn_cons_nth {A} (d : A) : forall n l b rest,
  skipn n l = b :: rest -> nth n l d = b /\ skipn (S n) l = rest.
Proof.
  induction n as [|n IH]; intros l b rest H.
  - destruct l; simpl in H; [discriminate|]. inversion H. auto.
  - destruct l; simpl in H; [discriminate|]. simpl. apply IH. exact H.
Qed.

Lemma skipn_nil_length {A} : forall n (l : list A),
  skipn n l = [] -> (List.length l <= n)%nat.
Proof.
  induction n as [|n IH]; intros l H.
  - destruct l; simpl in *; [lia|discriminate].
  - destruct l; simpl in *; [lia|]. apply IH in H. lia.
Qed.

Section Block.

Variable info : DataFileInfo.
Variable buf : list Z.
Let rbsb := readBlockSizeInBytes info.
Let N := Z.of_nat (List.length buf).
Hypothesis Hrbsb : 1 <= rbsb < 2 ^ 32.

Lemma At_start b rest : buf = b :: rest -> At rbsb buf 0 (mkCursor b 0 1 rest).
Proof.
  intro E. unfold At. simpl.
  change (0 / 8 + 1) with 1. rewrite Z.min_l by lia.
  subst buf. simpl. repeat split; try reflexivity; lia.
Qed.

(** One iteration of the bit loop. *)
Lemma ReadBits_step j val cur n :
  0 <= j < 8 * rbsb ->
  At rbsb buf j cur ->
  let val' := to_long (to_long (val * 2) + bit_at buf j) in
  if exhausted N rbsb j 1
  then exists s, ReadBits (S n) info val cur = GotoError s
  else exists cur',
      ReadBits (S n) info val cur = ReadBits n info val' cur'
      /\ At rbsb buf (j + 1) cur'.
Proof.
  intros Hj HAt val'.
  destruct HAt as (Hbc & Hbp & Hch & Hrd & Hle).
  assert (Hq : j / 8 + 1 <= rbsb) by (pose proof (Z.div_lt_upper_bound j 8 rbsb); lia).
  rewrite Z.min_l in Hbc, Hbp, Hch, Hrd, Hle by lia.
  replace (j - 8 * (j / 8 + 1 - 1)) with (j mod 8) in Hbp
    by (pose proof (Z.div_mod j 8); lia).
  replace (j / 8 + 1 - 1) with (j / 8) in Hch by lia.
  pose proof (Z.mod_pos_bound j 8 ltac:(lia)) as Hm.
  pose proof (Z.div_mod j 8 ltac:(lia)) as Hdm.
  assert (Hbit : Z.land (shr32 (ch cur) (8 - bitPos cur - 1)) 1 = bit_at buf j).
  { unfold bit_at, shr32. rewrite Hbp, Hch.
    replace (8 - j mod 8 - 1) with (7 - j mod 8) by lia.
    destruct (Z.leb_spec 0 (7 - j mod 8)); [|lia].
    destruct (Z.ltb_spec (7 - j mod 8) 32); [|lia]. reflexivity. }
  cbn [ReadBits]. rewrite Hbit. fold val'.
  rewrite Hbp. rewrite (to_long_small (j mod 8 + 1)) by lia.
  fold rbsb. rewrite Hbc.
  unfold exhausted.
  destruct (Z.eqb_spec (j mod 8 + 1) 8) as [H8|H8].
  - destruct (Z.ltb_spec (j / 8 + 1) rbsb) as [Hlt|Hge]; cbn [andb].
    + rewrite Hrd.
      destruct (skipn (Z.to_nat (j / 8 + 1)) buf) as [|b rest] eqn:Es.
      * apply skipn_nil_length in Es.
        assert (HN : N = j / 8 + 1) by (unfold N in *; lia).
        destruct (Z.ltb_spec j (8 * N)); [|lia].
        destruct (Z.leb_spec (8 * N) (j + 1)); [|lia].
        destruct (Z.ltb_spec N rbsb); [|lia].
        cbn [andb]. eexists. reflexivity.
      * pose proof (skipn_cons_nth 0 _ _ _ _ Es) as [Hn Hs].
        assert (Hlen : j / 8 + 1 < N).
        { unfold N. assert (Hl := f_equal (@List.length Z) Es).
          rewrite length_skipn in Hl. simpl in Hl. lia. }
        replace ((j <? 8 * N) && (8 * N <=? j + 1) && (N <? rbsb)) with false.
        2:{ destruct (Z.leb_spec (8 * N) (j + 1)); [lia|].
            rewrite andb_false_r. reflexivity. }
        eexists. split; [reflexivity|].
        unfold At. cbn [byteCount bitPos ch rawData].
        assert (Hd : (j + 1) / 8 = j / 8 + 1).
        { pose proof (Z.div_mod j 8). pose proof (Z.div_mod (j + 1) 8).
          pose proof (Z.mod_pos_bound (j + 1) 8). lia. }
        rewrite Hd. rewrite Z.min_l by lia.
        rewrite (to_uInt32_small (j / 8 + 1 + 1)) by lia.
        repeat split.
        -- pose proof (Z.div_mod j 8). lia.
        -- replace (Z.to_nat (j / 8 + 1 + 1 - 1)) with (Z.to_nat (j / 8 + 1)) by lia.
           symmetry. exact Hn.
        -- replace (Z.to_nat (j / 8 + 1 + 1)) with (S (Z.to_nat (j / 8 + 1))) by lia.
           symmetry. exact Hs.
        -- fold N. lia.
    + assert (Hrb : rbsb = j / 8 + 1) by lia.
      replace ((j <? 8 * N) && (8 * N <=? j + 1) && (N <? rbsb)) with false.
      2:{ destruct (Z.ltb_spec N rbsb); [|rewrite andb_false_r; reflexivity].
          fold N in Hle. lia. }
      eexists. split; [reflexivity|].
      unfold At. cbn [byteCount bitPos ch rawData].
      assert (Hd : (j + 1) / 8 = j / 8 + 1).
      { pose proof (Z.div_mod j 8). pose proof (Z.div_mod (j + 1) 8).
        pose proof (Z.mod_pos_bound (j + 1) 8). lia. }
      rewrite Hd. rewrite Z.min_r by lia. rewrite Hrb.
      replace (j / 8 + 1 - 1) with (j / 8) by lia.
      repeat split; try assumption; try (fold N; lia).
  - cbn [andb].
    replace ((j <? 8 * N) && (8 * N <=? j + 1) && (N <? rbsb)) with false.
    2:{ destruct (Z.ltb_spec j (8 * N)); [|reflexivity].
        destruct (Z.leb_spec (8 * N) (j + 1)); [|reflexivity].
        exfalso. assert (j + 1 = 8 * N) by lia.
        pose proof (Z.div_mod j 8). lia. }
    eexists. split; [reflexivity|].
    unfold At. cbn [byteCount bitPos ch rawData].
    assert (Hd : (j + 1) / 8 = j / 8).
    { pose proof (Z.div_mod j 8). pose proof (Z.div_mod (j + 1) 8).
      pose proof (Z.mod_pos_bound (j + 1) 8). lia. }
    rewrite Hd. rewrite Z.min_l by lia.
    replace (j / 8 + 1 - 1) with (j / 8) by lia.
    repeat split; try assumption; try (fold N; lia).
Qed.

(** The bit loop: it fails exactly when it needs a byte behind the last one,
    and otherwise accumulates the field at bit [j]. *)
Lemma ReadBits_spec : forall n j val cur,
  0 <= j -> j + Z.of_nat n <= 8 * rbsb ->
  At rbsb buf j cur ->
  if exhausted N rbsb j (Z.of_nat n)
  then exists s, ReadBits n info val cur = GotoError s
  else exists cur',
      ReadBits n info val cur = Next (field buf n j val, cur')
      /\ At rbsb buf (j + Z.of_nat n) cur'.
Proof.
  induction n as [|n IH]; intros j val cur Hj Hn HAt.
  - replace (exhausted N rbsb j (Z.of_nat 0)) with false.
    2:{ unfold exhausted. simpl Z.of_nat. rewrite Z.add_0_r.
        destruct (Z.ltb_spec j (8 * N)), (Z.leb_spec (8 * N) j);
          simpl; try reflexivity; lia. }
    exists cur. simpl. rewrite Z.add_0_r. auto.
  - replace (Z.of_nat (S n)) with (1 + Z.of_nat n) in * by lia.
    rewrite exhausted_split by lia.
    pose proof (ReadBits_step j val cur n ltac:(lia) HAt) as Hstep.
    cbv zeta in Hstep.
    destruct (exhausted N rbsb j 1).
    + exact Hstep.
    + destruct Hstep as (cur1 & E1 & HAt1). cbn [orb].
      specialize (IH (j + 1) (to_long (to_long (val * 2) + bit_at buf j)) cur1
                     ltac:(lia) ltac:(lia) HAt1).
      destruct (exhausted N rbsb (j + 1) (Z.of_nat n)).
      * destruct IH as [s Es]. exists s. rewrite E1. exact Es.
      * destruct IH as (cur' & E' & HAt'). exists cur'. split.
        -- rewrite E1, E'. reflexivity.
        -- replace (j + (1 + Z.of_nat n)) with (j + 1 + Z.of_nat n) by lia.
           exact HAt'.
Qed.

(** One sample. *)
Lemma PackedChannels_spec : forall chain iChan ns j cur,
  0 <= j -> j + Z.of_nat (bits_per_sample chain) <= 8 * rbsb ->
  At rbsb buf j cur ->
  if exhausted N rbsb j (Z.of_nat (bits_per_sample chain))
  then exists cells cur',
      PackedChannels (List.length chain) info iChan chain ns cur
      = (cells, GotoError cur')
  else exists cur',
      PackedChannels (List.length chain) info iChan chain ns cur
      = (sample_cells buf chain iChan ns j, Next cur')
      /\ At rbsb buf (j + Z.of_nat (bits_per_sample chain)) cur'.
Proof.
  induction chain as [|c chain IH]; intros iChan ns j cur Hj Hn HAt.
  - replace (exhausted N rbsb j (Z.of_nat (bits_per_sample []))) with false.
    2:{ unfold exhausted. simpl. rewrite Z.add_0_r.
        destruct (Z.ltb_spec j (8 * N)), (Z.leb_spec (8 * N) j);
          simpl; try reflexivity; lia. }
    exists cur. simpl. rewrite Z.add_0_r. auto.
  - cbn [bits_per_sample fold_right] in *.
    fold (bits_per_sample chain) in *.
    set (n := Z.to_nat (compressedSampleSizeInBits c)) in *.
    rewrite Nat2Z.inj_add in *.
    rewrite exhausted_split by lia.
    cbn [List.length PackedChannels]. unfold PackedValue. fold n.
    pose proof (ReadBits_spec n j 0 cur Hj ltac:(lia) HAt) as HR.
    destruct (exhausted N rbsb j (Z.of_nat n)).
    + destruct HR as [[v s] Es]. rewrite Es. cbn [orb]. eauto.
    + destruct HR as (cur1 & E1 & HAt1). rewrite E1. cbn [orb].
      specialize (IH (to_uInt32 (iChan + 1)) ns (j + Z.of_nat n) cur1
                     ltac:(lia) ltac:(lia) HAt1).
      destruct (exhausted N rbsb (j + Z.of_nat n) (Z.of_nat (bits_per_sample chain))).
      * destruct IH as (cells & cur' & E'). rewrite E'. eauto.
      * destruct IH as (cur' & E' & HAt'). rewrite E'.
        exists cur'. split.
        -- cbn [sample_cells]. fold n. reflexivity.
        -- rewrite Z.add_assoc. exact HAt'.
Qed.

Hypothesis Hchain :
  numberOfChannels info = Z.of_nat (List.length (channelInfoChain info)).
Let chain := channelInfoChain info.
Let S := Z.of_nat (bits_per_sample chain).

Lemma exhausted_0 j : exhausted N rbsb j 0 = false.
Proof.
  unfold exhausted. rewrite Z.add_0_r.
  destruct (Z.ltb_spec j (8 * N)), (Z.leb_spec (8 * N) j);
    simpl; try reflexivity; lia.
Qed.

(** [n] samples of a block.  When the bytes run out the loop is left with
    the number [k] of the samples that lie wholly before the end of the
    last byte that is there. *)
Lemma PackedSamples_spec : forall n ns j cur,
  0 <= j -> j + Z.of_nat n * S <= 8 * rbsb ->
  At rbsb buf j cur ->
  0 <= ns < 2 ^ 32 ->
  if exhausted N rbsb j (Z.of_nat n * S)
  then exists cells cur' k,
      0 <= k < Z.of_nat n
      /\ j + k * S < 8 * N <= j + (k + 1) * S
      /\ PackedSamples n info ns cur
         = (cells, GotoError (to_uInt32 (ns + k), cur'))
  else exists cur',
      PackedSamples n info ns cur
      = (block_cells buf chain n ns j, Next (to_uInt32 (ns + Z.of_nat n), cur'))
      /\ At rbsb buf (j + Z.of_nat n * S) cur'.
Proof.
  induction n as [|n IH]; intros ns j cur Hj Hn HAt Hns.
  - simpl Z.of_nat. rewrite Z.mul_0_l, exhausted_0.
    exists cur. simpl. rewrite !Z.add_0_r, to_uInt32_small by lia. auto.
  - replace (Z.of_nat (Datatypes.S n) * S) with (S + Z.of_nat n * S) in * by lia.
    assert (HS : 0 <= S) by (unfold S; lia).
    rewrite exhausted_split by lia.
    cbn [PackedSamples]. rewrite Hchain, Nat2Z.id. fold chain.
    pose proof (PackedChannels_spec chain 0 ns j cur Hj ltac:(fold S; lia) HAt) as HC.
    fold S in HC.
    destruct (exhausted N rbsb j S) eqn:Ex.
    + destruct HC as (cells & cur' & E). rewrite E. cbn [orb].
      exists cells, cur', 0.
      replace (to_uInt32 (ns + 0)) with ns
        by (rewrite Z.add_0_r, to_uInt32_small; lia).
      split; [lia|]. split; [|reflexivity].
      unfold exhausted in Ex.
      destruct (Z.ltb_spec j (8 * N)), (Z.leb_spec (8 * N) (j + S));
        simpl in Ex; try discriminate; lia.
    + destruct HC as (cur1 & E1 & HAt1). rewrite E1. cbn [orb].
      specialize (IH (to_uInt32 (ns + 1)) (j + S) cur1 ltac:(lia) ltac:(lia)
                     HAt1 (to_uInt32_range _)).
      destruct (exhausted N rbsb (j + S) (Z.of_nat n * S)).
      * destruct IH as (cells & cur' & k & Hk & Hb & E'). rewrite E'.
        exists (sample_cells buf chain 0 ns j ++ cells), cur', (k + 1).
        split; [lia|]. split.
        { replace ((k + 1 + 1) * S) with (S + (k + 1) * S) by ring.
          replace ((k + 1) * S) with (S + k * S) in * by ring.
          clear - Hb. clearbody S N. lia. }
        rewrite to_uInt32_add_l.
        replace (ns + (k + 1)) with (ns + 1 + k) by lia. reflexivity.
      * destruct IH as (cur' & E' & HAt'). rewrite E'.
        exists cur'. split.
        -- cbn [block_cells]. fold S. rewrite to_uInt32_add_l.
           replace (ns + 1 + Z.of_nat n) with (ns + Z.of_nat (Datatypes.S n)) by lia.
           reflexivity.
        -- rewrite Z.add_assoc. exact HAt'.
Qed.

End Block.

End PackedFacts.

(** ** Packed bits *)

Module PackFacts.
Import C DAQmx Decoder Spec CFacts.

Lemma bits_to_Z_app bs1 : forall bs2 acc,
  bits_to_Z (bs1 ++ bs2) acc = bits_to_Z bs2 (bits_to_Z bs1 acc).
Proof. intros. unfold bits_to_Z. apply fold_left_app. Qed.

Lemma bits_to_Z_acc bs : forall acc,
  bits_to_Z bs acc = acc * 2 ^ Z.of_nat (List.length bs) + bits_to_Z bs 0.
Proof.
  induction bs as [|b bs IH]; intro acc.
  - simpl. lia.
  - cbn [bits_to_Z fold_left]. fold (bits_to_Z bs (2 * acc + Z.b2z b)).
    fold (bits_to_Z bs (2 * 0 + Z.b2z b)).
    rewrite (IH (2 * acc + Z.b2z b)), (IH (2 * 0 + Z.b2z b)).
    cbn [List.length]. rewrite Nat2Z.inj_succ, Z.pow_succ_r by lia. ring.
Qed.

Lemma bits_to_Z_range bs : 0 <= bits_to_Z bs 0 < 2 ^ Z.of_nat (List.length bs).
Proof.
  induction bs as [|b bs IH] using rev_ind.
  - simpl. lia.
  - rewrite bits_to_Z_app. cbn [bits_to_Z fold_left].
    rewrite length_app. cbn [List.length].
    rewrite Nat2Z.inj_add, Z.pow_add_r by lia.
    change (2 ^ Z.of_nat 1) with 2.
    fold (bits_to_Z bs 0). destruct b; simpl Z.b2z; lia.
Qed.

Lemma bits_msb_length w v : List.length (bits_msb w v) = w.
Proof. induction w; simpl; congruence. Qed.

(** Reading the bits back gives the value modulo the width. *)
Lemma bits_to_Z_msb w v : bits_to_Z (bits_msb w v) 0 = v mod 2 ^ Z.of_nat w.
Proof.
  induction w as [|w IH].
  - simpl. rewrite Z.mod_1_r. reflexivity.
  - cbn [bits_msb bits_to_Z fold_left].
    fold (bits_to_Z (bits_msb w v) (2 * 0 + Z.b2z (Z.testbit v (Z.of_nat w)))).
    rewrite bits_to_Z_acc, IH, bits_msb_length.
    rewrite Nat2Z.inj_succ, Z.pow_succ_r by lia.
    rewrite (Z.mul_comm 2 (2 ^ Z.of_nat w)).
    rewrite Z.rem_mul_r by lia.
    rewrite Z.testbit_spec' by lia. lia.
Qed.

Lemma bit_at_head B rest k :
  (k < 8)%nat ->
  bit_at (B :: rest) (Z.of_nat k) = Z.land (Z.shiftr B (7 - Z.of_nat k)) 1.
Proof.
  intro Hk. unfold bit_at.
  rewrite Z.div_small, Z.mod_small by lia. reflexivity.
Qed.

Lemma bit_at_tail B rest k :
  (8 <= k)%nat ->
  bit_at (B :: rest) (Z.of_nat k) = bit_at rest (Z.of_nat (k - 8)).
Proof.
  intro Hk. unfold bit_at.
  replace (Z.of_nat k) with (Z.of_nat (k - 8) + 1 * 8) by lia.
  rewrite Z.div_add, Z.mod_add by lia.
  pose proof (Z.div_pos (Z.of_nat (k - 8)) 8 ltac:(lia) ltac:(lia)).
  replace (Z.to_nat (Z.of_nat (k - 8) / 8 + 1))
    with (S (Z.to_nat (Z.of_nat (k - 8) / 8))) by lia.
  reflexivity.
Qed.

(** Bit [k] of a byte assembled from eight bits is the [k]-th of them. *)
Lemma byte_of_bits_bit : forall l k,
  List.length l = 8%nat -> (k < 8)%nat ->
  Z.land (Z.shiftr (byte_of_bits l) (7 - Z.of_nat k)) 1
  = Z.b2z (nth k l false).
Proof.
  intros l k Hl Hk.
  do 8 (destruct l as [|? l]; [discriminate|]).
  destruct l; [|discriminate].
  do 8 (destruct k as [|k]; [repeat match goal with b : bool |- _ => destruct b end; reflexivity|]).
  lia.
Qed.

(** The packed bytes hold the bits in order. *)
Lemma pack_bits_bit : forall bits cur k,
  (List.length cur < 8)%nat ->
  (k < List.length cur + List.length bits)%nat ->
  bit_at (pack_bits bits cur) (Z.of_nat k) = Z.b2z (nth k (cur ++ bits) false).
Proof.
  induction bits as [|b bits IH]; intros cur k Hc Hk.
  - cbn [List.length] in Hk. rewrite app_nil_r.
    destruct cur as [|c0 cur']; [simpl in Hk; lia|].
    cbn [pack_bits]. set (cur := c0 :: cur') in *.
    rewrite bit_at_head by lia.
    rewrite byte_of_bits_bit.
    + rewrite app_nth1 by lia. reflexivity.
    + rewrite length_app, repeat_length. lia.
    + lia.
  - cbn [pack_bits].
    destruct (Nat.eqb_spec (List.length cur) 7) as [E7|N7].
    + destruct (Nat.lt_ge_cases k 8) as [Hlt|Hge].
      * rewrite bit_at_head by lia.
        rewrite byte_of_bits_bit by (rewrite ?length_app; simpl; lia).
        f_equal.
        destruct (Nat.lt_ge_cases k 7).
        -- rewrite !app_nth1 by lia. reflexivity.
        -- replace k with (List.length cur) by lia.
           rewrite !nth_middle. reflexivity.
      * rewrite bit_at_tail by lia.
        rewrite (IH [] (k - 8)%nat) by (simpl in *; lia).
        f_equal. simpl app.
        rewrite app_nth2 by lia.
        replace (k - List.length cur)%nat with (S (k - 8)) by lia.
        reflexivity.
    + rewrite (IH (cur ++ [b]) k).
      * rewrite <- app_assoc. reflexivity.
      * rewrite length_app. simpl. lia.
      * rewrite length_app. simpl in *. lia.
Qed.

Lemma pack_bits_length : forall bits cur,
  (List.length cur < 8)%nat ->
  Z.of_nat (List.length (pack_bits bits cur))
  = (Z.of_nat (List.length cur + List.length bits) + 7) / 8.
Proof.
  induction bits as [|b bits IH]; intros cur Hc.
  - cbn [pack_bits List.length]. rewrite Nat.add_0_r.
    destruct cur as [|c0 cur'].
    + reflexivity.
    + set (cur := c0 :: cur') in *. cbn [List.length].
      assert (0 < Z.of_nat (List.length cur)) by (subst cur; simpl; lia).
      change (Z.of_nat 1) with 1.
      apply Z.div_unique with (r := Z.of_nat (List.length cur) - 1); lia.
  - cbn [pack_bits].
    destruct (Nat.eqb_spec (List.length cur) 7) as [E7|N7].
    + cbn [List.length]. rewrite Nat2Z.inj_succ, (IH []) by (simpl; lia).
      rewrite E7. cbn [List.length].
      replace (Z.of_nat (7 + S (List.length bits)) + 7)
        with (Z.of_nat (0 + List.length bits) + 7 + 1 * 8) by lia.
      rewrite Z.div_add by lia. lia.
    + rewrite (IH (cur ++ [b])) by (rewrite length_app; simpl; lia).
      rewrite length_app. cbn [List.length]. f_equal. lia.
Qed.

(** A field of the buffer that lies within the first [n] bits a list of
    bits was packed into. *)
Lemma to_long_decomp z : exists q, to_long z = z + q * 2 ^ 32.
Proof.
  exists (- ((z + 2 ^ 31) / 2 ^ 32)). unfold to_long.
  pose proof (Z.div_mod (z + 2 ^ 31) (2 ^ 32) ltac:(lia)). lia.
Qed.

Lemma field_bits buf : forall n j val bs,
  List.length bs = n ->
  (forall i, (i < n)%nat ->
             bit_at buf (j + Z.of_nat i) = Z.b2z (nth i bs false)) ->
  to_long (field buf n j val) = to_long (bits_to_Z bs val).
Proof.
  induction n as [|n IH]; intros j val bs Hl Hb.
  - destruct bs; [|discriminate]. reflexivity.
  - destruct bs as [|b bs]; [discriminate|].
    cbn [field bits_to_Z fold_left]. fold (bits_to_Z bs (2 * val + Z.b2z b)).
    rewrite (IH (j + 1) _ bs).
    + apply to_long_eqm.
      rewrite (bits_to_Z_acc bs (to_long _)), (bits_to_Z_acc bs (2 * val + _)).
      specialize (Hb O ltac:(lia)). simpl in Hb. rewrite Z.add_0_r in Hb.
      rewrite Hb.
      destruct (to_long_decomp (val * 2)) as [q1 E1]. rewrite E1.
      destruct (to_long_decomp (val * 2 + q1 * 2 ^ 32 + Z.b2z b)) as [q2 E2].
      rewrite E2.
      set (P := 2 ^ Z.of_nat (List.length bs)).
      replace ((val * 2 + q1 * 2 ^ 32 + Z.b2z b + q2 * 2 ^ 32) * P
               + bits_to_Z bs 0)
        with ((2 * val + Z.b2z b) * P + bits_to_Z bs 0
              + ((q1 + q2) * P) * 2 ^ 32) by ring.
      apply Z.mod_add. lia.
    + simpl in Hl. lia.
    + intros i Hi. specialize (Hb (S i) ltac:(lia)).
      replace (j + 1 + Z.of_nat i) with (j + Z.of_nat (S i)) by lia.
      exact Hb.
Qed.

Lemma field_in_range buf : forall n j val,
  - 2 ^ 31 <= val < 2 ^ 31 -> - 2 ^ 31 <= field buf n j val < 2 ^ 31.
Proof.
  induction n as [|n IH]; intros j val H; cbn [field]; [exact H|].
  apply IH. apply to_long_range.
Qed.

End PackFacts.

(** ** Blocks and streams of blocks *)

Module BlockFacts.
Import C DAQmx Decoder Spec CFacts PackedFacts PackFacts.

Lemma holds_app buf j a b :
  holds buf j (a ++ b) ->
  holds buf j a /\ holds buf (j + Z.of_nat (List.length a)) b.
Proof.
  intro H. split; intros i Hi.
  - rewrite (H i) by (rewrite length_app; lia).
    rewrite app_nth1 by lia. reflexivity.
  - replace (j + Z.of_nat (List.length a) + Z.of_nat i)
      with (j + Z.of_nat (List.length a + i)) by lia.
    rewrite (H (List.length a + i)%nat) by (rewrite length_app; lia).
    rewrite app_nth2 by lia. f_equal. f_equal. lia.
Qed.

Lemma sample_bits_length : forall chain row,
  List.length row = List.length chain ->
  List.length (sample_bits chain row) = bits_per_sample chain.
Proof.
  induction chain as [|c chain IH]; intros row H.
  - destruct row; reflexivity.
  - destruct row as [|v row]; [discriminate|].
    cbn [sample_bits bits_per_sample fold_right].
    rewrite length_app, bits_msb_length. f_equal. apply IH.
    simpl in H. lia.
Qed.

Lemma field_stored buf j c v :
  holds buf j (bits_msb (Z.to_nat (compressedSampleSizeInBits c)) v) ->
  Reconstruct c (field buf (Z.to_nat (compressedSampleSizeInBits c)) j 0)
  = stored c v.
Proof.
  intro H. unfold stored. f_equal.
  rewrite <- (to_long_small (field _ _ _ _))
    by (apply field_in_range; lia).
  rewrite (field_bits buf _ j 0 (bits_msb (Z.to_nat (compressedSampleSizeInBits c)) v)).
  - rewrite bits_to_Z_msb. reflexivity.
  - apply bits_msb_length.
  - intros i Hi. apply H. rewrite bits_msb_length. exact Hi.
Qed.

Lemma sample_cells_expect buf : forall chain row iChan ns j,
  List.length row = List.length chain ->
  holds buf j (sample_bits chain row) ->
  sample_cells buf chain iChan ns j = expect_sample chain row iChan ns.
Proof.
  induction chain as [|c chain IH]; intros row iChan ns j Hl H.
  - destruct row; reflexivity.
  - destruct row as [|v row]; [discriminate|].
    cbn [sample_bits] in H. apply holds_app in H. destruct H as [H1 H2].
    rewrite bits_msb_length in H2.
    cbn [sample_cells expect_sample].
    rewrite (field_stored buf j c v H1).
    f_equal. apply IH; [simpl in Hl; lia|exact H2].
Qed.

Lemma block_cells_expect buf chain : forall rows ns j,
  Forall (fun row => List.length row = List.length chain) rows ->
  holds buf j (flat_map (sample_bits chain) rows) ->
  block_cells buf chain (List.length rows) ns j = expect_rows chain rows ns.
Proof.
  induction rows as [|row rows IH]; intros ns j Hf H.
  - reflexivity.
  - inversion Hf as [|? ? Hrow Hrows]; subst.
    cbn [flat_map] in H. apply holds_app in H. destruct H as [H1 H2].
    rewrite sample_bits_length in H2 by exact Hrow.
    cbn [List.length block_cells expect_rows].
    rewrite (sample_cells_expect buf chain row 0 ns j Hrow H1).
    f_equal. apply IH; assumption.
Qed.

Lemma flat_map_sample_bits_length chain : forall rows,
  Forall (fun row => List.length row = List.length chain) rows ->
  List.length (flat_map (sample_bits chain) rows)
  = (List.length rows * bits_per_sample chain)%nat.
Proof.
  induction 1 as [|row rows Hrow _ IH]; [reflexivity|].
  cbn [flat_map List.length]. rewrite length_app, IH, sample_bits_length by exact Hrow.
  lia.
Qed.

Lemma bit_at_app buf rest j :
  0 <= j < 8 * Z.of_nat (List.length buf) ->
  bit_at (buf ++ rest) j = bit_at buf j.
Proof.
  intro H. unfold bit_at. f_equal. f_equal.
  assert (0 <= j / 8 < Z.of_nat (List.length buf)).
  { split; [apply Z.div_pos; lia|apply Z.div_lt_upper_bound; lia]. }
  rewrite app_nth1 by lia. reflexivity.
Qed.

(** A packed block followed by anything holds the bits of its samples. *)
Lemma pack_block_holds chain rows rest :
  holds (pack_block chain rows ++ rest) 0 (flat_map (sample_bits chain) rows).
Proof.
  intros i Hi. rewrite Z.add_0_l.
  set (bits := flat_map (sample_bits chain) rows) in *.
  pose proof (pack_bits_length bits [] ltac:(simpl; lia)) as Hlen.
  cbn [List.length] in Hlen.
  rewrite bit_at_app.
  - unfold pack_block. fold bits.
    rewrite (pack_bits_bit bits [] i) by (simpl; lia). reflexivity.
  - unfold pack_block. fold bits. rewrite Hlen.
    pose proof (Z.div_mod (Z.of_nat (0 + List.length bits) + 7) 8 ltac:(lia)).
    pose proof (Z.mod_pos_bound (Z.of_nat (0 + List.length bits) + 7) 8 ltac:(lia)).
    lia.
Qed.

Section Stream.

Variable info : DataFileInfo.
Let rbs := readBlockSize info.
Let rbsb := readBlockSizeInBytes info.
Let chain := channelInfoChain info.
Let S := Z.of_nat (bits_per_sample chain).

Hypothesis Hchain : numberOfChannels info = Z.of_nat (List.length chain).
Hypothesis Hrbs : 0 <= rbs.
Hypothesis Hrbsb : 1 <= rbsb < 2 ^ 32.
(** The block size of the header is the size of a packed block. *)
Hypothesis Htight : rbsb = (rbs * S + 7) / 8.

Lemma block_bits_bounds : 8 * (rbsb - 1) < rbs * S <= 8 * rbsb.
Proof.
  pose proof (Z.div_mod (rbs * S + 7) 8 ltac:(lia)).
  pose proof (Z.mod_pos_bound (rbs * S + 7) 8 ltac:(lia)).
  rewrite <- Htight in *. lia.
Qed.

Lemma S_pos : 0 < S.
Proof.
  pose proof block_bits_bounds.
  assert (0 <= S) by (unfold S; lia).
  destruct (Z.eq_dec S 0) as [E|]; [|lia].
  rewrite E, Z.mul_0_r in *. lia.
Qed.

(** A block all of whose bytes are there. *)
Lemma PackedSamples_full b rest ns :
  rbsb <= Z.of_nat (List.length (b :: rest)) ->
  0 <= ns < 2 ^ 32 ->
  exists c p k,
    PackedSamples (Z.to_nat rbs) info ns (mkCursor b 0 1 rest)
    = (block_cells (b :: rest) chain (Z.to_nat rbs) ns 0,
       Next (to_uInt32 (ns + rbs),
             mkCursor c p k (skipn (Z.to_nat rbsb) (b :: rest)))).
Proof.
  intros HN Hns.
  pose proof block_bits_bounds as Hb.
  pose proof (PackedSamples_spec info (b :: rest) Hrbsb Hchain
                (Z.to_nat rbs) ns 0 (mkCursor b 0 1 rest) ltac:(lia)) as H.
  fold chain S rbsb in H. rewrite Z2Nat.id in H by lia.
  specialize (H ltac:(lia) (At_start info (b :: rest) Hrbsb b rest eq_refl) Hns).
  replace (exhausted (Z.of_nat (List.length (b :: rest))) rbsb 0 (rbs * S))
    with false in H.
  2:{ unfold exhausted. destruct (Z.ltb_spec (Z.of_nat (List.length (b :: rest))) rbsb);
        [lia|]. rewrite andb_false_r. reflexivity. }
  destruct H as (cur' & E & HAt).
  destruct HAt as (Hbc & _ & _ & Hrd & _).
  rewrite Z.add_0_l in *.
  assert (Hmin : Z.min (rbs * S / 8 + 1) rbsb = rbsb).
  { apply Z.min_r.
    pose proof (Z.div_mod (rbs * S) 8 ltac:(lia)).
    pose proof (Z.mod_pos_bound (rbs * S) 8 ltac:(lia)). lia. }
  rewrite Hmin in Hrd.
  destruct cur' as [c p k rd]. cbn [rawData] in Hrd. subst rd.
  exists c, p, k. exact E.
Qed.

(** A block that is cut short. *)
Lemma PackedSamples_short b rest ns :
  Z.of_nat (List.length (b :: rest)) < rbsb ->
  0 <= ns < 2 ^ 32 ->
  exists cells cur',
    PackedSamples (Z.to_nat rbs) info ns (mkCursor b 0 1 rest)
    = (cells,
       GotoError
         (to_uInt32 (ns + (8 * Z.of_nat (List.length (b :: rest)) - 1) / S),
          cur')).
Proof.
  intros HN Hns.
  pose proof block_bits_bounds as Hb. pose proof S_pos as HS.
  pose proof (PackedSamples_spec info (b :: rest) Hrbsb Hchain
                (Z.to_nat rbs) ns 0 (mkCursor b 0 1 rest) ltac:(lia)) as H.
  fold chain S rbsb in H. rewrite Z2Nat.id in H by lia.
  specialize (H ltac:(lia) (At_start info (b :: rest) Hrbsb b rest eq_refl) Hns).
  set (N := Z.of_nat (List.length (b :: rest))) in *.
  assert (HN1 : 1 <= N) by (unfold N; simpl List.length; lia).
  replace (exhausted N rbsb 0 (rbs * S)) with true in H.
  2:{ unfold exhausted.
      destruct (Z.ltb_spec 0 (8 * N)); [|lia].
      destruct (Z.leb_spec (8 * N) (0 + rbs * S)); [|lia].
      destruct (Z.ltb_spec N rbsb); [|lia]. reflexivity. }
  destruct H as (cells & cur' & k & Hk & Hbnd & E).
  exists cells, cur'. rewrite E.
  rewrite !Z.add_0_l in Hbnd.
  assert (Ek : k = (8 * N - 1) / S).
  { apply Z.div_unique with (r := 8 * N - 1 - k * S).
    - left. clear - Hbnd HS. clearbody S N. lia.
    - clear - Hbnd HS. clearbody S N. lia. }
  rewrite <- Ek. reflexivity.
Qed.

Lemma packed_count_nil : packed_count rbs rbsb S 0 = 0.
Proof. unfold packed_count. rewrite Z.div_0_l, Z.mod_0_l by lia. reflexivity. Qed.

Lemma packed_count_full N :
  rbsb <= N ->
  packed_count rbs rbsb S N = rbs + packed_count rbs rbsb S (N - rbsb).
Proof.
  intro H. unfold packed_count.
  assert (Hd : N / rbsb = (N - rbsb) / rbsb + 1).
  { rewrite <- Z.div_add by lia. f_equal. lia. }
  assert (Hm : N mod rbsb = (N - rbsb) mod rbsb).
  { rewrite <- (Z.mod_add (N - rbsb) 1 rbsb) by lia. f_equal. lia. }
  rewrite Hd, Hm. ring.
Qed.

Lemma packed_count_short N :
  0 < N < rbsb ->
  packed_count rbs rbsb S N = (8 * N - 1) / S.
Proof.
  intro H. unfold packed_count.
  rewrite Z.div_small, Z.mod_small by lia.
  destruct (Z.eqb_spec N 0); lia.
Qed.

(** The samples the packed decoder counts, on any buffer. *)
Lemma PackedBlocks_count : forall fuel ns buf,
  (List.length buf <= fuel)%nat ->
  0 <= ns < 2 ^ 32 ->
  exists cells,
    PackedBlocks fuel info ns buf
    = Some (cells,
            to_uInt32 (ns + packed_count rbs rbsb S (Z.of_nat (List.length buf)))).
Proof.
  induction fuel as [|fuel IH]; intros ns buf Hfuel Hns.
  - destruct buf; [|simpl in Hfuel; lia].
    exists []. simpl List.length. simpl Z.of_nat.
    rewrite packed_count_nil, Z.add_0_r, to_uInt32_small by lia. reflexivity.
  - destruct buf as [|b rest].
    + exists []. simpl List.length. simpl Z.of_nat.
      rewrite packed_count_nil, Z.add_0_r, to_uInt32_small by lia. reflexivity.
    + cbn [PackedBlocks]. fold rbs.
      destruct (Z_lt_ge_dec (Z.of_nat (List.length (b :: rest))) rbsb) as [Hlt|Hge].
      * destruct (PackedSamples_short b rest ns Hlt Hns) as (cells & cur' & E).
        rewrite E. rewrite packed_count_short by (simpl List.length in *; lia).
        eauto.
      * destruct (PackedSamples_full b rest ns ltac:(lia) Hns) as (c & p & k & E).
        rewrite E.
        destruct (IH (to_uInt32 (ns + rbs)) (skipn (Z.to_nat rbsb) (b :: rest)))
          as (cells' & E').
        { rewrite length_skipn. simpl List.length in *. lia. }
        { apply to_uInt32_range. }
        rewrite E'. eexists. f_equal. f_equal.
        rewrite to_uInt32_add_l. f_equal.
        rewrite length_skipn.
        rewrite (packed_count_full (Z.of_nat (List.length (b :: rest)))) by lia.
        replace (Z.of_nat (List.length (b :: rest) - Z.to_nat rbsb))
          with (Z.of_nat (List.length (b :: rest)) - rbsb) by lia.
        lia.
Qed.

(** A buffer made of whole packed blocks: the decoder stores exactly what
    was packed, sample by sample. *)
Lemma PackedBlocks_blocks : forall blocks fuel ns,
  Forall (well_formed_block chain (Z.to_nat rbs)) blocks ->
  (List.length (flat_map (pack_block chain) blocks) <= fuel)%nat ->
  0 <= ns < 2 ^ 32 ->
  PackedBlocks fuel info ns (flat_map (pack_block chain) blocks)
  = Some (expect_blocks chain blocks ns,
          to_uInt32 (ns + Z.of_nat (List.length blocks) * rbs)).
Proof.
  induction blocks as [|rows blocks IH]; intros fuel ns Hwf Hfuel Hns.
  - simpl. rewrite Z.add_0_r, to_uInt32_small by lia.
    destruct fuel; reflexivity.
  - inversion Hwf as [|? ? [Hr Hrows] Hwf']; subst.
    cbn [flat_map] in *.
    assert (Hlen : Z.of_nat (List.length (pack_block chain rows)) = rbsb).
    { unfold pack_block. rewrite pack_bits_length by (simpl; lia).
      cbn [List.length]. rewrite Nat.add_0_l.
      rewrite flat_map_sample_bits_length by exact Hrows.
      rewrite Hr, Htight. f_equal. f_equal. unfold S. lia. }
    pose proof (pack_block_holds chain rows (flat_map (pack_block chain) blocks)) as Hh.
    set (blk := pack_block chain rows) in *.
    set (tl := flat_map (pack_block chain) blocks) in *.
    destruct (blk ++ tl) as [|b rest] eqn:Ebuf.
    { apply (f_equal (@List.length Z)) in Ebuf. rewrite length_app in Ebuf.
      simpl in Ebuf. lia. }
    destruct fuel as [|fuel]; [simpl in Hfuel; lia|].
    cbn [PackedBlocks]. fold rbs.
    assert (HN : rbsb <= Z.of_nat (List.length (b :: rest))).
    { rewrite <- Ebuf, length_app. lia. }
    destruct (PackedSamples_full b rest ns HN Hns) as (c & p & k & E).
    rewrite E.
    replace (block_cells (b :: rest) chain (Z.to_nat rbs) ns 0)
      with (expect_rows chain rows ns)
      by (rewrite <- Hr; symmetry; apply block_cells_expect; assumption).
    replace (skipn (Z.to_nat rbsb) (b :: rest)) with tl.
    2:{ rewrite <- Ebuf. rewrite skipn_app.
        replace (Z.to_nat rbsb) with (List.length blk) by lia.
        rewrite skipn_all, Nat.sub_diag. reflexivity. }
    rewrite (IH fuel (to_uInt32 (ns + rbs)) Hwf').
    + cbn [expect_blocks List.length]. rewrite Hr, Z2Nat.id by lia.
      rewrite to_uInt32_add_l. do 3 f_equal. lia.
    + apply (f_equal (@List.length Z)) in Ebuf. rewrite length_app in Ebuf.
      simpl List.length in *. lia.
    + apply to_uInt32_range.
Qed.

End Stream.

End BlockFacts.

(** ** Sign extension *)

Module SignFacts.
Import C DAQmx Decoder Spec CFacts.

Lemma testbit_top k y :
  0 <= k -> 0 <= y < 2 ^ (k + 1) -> Z.testbit y k = (2 ^ k <=? y).
Proof.
  intros Hk Hy. rewrite Z.pow_add_r in Hy by lia. change (2 ^ 1) with 2 in Hy.
  assert (Hp : 0 < 2 ^ k) by (apply Z.pow_pos_nonneg; lia).
  destruct (Z.leb_spec (2 ^ k) y) as [H|H].
  - apply Z.testbit_true; [lia|].
    replace (y / 2 ^ k) with 1; [reflexivity|].
    apply Z.div_unique with (r := y - 2 ^ k); lia.
  - apply Z.testbit_false; [lia|].
    rewrite Z.div_small by lia. reflexivity.
Qed.

Lemma land_pow2 k y :
  0 <= k -> Z.land y (2 ^ k) = if Z.testbit y k then 2 ^ k else 0.
Proof.
  intro Hk. apply Z.bits_inj'. intros i Hi.
  rewrite Z.land_spec, Z.pow2_bits_eqb by lia.
  destruct (Z.eqb_spec k i) as [E|E].
  - subst i. rewrite andb_true_r.
    destruct (Z.testbit y k) eqn:T.
    + rewrite Z.pow2_bits_true by lia. reflexivity.
    + rewrite Z.testbit_0_l. reflexivity.
  - rewrite andb_false_r.
    destruct (Z.testbit y k).
    + rewrite Z.pow2_bits_false by lia. reflexivity.
    + rewrite Z.testbit_0_l. reflexivity.
Qed.

Lemma lor_high_mask w y :
  0 <= w <= 32 -> 0 <= y < 2 ^ w ->
  Z.lor y (2 ^ 32 - 2 ^ w) = y + 2 ^ 32 - 2 ^ w.
Proof.
  intros Hw Hy.
  assert (Hl : Z.land y (2 ^ 32 - 2 ^ w) = 0).
  { apply Z.bits_inj'. intros i Hi.
    rewrite Z.land_spec, Z.testbit_0_l.
    destruct (Z_lt_ge_dec i w) as [Hlt|Hge].
    - replace (2 ^ 32 - 2 ^ w) with ((2 ^ (32 - w) - 1) * 2 ^ w).
      + rewrite Z.mul_pow2_bits_low by lia. apply andb_false_r.
      + rewrite Z.mul_sub_distr_r, <- Z.pow_add_r by lia.
        replace (32 - w + w) with 32 by lia. lia.
    - rewrite <- (Z.mod_small y (2 ^ w)) by lia.
      rewrite Z.mod_pow2_bits_high by lia. reflexivity. }
  pose proof (Z.add_lor_land y (2 ^ 32 - 2 ^ w)) as H.
  rewrite Hl in H. lia.
Qed.

(** Sign extension with the mask that starts at the width: the value read
    as a two's complement number of [w] bits. *)
Lemma ExtendSign_at_width chan w y :
  1 <= w <= 32 -> 0 <= y < 2 ^ w ->
  ExtendSign chan w (2 ^ (w - 1)) (to_uInt32 (2 ^ 32 - 2 ^ w)) (to_long y)
  = if signedNumber chan && (w <? 32) && Z.testbit y (w - 1)
    then y - 2 ^ w else to_long y.
Proof.
  intros Hw Hy. unfold ExtendSign.
  assert (Hpw : 2 ^ w <= 2 ^ 32) by (apply Z.pow_le_mono_r; lia).
  assert (Hp1 : 0 < 2 ^ w) by (apply Z.pow_pos_nonneg; lia).
  rewrite to_uInt32_to_long, (to_uInt32_small y) by lia.
  rewrite land_pow2 by lia.
  destruct (signedNumber chan); cbn [andb]; [|reflexivity].
  destruct (Z.ltb_spec w 32) as [Hlt|Hge]; cbn [andb]; [|reflexivity].
  assert (Hpk : 0 < 2 ^ (w - 1)) by (apply Z.pow_pos_nonneg; lia).
  destruct (Z.testbit y (w - 1)) eqn:T.
  - destruct (Z.eqb_spec (2 ^ (w - 1)) 0); [lia|]. cbn [negb].
    rewrite (to_uInt32_small (2 ^ 32 - 2 ^ w)) by lia.
    rewrite lor_high_mask by lia.
    rewrite testbit_top in T by (try replace (w - 1 + 1) with w by lia; lia).
    apply Z.leb_le in T.
    assert (2 * 2 ^ (w - 1) = 2 ^ w).
    { rewrite <- Z.pow_succ_r by lia. f_equal. lia. }
    assert (2 ^ w <= 2 ^ 31) by (apply Z.pow_le_mono_r; lia).
    unfold to_long.
    replace (y + 2 ^ 32 - 2 ^ w + 2 ^ 31)
      with (y - 2 ^ w + 2 ^ 31 + 1 * 2 ^ 32) by lia.
    rewrite Z.mod_add by lia. rewrite Z.mod_small; lia.
  - reflexivity.
Qed.

(** The step after the bit loop. *)
Lemma Reconstruct_spec chan v :
  let size := compressedSampleSizeInBits chan in
  let raw := RawWidth chan in
  1 <= size -> size <= raw -> raw <= 32 -> 0 <= v < 2 ^ size ->
  Reconstruct chan v
  = if signedNumber chan && (raw <? 32)
       && Z.testbit (v * 2 ^ (raw - size)) (raw - 1)
    then v * 2 ^ (raw - size) - 2 ^ raw
    else to_long (v * 2 ^ (raw - size)).
Proof.
  intros size raw H1 H2 H3 Hv. unfold Reconstruct. fold size raw.
  rewrite (to_uInt32_small (raw - size)) by lia.
  replace (size + (raw - size)) with raw by lia.
  rewrite (to_uInt32_small raw) by lia.
  rewrite (to_uInt32_small (raw - 1)) by lia.
  assert (Hsm : shl32 1 (raw - 1) = 2 ^ (raw - 1)).
  { unfold shl32. destruct (Z.leb_spec 0 (raw - 1)); [|lia].
    destruct (Z.ltb_spec (raw - 1) 32); [|lia]. cbn [andb].
    rewrite Z.mul_1_l. apply to_uInt32_small.
    split; [apply Z.pow_nonneg; lia|apply Z.pow_lt_mono_r; lia]. }
  rewrite Hsm.
  assert (Hshl : shl_long v (raw - size) = to_long (v * 2 ^ (raw - size))).
  { unfold shl_long. destruct (Z.leb_spec 0 (raw - size)); [|lia].
    destruct (Z.ltb_spec (raw - size) 32); [|lia]. reflexivity. }
  rewrite Hshl.
  assert (Hy : 0 <= v * 2 ^ (raw - size) < 2 ^ raw).
  { assert (E : 2 ^ raw = 2 ^ size * 2 ^ (raw - size))
      by (rewrite <- Z.pow_add_r by lia; f_equal; lia).
    rewrite E.
    assert (0 < 2 ^ (raw - size)) by (apply Z.pow_pos_nonneg; lia).
    split; [apply Z.mul_nonneg_nonneg; lia|].
    apply Z.mul_lt_mono_pos_r; lia. }
  destruct (Z.ltb_spec raw 32) as [Hlt|Hge].
  - assert (Hem : 0xFFFFFFFF - shl32 1 raw + 1 = 2 ^ 32 - 2 ^ raw).
    { unfold shl32. destruct (Z.leb_spec 0 raw); [|lia].
      destruct (Z.ltb_spec raw 32); [|lia]. cbn [andb].
      rewrite Z.mul_1_l, to_uInt32_small; [lia|].
      split; [apply Z.pow_nonneg; lia|apply Z.pow_lt_mono_r; lia]. }
    rewrite Hem.
    rewrite ExtendSign_at_width by lia.
    destruct (Z.ltb_spec raw 32); [|lia]. reflexivity.
  - unfold ExtendSign.
    destruct (Z.ltb_spec raw 32); [lia|].
    rewrite !andb_false_r. reflexivity.
Qed.

End SignFacts.

(** ** The packed path: values recovered, reconstruction *)

Module PackedClaims.
Import C DAQmx Decoder Spec CFacts PackedFacts PackFacts BlockFacts SignFacts.

Lemma stored_12 c v :
  channel_12 c = true -> in_range_12 c v = true -> stored c v = v.
Proof.
  unfold channel_12, in_range_12. intros Hc Hv.
  apply andb_true_iff in Hc. destruct Hc as [Hs Hr].
  apply Z.eqb_eq in Hs. apply Z.eqb_eq in Hr.
  unfold stored. rewrite Hs. change (2 ^ Z.of_nat (Z.to_nat 12)) with 4096.
  pose proof (Z.mod_pos_bound v 4096 ltac:(lia)) as Hm.
  rewrite to_long_small by lia.
  rewrite Reconstruct_spec by (rewrite ?Hs, ?Hr; lia).
  rewrite Hs, Hr. change (2 ^ (12 - 12)) with 1. rewrite Z.mul_1_r.
  change (12 <? 32) with true. rewrite andb_true_r.
  rewrite (testbit_top 11) by (change (2 ^ (11 + 1)) with 4096; lia).
  change (2 ^ 11) with 2048. change (2 ^ 12) with 4096.
  destruct (signedNumber c); cbn [andb].
  - apply andb_true_iff in Hv. destruct Hv as [Hlo Hhi].
    apply Z.leb_le in Hlo. apply Z.ltb_lt in Hhi.
    destruct (Z_lt_ge_dec v 0) as [Hneg|Hpos].
    + assert (E : v mod 4096 = v + 4096).
      { symmetry. apply Z.mod_unique with (q := -1); lia. }
      rewrite E. destruct (Z.leb_spec 2048 (v + 4096)); lia.
    + rewrite (Z.mod_small v) by lia.
      destruct (Z.leb_spec 2048 v); [lia|]. apply to_long_small. lia.
  - apply andb_true_iff in Hv. destruct Hv as [Hlo Hhi].
    apply Z.leb_le in Hlo. apply Z.ltb_lt in Hhi.
    rewrite (Z.mod_small v) by lia. apply to_long_small. lia.
Qed.

Lemma row_in_range_12_length : forall chain row,
  row_in_range_12 chain row = true -> List.length row = List.length chain.
Proof.
  induction chain as [|c chain IH]; intros [|v row] H; simpl in *;
    try discriminate; try reflexivity.
  apply andb_true_iff in H. destruct H as [_ H]. f_equal. auto.
Qed.

Lemma expect_sample_12 : forall chain row iChan ns,
  forallb channel_12 chain = true ->
  row_in_range_12 chain row = true ->
  map cell_val (expect_sample chain row iChan ns) = row.
Proof.
  induction chain as [|c chain IH]; intros [|v row] iChan ns Hc Hr;
    simpl in *; try discriminate; try reflexivity.
  apply andb_true_iff in Hc. destruct Hc as [Hc Hcs].
  apply andb_true_iff in Hr. destruct Hr as [Hv Hr].
  rewrite (stored_12 c v Hc Hv). f_equal. auto.
Qed.

Lemma expect_rows_12 chain : forall rows ns,
  forallb channel_12 chain = true ->
  forallb (row_in_range_12 chain) rows = true ->
  map cell_val (expect_rows chain rows ns) = List.concat rows.
Proof.
  induction rows as [|row rows IH]; intros ns Hc Hr; [reflexivity|].
  simpl in Hr. apply andb_true_iff in Hr. destruct Hr as [Hrow Hrows].
  cbn [expect_rows List.concat]. rewrite map_app.
  rewrite expect_sample_12 by assumption. f_equal. auto.
Qed.

Lemma expect_blocks_12 chain r : forall blocks ns,
  forallb channel_12 chain = true ->
  forallb (block_in_range_12 chain r) blocks = true ->
  map cell_val (expect_blocks chain blocks ns) = List.concat (List.concat blocks).
Proof.
  induction blocks as [|rows blocks IH]; intros ns Hc Hb; [reflexivity|].
  simpl in Hb. apply andb_true_iff in Hb. destruct Hb as [Hrows Hblocks].
  unfold block_in_range_12 in Hrows.
  apply andb_true_iff in Hrows. destruct Hrows as [_ Hrows].
  cbn [expect_blocks List.concat]. rewrite map_app, concat_app.
  rewrite expect_rows_12 by assumption. f_equal. auto.
Qed.

Lemma blocks_well_formed chain r : forall blocks,
  forallb (block_in_range_12 chain r) blocks = true ->
  Forall (well_formed_block chain r) blocks.
Proof.
  induction blocks as [|rows blocks IH]; intro H; constructor.
  - simpl in H. apply andb_true_iff in H. destruct H as [H _].
    unfold block_in_range_12 in H. apply andb_true_iff in H.
    destruct H as [Hl Hr]. apply Nat.eqb_eq in Hl. split; [exact Hl|].
    rewrite forallb_forall in Hr. apply Forall_forall. intros row Hin.
    apply row_in_range_12_length. auto.
  - apply IH. simpl in H. apply andb_true_iff in H. tauto.
Qed.

Lemma bits_per_sample_12 : forall chain,
  forallb channel_12 chain = true ->
  Z.of_nat (bits_per_sample chain) = 12 * Z.of_nat (List.length chain).
Proof.
  induction chain as [|c chain IH]; intro H; [reflexivity|].
  simpl in H. apply andb_true_iff in H. destruct H as [Hc Hcs].
  unfold channel_12 in Hc. apply andb_true_iff in Hc. destruct Hc as [Hs _].
  apply Z.eqb_eq in Hs.
  cbn [bits_per_sample fold_right List.length]. fold (bits_per_sample chain).
  rewrite Hs, Nat2Z.inj_add, IH by exact Hcs. lia.
Qed.

Lemma ReadBits_shrinks info : forall n val cur v cur',
  ReadBits n info val cur = Next (v, cur') ->
  (List.length (rawData cur') <= List.length (rawData cur))%nat.
Proof.
  induction n as [|n IH]; intros val cur v cur' H.
  - simpl in H. inversion H. subst. lia.
  - cbn [ReadBits] in H.
    destruct ((to_long (bitPos cur + 1) =? 8)
              && (byteCount cur <? readBlockSizeInBytes info)).
    + destruct (rawData cur) as [|b rest] eqn:E; [discriminate|].
      apply IH in H. cbn [rawData] in H. simpl. lia.
    + apply IH in H. cbn [rawData] in H. exact H.
Qed.

Lemma PackedChannels_shrinks info : forall n iChan chain ns cur cells cur',
  PackedChannels n info iChan chain ns cur = (cells, Next cur') ->
  (List.length (rawData cur') <= List.length (rawData cur))%nat.
Proof.
  induction n as [|n IH]; intros iChan chain ns cur cells cur' H.
  - simpl in H. inversion H. subst. lia.
  - cbn [PackedChannels] in H.
    destruct chain as [|c next]; [discriminate|].
    unfold PackedValue in H.
    destruct (ReadBits _ info 0 cur) as [[v cur1]|[v cur1]] eqn:ER;
      [|discriminate].
    apply ReadBits_shrinks in ER.
    destruct (PackedChannels n info _ next ns cur1) as [cs out] eqn:EC.
    inversion H. subst. apply IH in EC. lia.
Qed.

Lemma PackedSamples_shrinks info : forall n ns cur cells ns' cur',
  PackedSamples n info ns cur = (cells, Next (ns', cur')) ->
  (List.length (rawData cur') <= List.length (rawData cur))%nat.
Proof.
  induction n as [|n IH]; intros ns cur cells ns' cur' H.
  - simpl in H. inversion H. subst. lia.
  - cbn [PackedSamples] in H.
    destruct (PackedChannels _ info 0 _ ns cur) as [cs [cur1|cur1]] eqn:EC;
      [|discriminate].
    apply PackedChannels_shrinks in EC.
    destruct (PackedSamples n info _ cur1) as [cs' out] eqn:ES.
    inversion H. subst. apply IH in ES. lia.
Qed.

(** Every buffer is fuel enough for the loop over its blocks: the packed
    decoder returns on every input. *)
Lemma PackedBlocks_total info : forall fuel ns buf,
  (List.length buf <= fuel)%nat ->
  exists r, PackedBlocks fuel info ns buf = Some r.
Proof.
  induction fuel as [|fuel IH]; intros ns buf Hf.
  - destruct buf; [|simpl in Hf; lia]. simpl. eauto.
  - destruct buf as [|b rest]; [simpl; eauto|].
    cbn [PackedBlocks].
    destruct (PackedSamples _ info ns (mkCursor b 0 1 rest))
      as [cells [[ns' cur']|[ns' cur']]] eqn:ES; [|eauto].
    apply PackedSamples_shrinks in ES. cbn [rawData] in ES.
    destruct cur' as [c p k rd]. cbn [rawData] in ES.
    destruct (IH ns' rd) as [[cells' r] E]; [simpl in Hf; lia|].
    rewrite E. eauto.
Qed.

Lemma DecodeDataWithPacking_total info buf :
  exists r, DecodeDataWithPacking info buf = Some r.
Proof.
  unfold DecodeDataWithPacking.
  destruct (PackedBlocks_total info (List.length buf) 0 buf (Nat.le_refl _))
    as [[cells n] E].
  rewrite E. eauto.
Qed.

(** C1.  Channels stored at 12 bits with nothing removed ([lsb = 0]): from
    a buffer of whole blocks in which the 12-bit raw values, signed or
    unsigned, are packed most significant bit first without padding,
    [DecodeDataWithPacking] recovers every value, in order, as the integer
    it passes to the scaling, and counts every sample. *)
Theorem packed_12_bit_values_recovered (info : DataFileInfo)
    (blocks : list (list (list Z))) :
  let chain := channelInfoChain info in
  numberOfChannels info = Z.of_nat (List.length chain) ->
  forallb channel_12 chain = true ->
  0 <= readBlockSize info ->
  1 <= readBlockSizeInBytes info < 2 ^ 32 ->
  readBlockSizeInBytes info
  = (readBlockSize info * (12 * Z.of_nat (List.length chain)) + 7) / 8 ->
  forallb (block_in_range_12 chain (Z.to_nat (readBlockSize info))) blocks
  = true ->
  Z.of_nat (List.length blocks) * readBlockSize info < 2 ^ 31 ->
  exists cells,
    DecodeDataWithPacking info (flat_map (pack_block chain) blocks)
    = Some (cells, Z.of_nat (List.length blocks) * readBlockSize info)
    /\ map cell_val cells = List.concat (List.concat blocks).
Proof.
  intros chain Hn H12 Hrbs Hrbsb Htight Hblocks Hcount.
  unfold DecodeDataWithPacking.
  rewrite (PackedBlocks_blocks info Hn Hrbs Hrbsb).
  - exists (expect_blocks chain blocks 0). split.
    + rewrite Z.add_0_l, to_uInt32_small, to_long_small by lia. reflexivity.
    + apply (expect_blocks_12 chain (Z.to_nat (readBlockSize info))); assumption.
  - fold chain. rewrite bits_per_sample_12 by exact H12. exact Htight.
  - apply blocks_well_formed. exact Hblocks.
  - apply Nat.le_refl.
  - lia.
Qed.

Lemma packed_12_bit_values_recovered_witness :
  exists cells,
    DecodeDataWithPacking
      (mkDataFileInfo (str "1.0.0") 0 (str "t") 2 2 6 [ch12 true; ch12 false])
      (flat_map (pack_block [ch12 true; ch12 false])
                [[[-1; 4095]; [100; 200]]; [[-2048; 0]; [2047; 1]]])
    = Some (cells, 4)
    /\ map cell_val cells = [-1; 4095; 100; 200; -2048; 0; 2047; 1].
Proof.
  apply (packed_12_bit_values_recovered
           (mkDataFileInfo (str "1.0.0") 0 (str "t") 2 2 6 [ch12 true; ch12 false])
           [[[-1; 4095]; [100; 200]]; [[-2048; 0]; [2047; 1]]]);
    try reflexivity; simpl; lia.
Defined.

End PackedClaims.

(** ** Streams that end inside a block *)

Module TruncationClaims.
Import C DAQmx Decoder Spec CFacts UnpackedFacts PackedFacts PackFacts BlockFacts.

(** C3: the unpacked decoder does not stop when the stream ends inside a
    sample.  Of three bytes, with blocks of two 16-bit samples, it returns
    two samples, the second made of the one byte that is left, just as if
    the missing byte were there and zero; of a single byte, with blocks of
    1000 samples, it assigns and counts 1000 samples.  No sample but the
    first of the three bytes is complete, and no block is whole.  The
    packed decoder does stop at a byte that is missing: of a block of four
    12-bit samples and one byte more it returns the four samples. *)
Theorem truncated_sample_is_completed_not_dropped :
  DecodeDataWithoutPacking 2 info_unpacked_2 [1; 0; 2]
  = Some ([mkCell 0 0 1 1%float; mkCell 0 1 2 2%float], 2)
  /\ DecodeDataWithoutPacking 2 info_unpacked_2 [1; 0; 2]
     = DecodeDataWithoutPacking 2 info_unpacked_2 [1; 0; 2; 0]
  /\ claimed_truncated_count 2 4 3 = 0
  /\ option_map (fun r => (List.length (fst r), snd r))
        (DecodeDataWithoutPacking 1 info_unpacked_1000 [1])
     = Some (1000%nat, 1000)
  /\ claimed_truncated_count 1000 2000 1 = 0
  /\ option_map snd
        (DecodeDataWithPacking info_packed_4 [0xFF; 0xF1; 0x23; 1; 2; 3; 4])
     = Some 4
  /\ claimed_truncated_count 4 6 7 = 4.
Proof. repeat split; vm_compute; reflexivity. Qed.

Lemma packed_count_nonneg rbs rbsb S N :
  0 <= rbs -> 0 < rbsb -> 0 < S -> 0 <= N ->
  0 <= packed_count rbs rbsb S N.
Proof.
  intros. unfold packed_count.
  pose proof (Z.div_pos N rbsb ltac:(lia) ltac:(lia)).
  pose proof (Z.mod_pos_bound N rbsb ltac:(lia)).
  assert (0 <= N / rbsb * rbs) by (apply Z.mul_nonneg_nonneg; lia).
  destruct (Z.eqb_spec (N mod rbsb) 0); [lia|].
  pose proof (Z.div_pos (8 * (N mod rbsb) - 1) S ltac:(lia) ltac:(lia)). lia.
Qed.

(** X10.  The number of samples either decoder returns for a buffer of
    any length.  The unpacked decoder completes the block it has begun, so it
    returns [readBlockSize * ceil(totalBytes / bytesPerBlock)].  The packed
    decoder, for a [ReadBlockSizeInBytes] that is the size of a packed
    block, stops at the first byte it needs and does not find, and returns
    the samples of the whole blocks and those samples of the last block
    that end before the last bit that is there. *)
Theorem truncated_stream_counts
    (infoU : DataFileInfo) (bufU : list Z)
    (infoP : DataFileInfo) (bufP : list Z) :
  let bpb := readBlockSize infoU
             * Z.of_nat (bytes_per_sample (channelInfoChain infoU)) in
  let countU :=
    unpacked_count (readBlockSize infoU) bpb (Z.of_nat (List.length bufU)) in
  let S := Z.of_nat (bits_per_sample (channelInfoChain infoP)) in
  let countP :=
    packed_count (readBlockSize infoP) (readBlockSizeInBytes infoP) S
                 (Z.of_nat (List.length bufP)) in
  numberOfChannels infoU = Z.of_nat (List.length (channelInfoChain infoU)) ->
  0 <= readBlockSize infoU -> 0 < bpb -> countU < 2 ^ 31 ->
  numberOfChannels infoP = Z.of_nat (List.length (channelInfoChain infoP)) ->
  0 <= readBlockSize infoP ->
  1 <= readBlockSizeInBytes infoP < 2 ^ 32 ->
  readBlockSizeInBytes infoP = (readBlockSize infoP * S + 7) / 8 ->
  countP < 2 ^ 31 ->
  (forall fuel, (List.length bufU <= fuel)%nat ->
     exists cells,
       DecodeDataWithoutPacking fuel infoU bufU = Some (cells, countU))
  /\ (exists cells, DecodeDataWithPacking infoP bufP = Some (cells, countP)).
Proof.
  intros bpb countU S countP HnU HrU Hbpb HcU HnP HrP Hrbsb Htight HcP.
  split.
  - intros fuel Hfuel. unfold DecodeDataWithoutPacking.
    destruct (UnpackedBlocks_count infoU fuel 0 bufU HnU HrU Hbpb
                ltac:(lia) Hfuel) as [cells E].
    rewrite E. exists cells. f_equal. f_equal.
    fold bpb. rewrite Z.add_0_l.
    fold (unpacked_count (readBlockSize infoU) bpb (Z.of_nat (List.length bufU))).
    fold countU.
    assert (0 <= countU).
    { unfold countU, unpacked_count. apply Z.mul_nonneg_nonneg; [lia|].
      apply Z.div_pos; lia. }
    rewrite to_uInt32_small, to_long_small by lia. reflexivity.
  - unfold DecodeDataWithPacking.
    destruct (PackedBlocks_count infoP HnP HrP Hrbsb Htight
                (List.length bufP) 0 bufP (Nat.le_refl _) ltac:(lia))
      as [cells E].
    rewrite E. exists cells. f_equal. f_equal.
    rewrite Z.add_0_l. fold S countP.
    assert (0 <= countP).
    { apply packed_count_nonneg; try lia.
      eapply S_pos; eassumption. }
    rewrite to_uInt32_small, to_long_small by lia. reflexivity.
Qed.

Lemma truncated_stream_counts_witness :
  (forall fuel, (3 <= fuel)%nat ->
     exists cells,
       DecodeDataWithoutPacking fuel info_unpacked_2 [1; 0; 2]
       = Some (cells, 2))
  /\ (exists cells,
        DecodeDataWithPacking info_packed_4
          [0xFF; 0xF1; 0x23; 1; 2; 3; 4; 5; 6] = Some (cells, 5)).
Proof.
  apply (truncated_stream_counts info_unpacked_2 [1; 0; 2] info_packed_4
           [0xFF; 0xF1; 0x23; 1; 2; 3; 4; 5; 6]);
    try reflexivity; simpl; lia.
Defined.

End TruncationClaims.

(** ** The unpacked path: termination, sign extension, byte order *)

Module UnpackedClaims.
Import C DAQmx Decoder Spec CFacts UnpackedFacts.

(** Blocks that take no byte from a buffer that is not empty: the loop over
    the blocks never ends. *)
Lemma UnpackedBlocks_diverges info : forall fuel ns buf,
  numberOfChannels info = Z.of_nat (List.length (channelInfoChain info)) ->
  (Z.to_nat (readBlockSize info)
   * bytes_per_sample (channelInfoChain info) = 0)%nat ->
  0 <= ns < 2 ^ 32 ->
  buf <> [] ->
  UnpackedBlocks fuel info ns buf = None.
Proof.
  induction fuel as [|fuel IH]; intros ns buf Hn Hz Hns Hbuf.
  - destruct buf; [contradiction|reflexivity].
  - destruct buf as [|b rest]; [contradiction|].
    cbn [UnpackedBlocks].
    destruct (UnpackedSamples_rest info (Z.to_nat (readBlockSize info)) ns
                (b :: rest) Hn Hns) as [cells E].
    rewrite E, Hz. cbn [skipn].
    rewrite IH; auto. apply to_uInt32_range.
Qed.

Lemma bytes_per_sample_wide : forall chain,
  all_at_least_a_byte chain = true ->
  (List.length chain <= bytes_per_sample chain)%nat.
Proof.
  induction chain as [|c chain IH]; intro H; [simpl; lia|].
  unfold all_at_least_a_byte in H. simpl in H.
  apply andb_true_iff in H. destruct H as [Hc Hcs]. apply Z.leb_le in Hc.
  cbn [bytes_per_sample fold_right List.length]. fold (bytes_per_sample chain).
  specialize (IH Hcs).
  assert (1 <= rawSampleSizeInBits c / 8) by (apply Z.div_le_lower_bound; lia).
  lia.
Qed.

Lemma bytes_per_sample_narrow : forall chain,
  all_below_a_byte chain = true -> bytes_per_sample chain = O.
Proof.
  induction chain as [|c chain IH]; intro H; [reflexivity|].
  unfold all_below_a_byte in H. simpl in H.
  apply andb_true_iff in H. destruct H as [Hc Hcs]. apply Z.ltb_lt in Hc.
  cbn [bytes_per_sample fold_right]. fold (bytes_per_sample chain).
  rewrite (IH Hcs).
  assert (rawSampleSizeInBits c / 8 <= 0).
  { destruct (Z_lt_ge_dec (rawSampleSizeInBits c) 0).
    - pose proof (Z.div_lt_upper_bound (rawSampleSizeInBits c) 8 0). lia.
    - rewrite Z.div_small; lia. }
  lia.
Qed.

(** C10, as stated, fails: with every channel two bytes wide but a
    [ReadBlockSize] of zero the loop never leaves a buffer of one byte. *)
Lemma unpacked_decoder_loops_on_empty_blocks :
  all_at_least_a_byte (channelInfoChain info_empty_blocks) = true
  /\ forall fuel, DecodeDataWithoutPacking fuel info_empty_blocks [0] = None.
Proof.
  split; [reflexivity|]. intro fuel. unfold DecodeDataWithoutPacking.
  rewrite UnpackedBlocks_diverges; try reflexivity; try lia. discriminate.
Qed.

(** C10, amended.  With at least one channel, every channel at least 8 bits
    wide and a [ReadBlockSize] of at least 1, every block takes at least one
    byte and the unpacked decoder returns on every buffer (the length of
    the buffer is fuel enough).  With every channel narrower than 8 bits no
    byte is ever taken, and on a buffer that is not empty the decoder never
    returns. *)
Theorem unpacked_decoder_termination
    (info : DataFileInfo) (buf : list Z)
    (info' : DataFileInfo) (buf' : list Z) :
  numberOfChannels info = Z.of_nat (List.length (channelInfoChain info)) ->
  1 <= numberOfChannels info ->
  1 <= readBlockSize info ->
  all_at_least_a_byte (channelInfoChain info) = true ->
  numberOfChannels info' = Z.of_nat (List.length (channelInfoChain info')) ->
  all_below_a_byte (channelInfoChain info') = true ->
  buf' <> [] ->
  (forall fuel, (List.length buf <= fuel)%nat ->
     exists r, DecodeDataWithoutPacking fuel info buf = Some r)
  /\ (forall fuel, DecodeDataWithoutPacking fuel info' buf' = None).
Proof.
  intros Hn H1 Hrbs Hwide Hn' Hnarrow Hbuf'. split.
  - intros fuel Hfuel. unfold DecodeDataWithoutPacking.
    pose proof (bytes_per_sample_wide _ Hwide) as Hb.
    destruct (UnpackedBlocks_count info fuel 0 buf Hn ltac:(lia)) as [cells E];
      try lia.
    + apply Z.mul_pos_pos; lia.
    + rewrite E. eauto.
  - intro fuel. unfold DecodeDataWithoutPacking.
    rewrite UnpackedBlocks_diverges; auto; try lia.
    rewrite (bytes_per_sample_narrow _ Hnarrow). lia.
Qed.

Lemma unpacked_decoder_termination_witness :
  (forall fuel, (3 <= fuel)%nat ->
     exists r, DecodeDataWithoutPacking fuel info_unpacked_2 [1; 0; 2] = Some r)
  /\ (forall fuel,
        DecodeDataWithoutPacking fuel
          (mkDataFileInfo (str "1.0.0") 0 (str "t") 1 1 1 [ch4]) [7] = None).
Proof.
  apply (unpacked_decoder_termination info_unpacked_2 [1; 0; 2]
           (mkDataFileInfo (str "1.0.0") 0 (str "t") 1 1 1 [ch4]) [7]);
    try reflexivity; try (simpl; lia); discriminate.
Defined.

(** C2: at width 8 the unpacked decoder does not map 0xFF to -1.  Its
    extension mask is [0xFFFFFFFF - (1 << (32-size)) + 1], which for
    [size = 8] covers bits 24 to 31 and leaves bits 8 to 23 clear; the
    packed decoder builds the mask from [1 << realsize] and maps the same
    pattern to -1. *)
Theorem unpacked_sign_extension_of_0xFF :
  DecodeDataWithoutPacking 1 info_8 [0xFF]
  = Some ([mkCell 0 0 (-16776961) (-16776961)%float], 1)
  /\ to_uInt32 (0xFFFFFFFF - shl32 1 (to_uInt32 (32 - 8)) + 1) = 0xFF000000
  /\ to_long 0xFF0000FF = -16776961
  /\ Reconstruct ch8_packed 0xFF = -1.
Proof. repeat split; vm_compute; reflexivity. Qed.

Lemma to_long_add_l a b : to_long (to_long a + b) = to_long (a + b).
Proof.
  apply to_long_eqm. rewrite <- Zplus_mod_idemp_l, to_long_mod.
  apply Zplus_mod_idemp_l.
Qed.

Lemma to_long_add_r a b : to_long (a + to_long b) = to_long (a + b).
Proof. rewrite Z.add_comm, to_long_add_l. f_equal. lia. Qed.

Lemma to_long_mul_add a k b : to_long (to_long a * k + b) = to_long (a * k + b).
Proof.
  apply to_long_eqm.
  rewrite <- Zplus_mod_idemp_l, <- Zmult_mod_idemp_l, to_long_mod.
  rewrite Zmult_mod_idemp_l. apply Zplus_mod_idemp_l.
Qed.

Lemma to_long_shl32 b n :
  0 <= n < 32 -> to_long (shl32 b n) = to_long (Z.shiftl b n).
Proof.
  intro H. unfold shl32.
  destruct (Z.leb_spec 0 n); [|lia]. destruct (Z.ltb_spec n 32); [|lia].
  cbn [andb]. rewrite Z.shiftl_mul_pow2 by lia.
  apply to_long_eqm. unfold to_uInt32. apply Z.mod_mod. lia.
Qed.

(** The little-endian loop adds [byte[i] << (8*i)] for the bytes it reads. *)
Lemma ReadLittle_sum : forall n iByte x rd,
  0 <= iByte -> iByte + Z.of_nat n <= 4 ->
  ReadLittle n iByte (to_long x) rd
  = (to_long (x + sum_shifted (firstn n rd) iByte), skipn n rd).
Proof.
  induction n as [|n IH]; intros iByte x rd Hi Hn.
  - simpl. rewrite Z.add_0_r. reflexivity.
  - destruct rd as [|b rest].
    + simpl. rewrite Z.add_0_r. reflexivity.
    + cbn [ReadLittle firstn skipn sum_shifted].
      rewrite to_long_add_r, to_long_add_l.
      rewrite <- (to_long_add_r x), to_long_shl32 by lia.
      rewrite to_long_add_r.
      rewrite IH by lia. f_equal. f_equal.
      replace (iByte * 8) with (8 * iByte) by lia. lia.
Qed.

Lemma lor_shift_byte v b :
  is_byte b = true -> Z.lor (Z.shiftl v 8) b = v * 2 ^ 8 + b.
Proof.
  unfold is_byte. intro H. apply andb_true_iff in H. destruct H as [H0 H1].
  apply Z.leb_le in H0. apply Z.ltb_lt in H1.
  rewrite Z.shiftl_mul_pow2 by lia.
  assert (Hl : Z.land (v * 2 ^ 8) b = 0).
  { apply Z.bits_inj'. intros i Hi. rewrite Z.land_spec, Z.testbit_0_l.
    destruct (Z_lt_ge_dec i 8).
    - rewrite Z.mul_pow2_bits_low by lia. reflexivity.
    - rewrite <- (Z.mod_small b (2 ^ 8)) by (change (2 ^ 8) with 256; lia).
      rewrite Z.mod_pow2_bits_high by lia. apply andb_false_r. }
  pose proof (Z.add_lor_land (v * 2 ^ 8) b). lia.
Qed.

(** The big-endian loop computes [(value << 8) | byte[i]] over the bytes it
    reads. *)
Lemma ReadBig_fold : forall n x rd,
  forallb is_byte rd = true ->
  ReadBig n (to_long x) rd
  = (to_long (big_endian (firstn n rd) x), skipn n rd).
Proof.
  induction n as [|n IH]; intros x rd Hb.
  - reflexivity.
  - destruct rd as [|b rest]; [reflexivity|].
    simpl in Hb. apply andb_true_iff in Hb. destruct Hb as [Hb Hrest].
    cbn [ReadBig firstn skipn]. unfold big_endian. cbn [fold_left].
    fold (big_endian (firstn n rest) (Z.lor (Z.shiftl x 8) b)).
    rewrite to_long_mul_add, <- lor_shift_byte by exact Hb.
    apply IH. exact Hrest.
Qed.

Lemma data_at_app a b iChan iSamp :
  data_at (a ++ b) iChan iSamp
  = match data_at b iChan iSamp with
    | Some x => Some x
    | None => data_at a iChan iSamp
    end.
Proof.
  induction a as [|c a IH]; simpl.
  - destruct (data_at b iChan iSamp); reflexivity.
  - rewrite IH. destruct (data_at b iChan iSamp); reflexivity.
Qed.

Lemma data_at_other_samples cells iChan iSamp :
  Forall (fun c => cell_samp c <> iSamp) cells ->
  data_at cells iChan iSamp = None.
Proof.
  induction 1 as [|c cells Hc _ IH]; [reflexivity|].
  simpl. rewrite IH.
  destruct (Z.eqb_spec (cell_samp c) iSamp); [contradiction|].
  rewrite andb_false_r. reflexivity.
Qed.

Lemma UnpackedChannels_samp : forall n iChan chain ns rd,
  Forall (fun c => cell_samp c = ns)
         (fst (UnpackedChannels n iChan chain ns rd)).
Proof.
  induction n as [|n IH]; intros iChan chain ns rd; [constructor|].
  cbn [UnpackedChannels]. destruct chain as [|c next]; [constructor|].
  destruct (UnpackedValue c rd) as [val rd'].
  specialize (IH (to_uInt32 (iChan + 1)) next ns rd').
  destruct (UnpackedChannels n _ next ns rd') as [cells out].
  constructor; [reflexivity|exact IH].
Qed.

Lemma UnpackedSamples_samp info : forall n ns rd,
  0 <= ns -> ns + Z.of_nat n < 2 ^ 32 ->
  Forall (fun c => ns <= cell_samp c)
         (fst (UnpackedSamples n info ns rd)).
Proof.
  induction n as [|n IH]; intros ns rd H0 Hn; [constructor|].
  cbn [UnpackedSamples].
  pose proof (UnpackedChannels_samp (Z.to_nat (numberOfChannels info)) 0
                (channelInfoChain info) ns rd) as HC.
  destruct (UnpackedChannels _ 0 _ ns rd) as [cells [rd'|rd']]; cbn [fst] in *.
  - specialize (IH (to_uInt32 (ns + 1)) rd').
    rewrite to_uInt32_small in * by lia.
    specialize (IH ltac:(lia) ltac:(lia)).
    destruct (UnpackedSamples n info (ns + 1) rd') as [cells' out].
    cbn [fst] in *. apply Forall_app. split.
    + eapply Forall_impl; [|exact HC]. simpl. intros. lia.
    + eapply Forall_impl; [|exact IH]. simpl. intros. lia.
  - eapply Forall_impl; [|exact HC]. simpl. intros. lia.
Qed.

(** The scenario of two channels: 16 bits, little endian, coefficients
    [0.0; 1.0]; the bytes [01 00 02 00] decode to 1.0 for sample 0 of
    channel 0 and 2.0 for sample 0 of channel 1, at every block size. *)
Lemma scenario_is_decoded
    (info : DataFileInfo) (c0 c1 : ChannelInfo) (fuel : nat) :
  channelInfoChain info = [c0; c1] ->
  numberOfChannels info = 2 ->
  1 <= readBlockSize info < 2 ^ 32 ->
  scenario_channel c0 -> scenario_channel c1 ->
  (1 <= fuel)%nat ->
  exists cells numSamples,
    DecodeDataWithoutPacking fuel info [0x01; 0x00; 0x02; 0x00]
    = Some (cells, numSamples)
    /\ data_at cells 0 0 = Some 1%float
    /\ data_at cells 1 0 = Some 2%float.
Proof.
  intros Hchain Hnum Hrbs H0 H1 Hfuel.
  destruct fuel as [|fuel]; [lia|].
  destruct (Z.to_nat (readBlockSize info)) as [|m] eqn:Em; [lia|].
  unfold DecodeDataWithoutPacking. cbn [UnpackedBlocks]. rewrite Em.
  cbn [UnpackedSamples]. rewrite Hnum, Hchain.
  destruct c0 as [nm0 rr0 sz0 j0 s0 ct0 cs0 bo0 co0].
  destruct c1 as [nm1 rr1 sz1 j1 s1 ct1 cs1 bo1 co1].
  unfold scenario_channel in *. cbn in H0, H1.
  destruct H0 as (-> & -> & ->). destruct H1 as (-> & -> & ->).
  set (chan0 := mkChannelInfo nm0 rr0 16 j0 s0 ct0 cs0 LittleEndian _).
  set (chan1 := mkChannelInfo nm1 rr1 16 j1 s1 ct1 cs1 LittleEndian _).
  assert (EC : UnpackedChannels (Z.to_nat 2) 0 [chan0; chan1] 0
                 [0x01; 0x00; 0x02; 0x00]
               = ([mkCell 0 0 1 1%float; mkCell 1 0 2 2%float], Next [])).
  { subst chan0 chan1. destruct s0, s1; vm_compute; reflexivity. }
  rewrite EC.
  pose proof (UnpackedSamples_samp info m (to_uInt32 (0 + 1)) []) as Hs.
  change (to_uInt32 (0 + 1)) with 1 in *.
  specialize (Hs ltac:(lia) ltac:(lia)).
  destruct (UnpackedSamples_rest info m 1 [] ltac:(rewrite Hnum, Hchain; reflexivity)
              ltac:(lia)) as [cells' E'].
  rewrite E' in *. cbn [fst] in Hs.
  rewrite skipn_nil. destruct fuel; cbn [UnpackedBlocks].
  all: eexists; eexists; split; [reflexivity|].
  all: rewrite app_nil_r, !data_at_app.
  all: rewrite !(data_at_other_samples cells')
         by (eapply Forall_impl; [|exact Hs]; simpl; intros; lia).
  all: split; reflexivity.
Qed.

End UnpackedClaims.

(** ** The header written by the encoder *)

Module EncoderFacts.
Import C DAQmx Encoder Spec CFacts.

Lemma to_disk_app tm : forall a b,
  to_disk tm (a ++ b) = to_disk tm a ++ to_disk tm b.
Proof.
  induction a as [|x a IH]; intro b; [reflexivity|].
  cbn [app to_disk]. rewrite IH.
  destruct tm; [reflexivity|]. destruct (Ascii.eqb x NL); reflexivity.
Qed.

Lemma to_disk_head_not_NL : forall s b r,
  to_disk CRLF s = b :: r -> Ascii.eqb b NL = false.
Proof.
  intros [|x s] b r H; [discriminate|].
  cbn [to_disk] in H. destruct (Ascii.eqb x NL) eqn:E.
  - inversion H. reflexivity.
  - inversion H. subst. exact E.
Qed.

(** Reading in text mode what was written in text mode gives the text. *)
Lemma from_to_disk tm : forall s, from_disk tm (to_disk tm s) = s.
Proof.
  destruct tm.
  - induction s as [|x s IH]; [reflexivity|].
    cbn [to_disk from_disk]. rewrite IH. destruct (to_disk Untranslated s); reflexivity.
  - induction s as [|x s IH]; [reflexivity|].
    cbn [to_disk]. destruct (Ascii.eqb x NL) eqn:E.
    + apply Ascii.eqb_eq in E. subst x.
      cbn [from_disk]. change (Ascii.eqb CR CR && Ascii.eqb NL NL) with true.
      cbn iota. rewrite IH. reflexivity.
    + cbn [from_disk]. destruct (to_disk CRLF s) as [|b r] eqn:Ed.
      * rewrite <- IH. reflexivity.
      * rewrite (to_disk_head_not_NL s b r Ed), andb_false_r.
        rewrite IH. reflexivity.
Qed.

Lemma to_disk_length tm : forall s,
  (List.length s <= List.length (to_disk tm s) <= 2 * List.length s)%nat.
Proof.
  induction s as [|x s IH]; [simpl; lia|].
  cbn [to_disk]. destruct tm; [simpl; lia|].
  destruct (Ascii.eqb x NL); simpl; lia.
Qed.

Lemma to_disk_no_NL tm : forall s,
  forallb (fun a => negb (Ascii.eqb a NL)) s = true -> to_disk tm s = s.
Proof.
  induction s as [|x s IH]; intro H; [reflexivity|].
  simpl in H. apply andb_true_iff in H. destruct H as [Hx Hs].
  cbn [to_disk]. rewrite (IH Hs).
  destruct tm; [reflexivity|].
  apply negb_true_iff in Hx. rewrite Hx. reflexivity.
Qed.

Lemma byte_of_digit d : 0 <= d < 10 -> byte_of_ascii (digit d) - 48 = d.
Proof.
  intro H. unfold byte_of_ascii, digit.
  rewrite N_ascii_embedding by lia. lia.
Qed.

Lemma digit_not_NL d : 0 <= d < 10 -> negb (Ascii.eqb (digit d) NL) = true.
Proof.
  intro H. apply negb_true_iff. apply Ascii.eqb_neq. intro E.
  apply (f_equal byte_of_ascii) in E.
  pose proof (byte_of_digit d H). rewrite E in *.
  change (byte_of_ascii NL) with 10 in *. lia.
Qed.

Lemma fixed_decimal_length : forall w z, List.length (fixed_decimal w z) = w.
Proof.
  induction w as [|w IH]; intro z; [reflexivity|].
  cbn [fixed_decimal]. rewrite length_app, IH. simpl. lia.
Qed.

Lemma fixed_decimal_no_NL : forall w z,
  forallb (fun a => negb (Ascii.eqb a NL)) (fixed_decimal w z) = true.
Proof.
  induction w as [|w IH]; intro z; [reflexivity|].
  cbn [fixed_decimal]. rewrite forallb_app, IH. cbn [forallb].
  rewrite digit_not_NL by (apply Z.mod_pos_bound; lia). reflexivity.
Qed.

(** The digits read back as the number they were printed from. *)
Lemma decimal_value_fixed : forall w z,
  0 <= z -> decimal_value (fixed_decimal w z) = z mod 10 ^ Z.of_nat w.
Proof.
  induction w as [|w IH]; intros z Hz.
  - simpl. rewrite Z.mod_1_r. reflexivity.
  - cbn [fixed_decimal]. unfold decimal_value. rewrite fold_left_app.
    cbn [fold_left]. fold (decimal_value (fixed_decimal w (z / 10))).
    rewrite IH by (apply Z.div_pos; lia).
    rewrite byte_of_digit by (apply Z.mod_pos_bound; lia).
    rewrite Nat2Z.inj_succ, Z.pow_succ_r by lia.
    rewrite (Z.rem_mul_r z 10 (10 ^ Z.of_nat w)) by (try apply Z.pow_pos_nonneg; lia).
    lia.
Qed.

Lemma decimal_010_int z :
  0 <= z < 2 ^ 31 ->
  List.length (decimal_010 z) = 10%nat
  /\ decimal_value (decimal_010 z) = z
  /\ forallb (fun a => negb (Ascii.eqb a NL)) (decimal_010 z) = true.
Proof.
  intro H. unfold decimal_010. destruct (Z.ltb_spec z 0); [lia|].
  split; [apply fixed_decimal_length|]. split; [|apply fixed_decimal_no_NL].
  rewrite decimal_value_fixed by lia. apply Z.mod_small.
  change (10 ^ Z.of_nat 10) with 10000000000. lia.
Qed.

Section Header.

Variable drv : Driver.
Variable format_E15 : float -> text.

Lemma fold_left_appends (f : float -> text) : forall l g,
  exists t, fold_left (fun g c => g ++ f c) l g = g ++ t.
Proof.
  induction l as [|c l IH]; intro g.
  - exists []. simpl. rewrite app_nil_r. reflexivity.
  - cbn [fold_left]. destruct (IH (g ++ f c)) as [t E].
    rewrite E, <- app_assoc. eauto.
Qed.

Lemma CreateDataFileChannelEntry_appends g idx :
  exists t, CreateDataFileChannelEntry drv format_E15 g idx = g ++ t.
Proof.
  unfold CreateDataFileChannelEntry.
  match goal with
  | |- context [fold_left ?f ?l ?g0] =>
      destruct (fold_left_appends (fun c => format_E15 c ++ str ";") l g0) as [t E]
  end.
  rewrite E. repeat rewrite <- app_assoc. eauto.
Qed.

Lemma ChannelEntries_appends : forall n i g,
  exists t, ChannelEntries drv format_E15 n i g = g ++ t.
Proof.
  induction n as [|n IH]; intros i g.
  - exists []. simpl. rewrite app_nil_r. reflexivity.
  - cbn [ChannelEntries].
    destruct (CreateDataFileChannelEntry_appends g i) as [t E]. rewrite E.
    destruct (IH (i + 1) (g ++ t)) as [t' E']. rewrite E', <- app_assoc. eauto.
Qed.

Lemma CreateDataFileTaskEntry_appends g grbs numChannels sampsToRead :
  exists t,
    snd (fst (CreateDataFileTaskEntry drv g grbs numChannels sampsToRead))
    = g ++ t.
Proof.
  unfold CreateDataFileTaskEntry.
  destruct (CalculateReadBlockSize drv grbs numChannels sampsToRead)
    as [success r].
  cbn [fst snd]. repeat rewrite <- app_assoc. eauto.
Qed.

Lemma header_start :
  str "[DAQCompressedBinaryFile]\nVersion=1.0.0\nHeaderSize=0deadBEEF0\nNumberOfTasks=1\n"
  = header_prefix ++ placeholder ++ str "\nNumberOfTasks=1\n".
Proof. reflexivity. Qed.

(** The header first written: the fixed start, the placeholder, and a body
    that ends with the [Begin=Here] line. *)
Lemma WriteHeaderWithPlaceholder_shape tm grbs numChannels sampsPerChan
      gHeader grbs' written :
  WriteHeaderWithPlaceholder drv format_E15 tm grbs numChannels sampsPerChan
  = (1, gHeader, grbs', written) ->
  exists entries,
    gHeader = header_prefix ++ placeholder
              ++ (str "\nNumberOfTasks=1\n" ++ entries ++ header_end)
    /\ written = to_disk tm gHeader.
Proof.
  unfold WriteHeaderWithPlaceholder.
  rewrite header_start.
  set (g0 := header_prefix ++ placeholder ++ str "\nNumberOfTasks=1\n").
  destruct (CreateDataFileTaskEntry_appends g0 grbs numChannels sampsPerChan)
    as [t1 E1].
  destruct (CreateDataFileTaskEntry drv g0 grbs numChannels sampsPerChan)
    as [[success g1] r].
  cbn [fst snd] in E1. subst g1.
  destruct (Z.eqb_spec success 0).
  - intro H. apply pair_equal_spec in H. destruct H as [H _].
    apply pair_equal_spec in H. destruct H as [H _].
    apply pair_equal_spec in H. destruct H as [H _]. discriminate.
  - destruct (ChannelEntries_appends (Z.to_nat numChannels) 0 (g0 ++ t1))
      as [t2 E2].
    rewrite E2. fold header_end. intro H.
    apply pair_equal_spec in H. destruct H as [H Hw].
    apply pair_equal_spec in H. destruct H as [H _].
    apply pair_equal_spec in H. destruct H as [_ H].
    subst gHeader written.
    exists (t1 ++ t2). split; [|reflexivity].
    unfold g0. repeat rewrite <- app_assoc. reflexivity.
Qed.

End Header.

Lemma strstr_placeholder body :
  strstr (header_prefix ++ placeholder ++ body) placeholder
  = Some (List.length header_prefix).
Proof. reflexivity. Qed.

Lemma to_disk_placeholder tm : to_disk tm placeholder = placeholder.
Proof. destruct tm; reflexivity. Qed.

Lemma PatchSize_placeholder body size :
  0 <= size < 2 ^ 31 ->
  PatchSize (placeholder ++ body) size = decimal_010 size ++ body.
Proof.
  intro H. destruct (decimal_010_int size H) as (Hl & _ & _).
  unfold PatchSize.
  rewrite firstn_all2 by lia.
  change (skipn 10 (placeholder ++ body)) with body.
  destruct body as [|ch tail]; [reflexivity|].
  rewrite Hl. reflexivity.
Qed.

(** The second half of [CreateDataFileHeader] on a header with the
    placeholder. *)
Lemma PatchHeaderSize_spec tm body :
  let g := header_prefix ++ placeholder ++ body in
  let size := Z.of_nat (List.length (to_disk tm g)) in
  (List.length g < 2000)%nat ->
  PatchHeaderSize tm g (to_disk tm g)
  = (header_prefix ++ decimal_010 size ++ body,
     to_disk tm header_prefix ++ decimal_010 size ++ to_disk tm body).
Proof.
  intros g size Hcap.
  pose proof (to_disk_length tm g) as Hlen.
  assert (Hsize : 0 <= size < 2 ^ 31) by (unfold size; lia).
  destruct (decimal_010_int size Hsize) as (Hl & Hv & Hnl).
  assert (Es : to_uInt32 (FindOutFileSize (to_disk tm g)) = size).
  { unfold FindOutFileSize. fold size.
    rewrite to_long_small, to_uInt32_small by lia. reflexivity. }
  assert (E1 : overwrite g (firstn (Z.to_nat (to_uInt32 (2 * size)))
                                   (from_disk tm (to_disk tm g))) = g).
  { rewrite from_to_disk, to_uInt32_small by lia.
    rewrite firstn_all2 by (unfold size; lia).
    unfold overwrite. rewrite skipn_all, app_nil_r. reflexivity. }
  assert (E2 : firstn (List.length header_prefix) g
               ++ PatchSize (skipn (List.length header_prefix) g) (to_long size)
               = header_prefix ++ decimal_010 size ++ body).
  { unfold g. rewrite firstn_app, firstn_all, Nat.sub_diag, firstn_O, app_nil_r.
    rewrite skipn_app, skipn_all, Nat.sub_diag, skipn_O. cbn [app].
    rewrite to_long_small by lia.
    rewrite PatchSize_placeholder by exact Hsize. reflexivity. }
  assert (E3 : overwrite (to_disk tm g)
                 (to_disk tm (header_prefix ++ decimal_010 size ++ body))
               = to_disk tm header_prefix ++ decimal_010 size
                 ++ to_disk tm body).
  { rewrite !to_disk_app, (to_disk_no_NL tm _ Hnl).
    unfold overwrite.
    replace (List.length (to_disk tm header_prefix ++ decimal_010 size
                          ++ to_disk tm body))
      with (List.length (to_disk tm g)).
    - rewrite skipn_all, app_nil_r. reflexivity.
    - unfold g. rewrite !to_disk_app, to_disk_placeholder, !length_app, Hl.
      reflexivity. }
  assert (E0 : strstr g (str "0deadBEEF0") = Some (List.length header_prefix))
    by apply strstr_placeholder.
  unfold PatchHeaderSize. rewrite Es, E1, E0, E2, E3. reflexivity.
Qed.

(** C8.  When the header has been written with the placeholder (and fits
    the 2000 characters of [gHeader]), [CreateDataFileHeader] leaves a file
    that differs from it in the ten characters of the placeholder only:
    they hold the zero-padded ten-digit decimal of the length in bytes of
    the file, which ends with the [Begin=Here] line, so that the number is
    the offset of the first byte of data appended after it. *)
Theorem header_size_field_is_data_offset
    (drv : Driver) (format_E15 : float -> text) (tm : TextMode)
    (st : State) (filePath : text) (numChannels sampsPerChan : Z)
    (gHeader : text) (grbs : Z) (written : text) :
  WriteHeaderWithPlaceholder drv format_E15 tm (gReadBlockSize st)
                             numChannels sampsPerChan
  = (1, gHeader, grbs, written) ->
  filePath <> [] ->
  (List.length gHeader < 2000)%nat ->
  exists entries,
    let body := str "\nNumberOfTasks=1\n" ++ entries ++ header_end in
    let size := Z.of_nat (List.length written) in
    let field := decimal_010 size in
    gHeader = header_prefix ++ placeholder ++ body
    /\ written = to_disk tm header_prefix ++ placeholder ++ to_disk tm body
    /\ CreateDataFileHeader drv format_E15 tm true st filePath
                            numChannels sampsPerChan
       = (true,
          mkState (header_prefix ++ field ++ body) grbs
                  (Some (to_disk tm header_prefix ++ field ++ to_disk tm body)))
    /\ List.length field = 10%nat
    /\ decimal_value field = size
    /\ List.length (to_disk tm header_prefix ++ field ++ to_disk tm body)
       = List.length written.
Proof.
  intros HW Hpath Hcap.
  destruct (WriteHeaderWithPlaceholder_shape drv format_E15 tm _ _ _ _ _ _ HW)
    as (entries & Hg & Hw).
  exists entries. cbv zeta.
  set (body := str "\nNumberOfTasks=1\n" ++ entries ++ header_end) in *.
  set (size := Z.of_nat (List.length written)).
  pose proof (to_disk_length tm gHeader) as Hlen. rewrite <- Hw in Hlen.
  assert (Hsize : 0 <= size < 2 ^ 31) by (unfold size; lia).
  destruct (decimal_010_int size Hsize) as (Hl & Hv & Hnl).
  assert (Hw' : written
                = to_disk tm header_prefix ++ placeholder ++ to_disk tm body).
  { rewrite Hw, Hg, !to_disk_app, to_disk_placeholder. reflexivity. }
  split; [exact Hg|]. split; [exact Hw'|].
  split; [|split; [exact Hl|split; [exact Hv|]]].
  - unfold CreateDataFileHeader.
    destruct filePath as [|c path]; [contradiction|].
    cbn [negb]. rewrite HW. change (1 =? 0) with false. cbv iota.
    rewrite Hw.
    pose proof (PatchHeaderSize_spec tm body) as HP. cbv zeta in HP.
    rewrite <- Hg in HP. rewrite HP by exact Hcap.
    rewrite <- Hw. reflexivity.
  - rewrite Hw', !length_app, Hl. reflexivity.
Qed.

Lemma header_size_field_is_data_offset_witness :
  exists entries,
    let body := str "\nNumberOfTasks=1\n" ++ entries ++ header_end in
    let size := Z.of_nat (List.length (snd example_written)) in
    let field := decimal_010 size in
    snd (fst (fst example_written)) = header_prefix ++ placeholder ++ body
    /\ snd example_written
       = to_disk CRLF header_prefix ++ placeholder ++ to_disk CRLF body
    /\ CreateDataFileHeader example_driver example_format CRLF true
                            example_state (str "C:\\stream.cfg") 1 1000
       = (true,
          mkState (header_prefix ++ field ++ body) (snd (fst example_written))
                  (Some (to_disk CRLF header_prefix ++ field
                         ++ to_disk CRLF body)))
    /\ List.length field = 10%nat
    /\ decimal_value field = size
    /\ List.length (to_disk CRLF header_prefix ++ field ++ to_disk CRLF body)
       = List.length (snd example_written).
Proof.
  apply (header_size_field_is_data_offset example_driver example_format CRLF
           example_state (str "C:\\stream.cfg") 1 1000
           (snd (fst (fst example_written))) (snd (fst example_written))
           (snd example_written)).
  - vm_compute. reflexivity.
  - discriminate.
  - apply Nat.ltb_lt. vm_compute. reflexivity.
Defined.

End EncoderFacts.

(** ** The parser and the choice of the path *)

Module ParserFacts.
Import C DAQmx Decoder Spec CFacts.

Ltac scan_step H :=
  unfold bind at 1 in H;
  match type of H with
  | context [scan ?s ?f] =>
      let a := fresh "a" in
      let f' := fresh "f" in
      destruct (scan s f) as [[a f']|]; [|discriminate H]
  end.

Lemma strtok_all_nonempty : forall s tok,
  tok <> [] -> strtok_all s tok <> [].
Proof.
  induction s as [|a s IH]; intros tok Ht.
  - simpl. destruct tok; [contradiction|discriminate].
  - simpl. destruct (Ascii.eqb a ";").
    + destruct tok; [contradiction|discriminate].
    + apply IH. destruct tok; discriminate.
Qed.

Lemma strtok_all_first s c :
  Ascii.eqb c ";" = false -> strtok_all (c :: s) [] <> [].
Proof.
  intro H. simpl. rewrite H. apply strtok_all_nonempty. discriminate.
Qed.

Lemma streq_eq : forall a b, streq a b = true -> a = b.
Proof.
  induction a as [|x a IH]; intros [|y b] H; simpl in H;
    try discriminate; [reflexivity|].
  apply andb_true_iff in H. destruct H as [Hx Hab].
  apply Ascii.eqb_eq in Hx. subst y. f_equal. auto.
Qed.

Lemma some_pair_inv {A B} (a c : A) (b d : B) :
  Some (a, b) = Some (c, d) -> a = c /\ b = d.
Proof. intro H. inversion H. auto. Qed.

Section Parser.
Local Opaque scan str.
Variable sscanf_le : text -> option float.
Variable ind : Indeterminate.

Lemma ParseCoeffs_length i : forall tokens k,
  List.length (ParseCoeffs sscanf_le ind i k tokens) = List.length tokens.
Proof. induction tokens; intro k; simpl; auto. Qed.

(** The channels of a manifest that is returned: as many as the loop had
    iterations, each with at least one coefficient. *)
Lemma ParseChannels_accepts : forall n i loc f chain f',
  ParseChannels sscanf_le ind n i loc f = Some (chain, f') ->
  List.length chain = n
  /\ Forall (fun c => polynomialScalingCoeffChain c <> []) chain.
Proof.
  induction n as [|n IH]; intros i loc f chain f' H.
  - cbn in H. unfold ret in H. apply some_pair_inv in H.
    destruct H as [<- _]. auto.
  - cbn [ParseChannels] in H.
    do 10 scan_step H.
    match type of H with
    | context [if ?c then _ else _] => destruct c eqn:Ec; [discriminate H|]
    end.
    apply orb_false_iff in Ec. destruct Ec as [_ Ec].
    unfold bind in H.
    match type of H with
    | context [ParseChannels sscanf_le ind n ?i' ?loc' ?f0] =>
        destruct (ParseChannels sscanf_le ind n i' loc' f0)
          as [[chain' f'']|] eqn:E; [|discriminate H]
    end.
    apply IH in E. destruct E as [El Ef].
    unfold ret in H. apply some_pair_inv in H. destruct H as [<- _].
    split; [simpl; lia|].
    constructor; [|exact Ef].
    cbn [polynomialScalingCoeffChain]. intro Hc.
    apply (f_equal (@List.length float)) in Hc.
    rewrite ParseCoeffs_length in Hc.
    destruct (stored_s a8 (coeffBuff loc)) as [|c s]; [discriminate|].
    apply (strtok_all_first s c Ec).
    destruct (strtok_all (c :: s) []); [reflexivity|discriminate].
Qed.

(** What holds of every manifest the parser returns: the version is
    1.0.0, there is at least one channel, the chain has as many entries as
    the header says, and no channel is without a coefficient. *)
Lemma ParseDataFileHeader_accepts info0 file info :
  ParseDataFileHeader sscanf_le ind info0 file = Some info ->
  version info = str "1.0.0"
  /\ 1 <= numberOfChannels info
  /\ List.length (channelInfoChain info) = Z.to_nat (numberOfChannels info)
  /\ Forall (fun c => polynomialScalingCoeffChain c <> [])
            (channelInfoChain info).
Proof.
  unfold ParseDataFileHeader. destruct file as [f|]; [|discriminate].
  match goal with
  | |- option_map fst (?m f) = _ -> _ => destruct (m f) as [[r f']|] eqn:H
  end; [|discriminate].
  cbn [option_map fst]. intro Hr. injection Hr as Hr. subst r.
  do 9 scan_step H.
  match type of H with
  | context [if ?c then _ else _] => destruct c eqn:Ec; [discriminate H|]
  end.
  apply orb_false_iff in Ec. destruct Ec as [Ev En].
  apply negb_false_iff in Ev. apply streq_eq in Ev.
  apply Z.ltb_ge in En.
  unfold bind at 1 in H.
  match type of H with
  | context [ParseChannels sscanf_le ind ?n ?i ?loc ?f0] =>
      destruct (ParseChannels sscanf_le ind n i loc f0)
        as [[chain f'']|] eqn:E; [|discriminate H]
  end.
  apply ParseChannels_accepts in E. destruct E as [El Ef].
  do 2 scan_step H.
  unfold ret in H. apply some_pair_inv in H. destruct H as [<- _].
  cbn [version numberOfChannels channelInfoChain].
  auto.
Qed.

End Parser.

(** C4, as stated, fails: the byte order of the first channel decides the
    path.  Of two files that differ in the byte order only, with a channel
    packed losslessly at 16 bits (a multiple of 8) and one byte of data,
    the big endian one is decoded by the packed path, which finds no
    sample in one byte and makes the program return 0, and the little
    endian one by the unpacked path, which counts a sample and makes it
    return 1.  As stated, both were to take the unpacked path. *)
Lemma byte_order_changes_the_path :
  (exists info,
      ParseDataFileHeader sscanf_nothing zeroed info_zero
        (Some (from_disk Untranslated (file_packed_16 BigEndian))) = Some info
      /\ map compressionByteOrder (channelInfoChain info) = [BigEndian]
      /\ map compressedSampleSizeInBits (channelInfoChain info) = [16]
      /\ map claimed_path (channelInfoChain info) = [WithoutPacking]
      /\ ReadDataFileData info (Some (file_packed_16 BigEndian)) = Some [1]
      /\ option_map snd (DecodeDataWithoutPacking 1 info [1]) = Some 1
      /\ option_map snd (DecodeDataWithPacking info [1]) = Some 0)
  /\ ReadScaleAndPlotDataFileData 1 Untranslated sscanf_nothing zeroed
       (Some (file_packed_16 BigEndian)) = Some 0
  /\ ReadScaleAndPlotDataFileData 1 Untranslated sscanf_nothing zeroed
       (Some (file_packed_16 LittleEndian)) = Some 1.
Proof.
  split; [eexists; split; [vm_compute; reflexivity|]|];
    repeat split; vm_compute; reflexivity.
Qed.

(** C4, amended.  For every file whose header is accepted and whose data
    are read, the manifest has a first channel, and that channel alone
    selects the decoder: what [ReadScaleAndPlotDataFileData] returns is
    [numSamples>0] for the count of [DecodeDataWithoutPacking] when the
    first channel is not compressed, or is stored in little endian order
    at a width that is a multiple of 8, and for the count of
    [DecodeDataWithPacking] otherwise. *)
Theorem decode_path_of_a_parsed_manifest
    (fuel : nat) (tm : TextMode) (sscanf_le : text -> option float)
    (ind : Indeterminate) (file : text) (info : DataFileInfo)
    (rawData : list Z) :
  ParseDataFileHeader sscanf_le ind info_zero (Some (from_disk tm file))
  = Some info ->
  ReadDataFileData info (Some file) = Some rawData ->
  exists chan rest,
    channelInfoChain info = chan :: rest
    /\ ReadScaleAndPlotDataFileData fuel tm sscanf_le ind (Some file)
       = option_map (fun r => if 0 <? to_uInt32 (snd r) then 1 else 0)
           (if match compressionType chan with
               | DAQmx_Val_None => true
               | _ => false
               end
               || (match compressionByteOrder chan with
                   | LittleEndian => true
                   | BigEndian => false
                   end
                   && (compressedSampleSizeInBits chan mod 8 =? 0))
            then DecodeDataWithoutPacking fuel info rawData
            else DecodeDataWithPacking info rawData).
Proof.
  intros HP HR.
  destruct (ParseDataFileHeader_accepts sscanf_le ind info_zero _ info HP)
    as (_ & Hn & Hl & _).
  destruct (channelInfoChain info) as [|chan rest] eqn:Ec;
    [cbn in Hl; lia|].
  exists chan, rest. split; [reflexivity|].
  unfold ReadScaleAndPlotDataFileData. cbn [option_map].
  rewrite HP, HR, Ec. unfold SelectPath.
  destruct (compressionType chan), (compressionByteOrder chan),
    (compressedSampleSizeInBits chan mod 8 =? 0); cbn [orb andb];
    match goal with
    | |- context [DecodeDataWithoutPacking ?f ?i ?r] =>
        destruct (DecodeDataWithoutPacking f i r) as [[? ?]|]; reflexivity
    | |- context [DecodeDataWithPacking ?i ?r] =>
        destruct (DecodeDataWithPacking i r) as [[? ?]|]; reflexivity
    end.
Qed.

Lemma decode_path_of_a_parsed_manifest_witness :
  exists chan rest,
    channelInfoChain
      (mkDataFileInfo (str "1.0.0") 463 (str "Task") 1 1 2
         [mkChannelInfo (str "Dev1/ai0") 16 16 DAQmx_Val_RightJustified true
            DAQmx_Val_LosslessPacking 16 BigEndian
            [0%float; 0%float]])
    = chan :: rest
    /\ ReadScaleAndPlotDataFileData 1 Untranslated sscanf_nothing zeroed
         (Some (file_packed_16 BigEndian))
       = option_map (fun r => if 0 <? to_uInt32 (snd r) then 1 else 0)
           (if match compressionType chan with
               | DAQmx_Val_None => true
               | _ => false
               end
               || (match compressionByteOrder chan with
                   | LittleEndian => true
                   | BigEndian => false
                   end
                   && (compressedSampleSizeInBits chan mod 8 =? 0))
            then DecodeDataWithoutPacking 1
                   (mkDataFileInfo (str "1.0.0") 463 (str "Task") 1 1 2
                      [mkChannelInfo (str "Dev1/ai0") 16 16
                         DAQmx_Val_RightJustified true
                         DAQmx_Val_LosslessPacking 16 BigEndian
                         [0%float; 0%float]])
                   [1]
            else DecodeDataWithPacking
                   (mkDataFileInfo (str "1.0.0") 463 (str "Task") 1 1 2
                      [mkChannelInfo (str "Dev1/ai0") 16 16
                         DAQmx_Val_RightJustified true
                         DAQmx_Val_LosslessPacking 16 BigEndian
                         [0%float; 0%float]])
                   [1]).
Proof.
  apply (decode_path_of_a_parsed_manifest 1 Untranslated sscanf_nothing
           zeroed (file_packed_16 BigEndian)).
  - vm_compute. reflexivity.
  - vm_compute. reflexivity.
Defined.

(** C6: a file whose two channels differ in compression type and in
    compressed width is parsed, decoded by the unpacked path as if both
    channels were uncompressed, and reported as read: the check that the
    header comment of the program announces is not in the code. *)
Theorem mixed_formats_are_decoded
    (tm : TextMode) (sscanf_le : text -> option float) (ind : Indeterminate) :
  (exists info,
      ParseDataFileHeader sscanf_le ind info_zero
                          (Some (from_disk tm file_mixed)) = Some info
      /\ mixed_formats info = true
      /\ headerSize info = 740
      /\ map compressionType (channelInfoChain info)
         = [DAQmx_Val_None; DAQmx_Val_LosslessPacking])
  /\ ReadScaleAndPlotDataFileData 1 tm sscanf_le ind (Some file_mixed)
     = Some 1.
Proof.
  destruct tm; split;
    try (eexists; split; [vm_compute; reflexivity|repeat split]);
    vm_compute; reflexivity.
Qed.

(** C7: a header whose coefficient field is empty is accepted.  ["%s"]
    skips the new line and takes the next line, [[BinaryData]], for the
    field, so the test [*coeffBuff=='\0'] does not see the empty field; the
    two calls that should then match [[BinaryData]] and [Begin=Here] do
    not fail with a value below zero.  The manifest returned has one
    coefficient, which [sscanf] has not set unless it can read a number
    from ["[BinaryData]"]. *)
Theorem empty_coefficient_field_is_accepted
    (tm : TextMode) (sscanf_le : text -> option float) (ind : Indeterminate) :
  exists info,
    ParseDataFileHeader sscanf_le ind info_zero
                        (Some (from_disk tm file_empty_coeffs)) = Some info
    /\ numberOfChannels info = 1
    /\ headerSize info = 411
    /\ map polynomialScalingCoeffChain (channelInfoChain info)
       = [[match sscanf_le (str "[BinaryData]") with
           | Some x => x
           | None => malloc_ScaleCoeff ind 0 0
           end]].
Proof.
  destruct tm; eexists; (split; [vm_compute; reflexivity|repeat split]).
Qed.

(** The other rejections of C7 on examples: a version other than 1.0.0, no
    channel, a gap in the channel indices, a coefficient field that begins
    with a semicolon. *)
Lemma parser_rejects
    (tm : TextMode) (sscanf_le : text -> option float) (ind : Indeterminate) :
  ParseDataFileHeader sscanf_le ind info_zero
                      (Some (from_disk tm file_version_2)) = None
  /\ ParseDataFileHeader sscanf_le ind info_zero
                         (Some (from_disk tm file_no_channels)) = None
  /\ ParseDataFileHeader sscanf_le ind info_zero
                         (Some (from_disk tm file_index_gap)) = None
  /\ ParseDataFileHeader sscanf_le ind info_zero
                         (Some (from_disk tm file_leading_semicolon)) = None.
Proof. destruct tm; repeat split; vm_compute; reflexivity. Qed.

End ParserFacts.

(** ** The manifests the parser returns *)

Module ManifestFacts.
Import C DAQmx Decoder Spec CFacts ParserFacts.

(** X1.  Every manifest that [ParseDataFileHeader] returns, whatever the
    file and whatever the static record held before, has the version 1.0.0
    and at least one channel; its chain has exactly [numberOfChannels]
    records, so that the decoders never find [chan==NULL] before they have
    visited the channels the header counts, and every channel has at least
    one scaling coefficient. *)
Theorem parsed_manifest_is_well_formed
    (sscanf_le : text -> option float) (ind : Indeterminate)
    (info0 : DataFileInfo) (file : option text) (info : DataFileInfo) :
  ParseDataFileHeader sscanf_le ind info0 file = Some info ->
  version info = str "1.0.0"
  /\ 1 <= numberOfChannels info
  /\ numberOfChannels info = Z.of_nat (List.length (channelInfoChain info))
  /\ (forall i, 0 <= i < numberOfChannels info ->
        exists chan, nth_error (channelInfoChain info) (Z.to_nat i) = Some chan
                     /\ polynomialScalingCoeffChain chan <> []).
Proof.
  intro H.
  destruct (ParseDataFileHeader_accepts sscanf_le ind info0 file info H)
    as (Hv & Hn & Hl & Hc).
  split; [exact Hv|]. split; [exact Hn|].
  assert (Hlen : numberOfChannels info
                 = Z.of_nat (List.length (channelInfoChain info)))
    by (rewrite Hl; lia).
  split; [exact Hlen|].
  intros i Hi.
  destruct (nth_error (channelInfoChain info) (Z.to_nat i)) as [chan|] eqn:E.
  - exists chan. split; [reflexivity|].
    rewrite Forall_forall in Hc. apply Hc.
    eapply nth_error_In. exact E.
  - apply nth_error_None in E. lia.
Qed.

Lemma parsed_manifest_is_well_formed_witness :
  exists info,
    ParseDataFileHeader sscanf_nothing zeroed info_zero (Some file_mixed)
    = Some info
    /\ version info = str "1.0.0"
    /\ 1 <= numberOfChannels info
    /\ numberOfChannels info = Z.of_nat (List.length (channelInfoChain info))
    /\ (forall i, 0 <= i < numberOfChannels info ->
          exists chan,
            nth_error (channelInfoChain info) (Z.to_nat i) = Some chan
            /\ polynomialScalingCoeffChain chan <> []).
Proof.
  eexists. split; [vm_compute; reflexivity|].
  eapply (parsed_manifest_is_well_formed sscanf_nothing zeroed info_zero
            (Some file_mixed)).
  vm_compute. reflexivity.
Defined.

(** The first line of a file, on a stream that is at the start of a line
    (no white space, and no bracket that the literal could begin to
    match): [fscanf] reads it when it is there, reports a matching failure
    and leaves the stream alone when it is not, and is below zero in
    neither case, unless the file is empty. *)
Lemma scan_signature_present f :
  skip_space f = f ->
  scan "[DAQCompressedBinaryFile]\n" (str "[DAQCompressedBinaryFile]\n" ++ f)
  = Some ([], f).
Proof.
  intro Hs. unfold scan, fscanf. cbn. rewrite Hs. reflexivity.
Qed.

Lemma scan_signature_absent a f :
  Ascii.eqb "["%char a = false ->
  scan "[DAQCompressedBinaryFile]\n" (a :: f) = Some ([], a :: f).
Proof.
  intro Ha. unfold scan, fscanf.
  remember (directives (str "[DAQCompressedBinaryFile]\n")) as ds eqn:E.
  vm_compute in E. subst ds.
  cbn [fscanf_run]. rewrite Ha. reflexivity.
Qed.



End ManifestFacts.

(** ** The data region *)

Module RegionFacts.
Import C DAQmx Decoder Spec CFacts.

Lemma FindOutFileSize_length d :
  Z.of_nat (List.length d) < 2 ^ 31 ->
  FindOutFileSize (Some d) = Z.of_nat (List.length d).
Proof. intro H. unfold FindOutFileSize. apply to_long_small. lia. Qed.

Lemma ReadDataFileData_spec info d :
  Z.of_nat (List.length d) < 2 ^ 31 ->
  0 <= headerSize info < 2 ^ 32 ->
  ReadDataFileData info (Some d)
  = if headerSize info <=? Z.of_nat (List.length d)
    then Some (map byte_of_ascii (skipn (Z.to_nat (headerSize info)) d))
    else None.
Proof.
  intros Hd Hh. unfold ReadDataFileData.
  rewrite FindOutFileSize_length by exact Hd.
  destruct (Z.leb_spec (headerSize info) (Z.of_nat (List.length d))) as [Hle|Hgt].
  - rewrite (to_long_small (headerSize info)) by lia.
    destruct (Z.ltb_spec (headerSize info) 0); [lia|].
    rewrite to_long_small by lia.
    destruct (Z.ltb_spec (Z.of_nat (List.length d) - headerSize info) 0);
      [lia|reflexivity].
  - destruct (Z.ltb_spec (to_long (headerSize info)) 0); [reflexivity|].
    assert (Hs : headerSize info < 2 ^ 31).
    { pose proof (to_long_range (headerSize info)).
      destruct (Z.lt_ge_cases (headerSize info) (2 ^ 31)) as [|Hbig]; [assumption|].
      exfalso.
      assert (to_long (headerSize info) = headerSize info - 2 ^ 32).
      { unfold to_long.
        replace (headerSize info + 2 ^ 31)
          with (headerSize info - 2 ^ 31 + 1 * 2 ^ 32) by lia.
        rewrite Z.mod_add by lia. rewrite Z.mod_small by lia. lia. }
      lia. }
    rewrite to_long_small by lia.
    destruct (Z.ltb_spec (Z.of_nat (List.length d) - headerSize info) 0);
      [reflexivity|lia].
Qed.

(** X3.  [ReadDataFileData] returns the bytes of the file from offset
    [headerSize] to its end, all of them and nothing else, when the header
    size does not exceed the size of the file, and a null pointer when it
    does or when the file cannot be opened; a region of no bytes is
    returned as such. *)
Theorem data_region_is_the_rest_of_the_file
    (info : DataFileInfo) (d : text) :
  Z.of_nat (List.length d) < 2 ^ 31 ->
  0 <= headerSize info < 2 ^ 32 ->
  ReadDataFileData info None = None
  /\ (Z.of_nat (List.length d) < headerSize info ->
      ReadDataFileData info (Some d) = None)
  /\ (headerSize info <= Z.of_nat (List.length d) ->
      exists rawData,
        ReadDataFileData info (Some d) = Some rawData
        /\ Z.of_nat (List.length rawData)
           = Z.of_nat (List.length d) - headerSize info
        /\ map byte_of_ascii d
           = map byte_of_ascii (firstn (Z.to_nat (headerSize info)) d)
             ++ rawData
        /\ Forall (fun b => 0 <= b < 256) rawData).
Proof.
  intros Hd Hh. split; [reflexivity|].
  rewrite ReadDataFileData_spec by assumption.
  split.
  - intro Hlt.
    destruct (Z.leb_spec (headerSize info) (Z.of_nat (List.length d)));
      [lia|reflexivity].
  - intro Hle.
    destruct (Z.leb_spec (headerSize info) (Z.of_nat (List.length d)));
      [|lia].
    eexists. split; [reflexivity|].
    split; [|split].
    + rewrite length_map, length_skipn. lia.
    + rewrite <- map_app, firstn_skipn. reflexivity.
    + apply Forall_forall. intros b Hb.
      apply in_map_iff in Hb. destruct Hb as (a & <- & _).
      unfold byte_of_ascii.
      pose proof (N_ascii_bounded a) as Hlt.
      change 256 with (Z.of_N 256). lia.
Qed.

Lemma data_region_is_the_rest_of_the_file_witness :
  ReadDataFileData (mkDataFileInfo (str "1.0.0") 3 (str "t") 1 1 2 [ch16]) None
  = None
  /\ (Z.of_nat (List.length (str "abcde")) < 3 ->
      ReadDataFileData (mkDataFileInfo (str "1.0.0") 3 (str "t") 1 1 2 [ch16])
                       (Some (str "abcde")) = None)
  /\ (3 <= Z.of_nat (List.length (str "abcde")) ->
      exists rawData,
        ReadDataFileData (mkDataFileInfo (str "1.0.0") 3 (str "t") 1 1 2 [ch16])
                         (Some (str "abcde")) = Some rawData
        /\ Z.of_nat (List.length rawData)
           = Z.of_nat (List.length (str "abcde")) - 3
        /\ map byte_of_ascii (str "abcde")
           = map byte_of_ascii (firstn (Z.to_nat 3) (str "abcde")) ++ rawData
        /\ Forall (fun b => 0 <= b < 256) rawData).
Proof.
  apply (data_region_is_the_rest_of_the_file
           (mkDataFileInfo (str "1.0.0") 3 (str "t") 1 1 2 [ch16])
           (str "abcde")).
  - vm_compute. reflexivity.
  - split; vm_compute; [discriminate|reflexivity].
Defined.

End RegionFacts.

(** ** The cells the decoders assign *)

Module CellFacts.
Import C DAQmx Decoder Spec CFacts.

Lemma sample_rows_S nc first n :
  sample_rows nc first (S n) = sample_row nc first ++ sample_rows nc (first + 1) n.
Proof.
  unfold sample_rows. cbn [seq flat_map]. rewrite Z.add_0_r. f_equal.
  rewrite <- seq_shift, flat_map_concat_map, map_map, <- flat_map_concat_map.
  apply flat_map_ext. intro s. f_equal. lia.
Qed.

Lemma sample_rows_app nc first a b :
  sample_rows nc first (a + b) = sample_rows nc first a ++ sample_rows nc (first + Z.of_nat a) b.
Proof.
  revert first. induction a as [|a IH]; intro first.
  - simpl. rewrite Z.add_0_r. reflexivity.
  - cbn [Nat.add]. rewrite !sample_rows_S, IH, <- app_assoc.
    do 3 f_equal. lia.
Qed.

Lemma sample_rows_length nc first n :
  List.length (sample_rows nc first n) = (n * nc)%nat.
Proof.
  revert first. induction n as [|n IH]; intro first.
  - reflexivity.
  - rewrite sample_rows_S, length_app, IH. unfold sample_row, cells_from.
    rewrite length_map, length_seq. reflexivity.
Qed.

Lemma in_cells_from a n s i t :
  In (i, t) (cells_from a n s)
  <-> t = s /\ Z.of_nat a <= i < Z.of_nat a + Z.of_nat n.
Proof.
  unfold cells_from. rewrite in_map_iff. split.
  - intros (k & E & Hk). apply in_seq in Hk. inversion E. subst. lia.
  - intros (-> & Hi). exists (Z.to_nat i). split.
    + f_equal. lia.
    + apply in_seq. lia.
Qed.

Lemma in_sample_rows nc first n i t :
  In (i, t) (sample_rows nc first n)
  <-> 0 <= i < Z.of_nat nc /\ first <= t < first + Z.of_nat n.
Proof.
  unfold sample_rows. rewrite in_flat_map. split.
  - intros (s & Hs & Hin). apply in_seq in Hs.
    apply in_cells_from in Hin. lia.
  - intros (Hi & Ht). exists (Z.to_nat (t - first)). split.
    + apply in_seq. lia.
    + apply in_cells_from. lia.
Qed.

Lemma NoDup_cells_from a n s : NoDup (cells_from a n s).
Proof.
  unfold cells_from. apply NoDup_map_NoDup_ForallPairs.
  - intros x y _ _ E. inversion E. lia.
  - apply seq_NoDup.
Qed.

Lemma NoDup_sample_rows nc : forall n first, NoDup (sample_rows nc first n).
Proof.
  induction n as [|n IH]; intro first.
  - constructor.
  - rewrite sample_rows_S. apply NoDup_app.
    + apply NoDup_cells_from.
    + apply IH.
    + intros [i t] H1 H2. apply in_cells_from in H1. apply in_sample_rows in H2. lia.
Qed.

(** A cell that has been assigned holds a value. *)
Lemma data_at_assigned cells iChan iSamp :
  In (iChan, iSamp) (map cell_index cells) ->
  exists x, data_at cells iChan iSamp = Some x.
Proof.
  induction cells as [|c cells IH]; intro H; [contradiction|].
  cbn [data_at].
  destruct (data_at cells iChan iSamp) as [x|] eqn:E; [eauto|].
  destruct H as [H|H].
  - unfold cell_index in H. inversion H. rewrite !Z.eqb_refl. cbn. eauto.
  - destruct (IH H) as [x Hx]. discriminate.
Qed.

Lemma data_at_not_assigned cells iChan iSamp :
  ~ In (iChan, iSamp) (map cell_index cells) ->
  data_at cells iChan iSamp = None.
Proof.
  induction cells as [|c cells IH]; intro H; [reflexivity|].
  cbn [data_at]. rewrite IH by (intro; apply H; right; assumption).
  destruct (Z.eqb_spec (cell_chan c) iChan); [|reflexivity].
  destruct (Z.eqb_spec (cell_samp c) iSamp); [|reflexivity].
  exfalso. apply H. left. unfold cell_index. congruence.
Qed.

(** *** The unpacked decoder *)

Lemma UnpackedChannels_index : forall chain a ns rd,
  Z.of_nat a + Z.of_nat (List.length chain) < 2 ^ 32 ->
  map cell_index (fst (UnpackedChannels (List.length chain) (Z.of_nat a) chain ns rd))
  = cells_from a (List.length chain) ns.
Proof.
  induction chain as [|c chain IH]; intros a ns rd Hb.
  - reflexivity.
  - cbn [List.length UnpackedChannels].
    destruct (UnpackedValue c rd) as [val rd'].
    rewrite to_uInt32_small by (cbn [List.length] in Hb; lia).
    replace (Z.of_nat a + 1) with (Z.of_nat (S a)) by lia.
    specialize (IH (S a) ns rd').
    destruct (UnpackedChannels (List.length chain) (Z.of_nat (S a)) chain ns rd')
      as [cells out].
    cbn [fst map] in *. unfold cells_from. cbn [seq map].
    f_equal. apply IH. cbn [List.length] in Hb. lia.
Qed.

Lemma UnpackedChannels_next : forall chain iChan ns rd,
  exists rd', snd (UnpackedChannels (List.length chain) iChan chain ns rd)
              = Next rd'.
Proof.
  induction chain as [|c chain IH]; intros iChan ns rd.
  - eexists. reflexivity.
  - cbn [List.length UnpackedChannels].
    destruct (UnpackedValue c rd) as [val rd'].
    destruct (IH (to_uInt32 (iChan + 1)) ns rd') as [rd'' E].
    destruct (UnpackedChannels (List.length chain) (to_uInt32 (iChan + 1))
                               chain ns rd') as [cells out].
    cbn [snd] in *. eauto.
Qed.

Section Unpacked.

Variable info : DataFileInfo.
Let chain := channelInfoChain info.
Let nc := List.length chain.
Hypothesis Hchain : numberOfChannels info = Z.of_nat nc.
Hypothesis Hnc : 1 <= numberOfChannels info < 2 ^ 32.

Lemma UnpackedSamples_index : forall n ns rd,
  0 <= ns -> ns + Z.of_nat n < 2 ^ 32 ->
  exists rd',
    UnpackedSamples n info ns rd
    = (fst (UnpackedSamples n info ns rd), Next (ns + Z.of_nat n, rd'))
    /\ map cell_index (fst (UnpackedSamples n info ns rd)) = sample_rows nc ns n.
Proof.
  induction n as [|n IH]; intros ns rd Hns Hb.
  - exists rd. cbn. rewrite Z.add_0_r. auto.
  - cbn [UnpackedSamples]. rewrite Hchain, Nat2Z.id. fold chain.
    pose proof (UnpackedChannels_index chain 0 ns rd) as Hi.
    destruct (UnpackedChannels_next chain 0 ns rd) as [rd1 Hn1].
    change (Z.of_nat 0) with 0 in Hi. fold nc in Hi, Hn1 |- *.
    destruct (UnpackedChannels nc 0 chain ns rd) as [cells out].
    cbn [fst snd] in Hi, Hn1. subst out.
    rewrite to_uInt32_small by lia.
    destruct (IH (ns + 1) rd1) as (rd' & E & Hrows); [lia|lia|].
    destruct (UnpackedSamples n info (ns + 1) rd1) as [cells' out'].
    cbn [fst] in E, Hrows |- *.
    apply pair_equal_spec in E. destruct E as [_ E]. subst out'.
    exists rd'. split.
    + do 3 f_equal. lia.
    + rewrite map_app, Hi, Hrows, sample_rows_S. reflexivity.
      clear - Hchain Hnc. subst nc. lia.
Qed.

Lemma UnpackedSamples_length : forall n ns rd,
  exists cells ns' rd',
    UnpackedSamples n info ns rd = (cells, Next (ns', rd'))
    /\ List.length cells = (n * nc)%nat.
Proof.
  induction n as [|n IH]; intros ns rd.
  - do 3 eexists. split; reflexivity.
  - cbn [UnpackedSamples]. rewrite Hchain, Nat2Z.id. fold chain.
    destruct (UnpackedFacts.UnpackedChannels_rest chain 0 ns rd)
      as (cells & E & Hl).
    fold nc in E |- *. rewrite E.
    destruct (IH (to_uInt32 (ns + 1)) (skipn (bytes_per_sample chain) rd))
      as (cells' & ns' & rd' & E' & Hl').
    rewrite E'. do 3 eexists. split; [reflexivity|].
    rewrite length_app, Hl, Hl'. fold nc. lia.
Qed.

(** The loop over the blocks: whole samples only, as many as are counted. *)
Lemma UnpackedBlocks_index : forall fuel ns rd cells r,
  UnpackedBlocks fuel info ns rd = Some (cells, r) ->
  0 <= ns -> ns + Z.of_nat (List.length cells) < 2 ^ 32 ->
  exists k, r = ns + Z.of_nat k /\ map cell_index cells = sample_rows nc ns k.
Proof.
  assert (Hnc1 : (1 <= nc)%nat) by (clear - Hchain Hnc; lia).
  induction fuel as [|fuel IH]; intros ns rd cells r H Hns Hb.
  - destruct rd; [|discriminate].
    cbn in H. inversion H. subst. exists O. cbn. split; [lia|reflexivity].
  - destruct rd as [|b rd].
    + cbn in H. inversion H. subst. exists O. cbn. split; [lia|reflexivity].
    + cbn [UnpackedBlocks] in H.
      remember (Z.to_nat (readBlockSize info)) as n eqn:En.
      destruct (UnpackedSamples_length n ns (b :: rd))
        as (cells1 & ns1 & rd1 & E1 & Hl1).
      rewrite E1 in H.
      destruct (UnpackedBlocks fuel info ns1 rd1)
        as [[cells' r']|] eqn:E'; [|discriminate].
      inversion H. subst cells r. clear H.
      rewrite length_app, Hl1 in Hb.
      assert (Hn : (n <= n * nc)%nat) by nia.
      assert (Hsmall : ns + Z.of_nat n < 2 ^ 32) by lia.
      destruct (UnpackedSamples_index n ns (b :: rd) Hns Hsmall)
        as (rd' & E & Hi).
      rewrite E1 in E, Hi. cbn [fst] in E, Hi.
      apply pair_equal_spec in E. destruct E as [_ E].
      inversion E. subst ns1 rd'. clear E.
      destruct (IH _ _ _ _ E') as (k & Hr & Hk); [lia|lia|].
      exists (n + k)%nat. split; [lia|].
      rewrite map_app, Hi, Hk, sample_rows_app. reflexivity.
Qed.

End Unpacked.

(** *** The packed decoder *)

Lemma PackedChannels_index info : forall chain a ns cur cells out,
  Z.of_nat a + Z.of_nat (List.length chain) < 2 ^ 32 ->
  PackedChannels (List.length chain) info (Z.of_nat a) chain ns cur
  = (cells, out) ->
  map cell_index cells = cells_from a (List.length cells) ns
  /\ match out with
     | Next _ => List.length cells = List.length chain
     | GotoError _ => (List.length cells < List.length chain)%nat
     end.
Proof.
  induction chain as [|c chain IH]; intros a ns cur cells out Hb H.
  - cbn in H. inversion H. subst. split; reflexivity.
  - cbn [List.length PackedChannels] in H.
    destruct (PackedValue info c cur) as [[val cur']|[val cur']].
    + rewrite to_uInt32_small in H by (cbn [List.length] in Hb; lia).
      replace (Z.of_nat a + 1) with (Z.of_nat (S a)) in H by lia.
      destruct (PackedChannels (List.length chain) info (Z.of_nat (S a))
                               chain ns cur') as [cells' out'] eqn:E.
      inversion H. subst cells out. clear H.
      apply IH in E; [|cbn [List.length] in Hb; lia].
      destruct E as [Hi Ho]. split.
      * cbn [map List.length]. unfold cells_from in *. cbn [seq map].
        f_equal. exact Hi.
      * cbn [List.length]. destruct out'; lia.
    + inversion H. subst. split; [reflexivity|]. cbn [List.length]. lia.
Qed.

Section Packed.

Variable info : DataFileInfo.
Let chain := channelInfoChain info.
Let nc := List.length chain.
Hypothesis Hchain : numberOfChannels info = Z.of_nat nc.
Hypothesis Hnc : 1 <= numberOfChannels info < 2 ^ 32.

Lemma PackedSamples_index : forall n ns cur cells out,
  PackedSamples n info ns cur = (cells, out) ->
  0 <= ns -> ns + Z.of_nat (List.length cells) < 2 ^ 32 ->
  exists k j,
    map cell_index cells
    = sample_rows nc ns k ++ cells_from 0 j (ns + Z.of_nat k)
    /\ match out with
       | Next (ns', _) => k = n /\ j = O /\ ns' = ns + Z.of_nat n
       | GotoError (ns', _) =>
           (k < n)%nat /\ (j < nc)%nat /\ ns' = ns + Z.of_nat k
       end.
Proof.
  assert (Hnc1 : (1 <= nc)%nat) by (clear - Hchain Hnc; lia).
  induction n as [|n IH]; intros ns cur cells out H Hns Hb.
  - cbn in H. inversion H. subst. exists O, O. cbn.
    split; [reflexivity|]. repeat split. lia.
  - cbn [PackedSamples] in H. rewrite Hchain, Nat2Z.id in H. fold chain in H.
    destruct (PackedChannels nc info 0 chain ns cur) as [cells0 out0] eqn:E0.
    apply (PackedChannels_index info chain O) in E0;
      [|clear - Hchain Hnc; cbn; lia].
    destruct E0 as [Hi0 Ho0].
    destruct out0 as [cur'|cur'].
    + destruct (PackedSamples n info (to_uInt32 (ns + 1)) cur')
        as [cells' out'] eqn:E'.
      inversion H. subst cells out. clear H.
      rewrite length_app in Hb. fold nc in Ho0.
      rewrite to_uInt32_small in E' by lia.
      apply IH in E'; [|lia|lia].
      destruct E' as (k & j & Hi & Ho).
      exists (S k), j. split.
      * rewrite map_app, Hi0, Hi, sample_rows_S, <- app_assoc, Ho0.
        unfold sample_row. do 3 f_equal. lia.
      * destruct out' as [[ns' c']|[ns' c']]; lia.
    + inversion H. subst cells out. clear H.
      exists O, (List.length cells0). split.
      * cbn. rewrite Z.add_0_r. exact Hi0.
      * fold nc in Ho0. lia.
Qed.

Lemma PackedBlocks_index : forall fuel ns buf cells r,
  PackedBlocks fuel info ns buf = Some (cells, r) ->
  0 <= ns -> ns + Z.of_nat (List.length cells) < 2 ^ 32 ->
  exists k j,
    r = ns + Z.of_nat k /\ (j < nc)%nat
    /\ map cell_index cells
       = sample_rows nc ns k ++ cells_from 0 j (ns + Z.of_nat k).
Proof.
  assert (Hnc1 : (1 <= nc)%nat) by (clear - Hchain Hnc; lia).
  induction fuel as [|fuel IH]; intros ns buf cells r H Hns Hb.
  - destruct buf; [|discriminate].
    cbn in H. inversion H. subst. exists O, O. cbn.
    repeat split; [lia|exact Hnc1].
  - destruct buf as [|b rest].
    + cbn in H. inversion H. subst. exists O, O. cbn.
      repeat split; [lia|exact Hnc1].
    + cbn [PackedBlocks] in H.
      destruct (PackedSamples (Z.to_nat (readBlockSize info)) info ns
                              (mkCursor b 0 1 rest)) as [cells1 out1] eqn:E1.
      destruct out1 as [[ns1 cur1]|[ns1 cur1]].
      * destruct cur1 as [c1 p1 k1 rd1].
        destruct (PackedBlocks fuel info ns1 rd1)
          as [[cells' r']|] eqn:E'; [|discriminate].
        inversion H. subst cells r. clear H.
        rewrite length_app in Hb.
        apply PackedSamples_index in E1; [|exact Hns|lia].
        destruct E1 as (k & j & Hi & -> & -> & ->).
        apply IH in E'; [|lia|].
        -- destruct E' as (k' & j' & Hr & Hj & Hi').
           exists (Z.to_nat (readBlockSize info) + k')%nat, j'.
           split; [lia|]. split; [exact Hj|].
           rewrite map_app, Hi, Hi', sample_rows_app.
           cbn [cells_from seq map]. rewrite app_nil_r, <- app_assoc.
           do 2 f_equal. f_equal. lia.
        -- apply (f_equal (@List.length (Z * Z))) in Hi.
           rewrite length_map, length_app, sample_rows_length in Hi.
           cbn in Hi. nia.
      * inversion H. subst cells r. clear H.
        apply PackedSamples_index in E1; [|exact Hns|exact Hb].
        destruct E1 as (k & j & Hi & Hk & Hj & ->).
        exists k, j. auto.
Qed.

End Packed.

(** *** What the two decoders leave in the buffers *)

Lemma DecodeDataWithoutPacking_index fuel info buf cells numSamples :
  let nc := List.length (channelInfoChain info) in
  numberOfChannels info = Z.of_nat nc ->
  1 <= numberOfChannels info < 2 ^ 32 ->
  DecodeDataWithoutPacking fuel info buf = Some (cells, numSamples) ->
  Z.of_nat (List.length cells) < 2 ^ 31 ->
  0 <= numSamples
  /\ map cell_index cells = sample_rows nc 0 (Z.to_nat numSamples).
Proof.
  intros nc Hchain Hnc H Hb.
  unfold DecodeDataWithoutPacking in H.
  destruct (UnpackedBlocks fuel info 0 buf) as [[cells' r]|] eqn:E;
    [|discriminate].
  inversion H. subst cells' numSamples. clear H.
  apply (UnpackedBlocks_index info Hchain Hnc) in E; [|lia|lia].
  destruct E as (k & -> & Hi). fold nc in Hi.
  assert (Hk : to_long (0 + Z.of_nat k) = Z.of_nat k).
  { apply to_long_small.
    apply (f_equal (@List.length (Z * Z))) in Hi.
    rewrite length_map, sample_rows_length in Hi.
    assert (k <= k * nc)%nat by nia. lia. }
  rewrite Hk, Nat2Z.id.
  split; [lia|exact Hi].
Qed.

Lemma DecodeDataWithPacking_index info buf cells numSamples :
  let nc := List.length (channelInfoChain info) in
  numberOfChannels info = Z.of_nat nc ->
  1 <= numberOfChannels info < 2 ^ 32 ->
  DecodeDataWithPacking info buf = Some (cells, numSamples) ->
  Z.of_nat (List.length cells) < 2 ^ 31 ->
  0 <= numSamples
  /\ exists j, (j < nc)%nat
               /\ map cell_index cells
                  = sample_rows nc 0 (Z.to_nat numSamples)
                    ++ cells_from 0 j numSamples.
Proof.
  intros nc Hchain Hnc H Hb.
  unfold DecodeDataWithPacking in H.
  destruct (PackedBlocks (List.length buf) info 0 buf) as [[cells' r]|] eqn:E;
    [|discriminate].
  inversion H. subst cells' numSamples. clear H.
  apply (PackedBlocks_index info Hchain Hnc) in E; [|lia|lia].
  destruct E as (k & j & -> & Hj & Hi). fold nc in Hi, Hj.
  assert (Hk : to_long (0 + Z.of_nat k) = Z.of_nat k).
  { apply to_long_small.
    apply (f_equal (@List.length (Z * Z))) in Hi.
    rewrite length_map, length_app, sample_rows_length in Hi.
    assert (k <= k * nc)%nat by nia. lia. }
  rewrite Hk, Nat2Z.id. rewrite Z.add_0_l in Hi.
  split; [lia|]. exists j. auto.
Qed.

(** X4.  The unpacked decoder assigns the cells in order, sample by sample
    and within a sample channel by channel: the cells of the samples it
    counts, each exactly once, and no other cell.  After it has returned
    [numSamples], [data[iChan][iSamp]] has been assigned for every channel
    of the header and every [iSamp] below [numSamples]. *)
Theorem unpacked_decoder_assigns_the_counted_cells_once
    (fuel : nat) (info : DataFileInfo) (buf : list Z)
    (cells : list Cell) (numSamples : Z) :
  let nc := List.length (channelInfoChain info) in
  numberOfChannels info = Z.of_nat nc ->
  1 <= numberOfChannels info < 2 ^ 32 ->
  DecodeDataWithoutPacking fuel info buf = Some (cells, numSamples) ->
  Z.of_nat (List.length cells) < 2 ^ 31 ->
  0 <= numSamples
  /\ map cell_index cells = sample_rows nc 0 (Z.to_nat numSamples)
  /\ NoDup (map cell_index cells)
  /\ (forall iChan iSamp,
        0 <= iChan < numberOfChannels info -> 0 <= iSamp < numSamples ->
        exists x, data_at cells iChan iSamp = Some x)
  /\ (forall iChan iSamp,
        ~ (0 <= iChan < numberOfChannels info /\ 0 <= iSamp < numSamples) ->
        data_at cells iChan iSamp = None).
Proof.
  intros nc Hchain Hnc H Hb.
  destruct (DecodeDataWithoutPacking_index fuel info buf cells numSamples
              Hchain Hnc H Hb) as [Hn Hi].
  fold nc in Hi.
  split; [exact Hn|]. split; [exact Hi|].
  split; [rewrite Hi; apply NoDup_sample_rows|].
  split.
  - intros iChan iSamp Hc Hs. apply data_at_assigned.
    rewrite Hi. apply in_sample_rows. lia.
  - intros iChan iSamp Hno. apply data_at_not_assigned.
    rewrite Hi. intro Hin. apply in_sample_rows in Hin. lia.
Qed.

Lemma unpacked_decoder_assigns_the_counted_cells_once_witness :
  exists cells,
    DecodeDataWithoutPacking 2 info_unpacked_2 [1; 0; 2] = Some (cells, 2)
    /\ 0 <= 2
    /\ map cell_index cells = [(0, 0); (0, 1)]
    /\ NoDup (map cell_index cells)
    /\ (forall iChan iSamp,
          0 <= iChan < 1 -> 0 <= iSamp < 2 ->
          exists x, data_at cells iChan iSamp = Some x)
    /\ (forall iChan iSamp,
          ~ (0 <= iChan < 1 /\ 0 <= iSamp < 2) ->
          data_at cells iChan iSamp = None).
Proof.
  eexists. split; [vm_compute; reflexivity|].
  apply (unpacked_decoder_assigns_the_counted_cells_once
           2 info_unpacked_2 [1; 0; 2]).
  - reflexivity.
  - vm_compute. split; [discriminate|reflexivity].
  - vm_compute. reflexivity.
  - vm_compute. reflexivity.
Defined.

(** X5.  The packed decoder assigns, in the same order, the cells of the
    samples it counts, each exactly once; when it stops inside a sample for
    want of a byte it has besides assigned the first channels, not all, of
    the sample that it does not count, and it assigns no other cell. *)
Theorem packed_decoder_assigns_the_counted_cells_once
    (info : DataFileInfo) (buf : list Z)
    (cells : list Cell) (numSamples : Z) :
  let nc := List.length (channelInfoChain info) in
  numberOfChannels info = Z.of_nat nc ->
  1 <= numberOfChannels info < 2 ^ 32 ->
  DecodeDataWithPacking info buf = Some (cells, numSamples) ->
  Z.of_nat (List.length cells) < 2 ^ 31 ->
  0 <= numSamples
  /\ (exists j, (j < nc)%nat
                /\ map cell_index cells
                   = sample_rows nc 0 (Z.to_nat numSamples)
                     ++ cells_from 0 j numSamples)
  /\ NoDup (map cell_index cells)
  /\ (forall iChan iSamp,
        0 <= iChan < numberOfChannels info -> 0 <= iSamp < numSamples ->
        exists x, data_at cells iChan iSamp = Some x)
  /\ (forall iChan iSamp,
        ~ (0 <= iChan < numberOfChannels info /\ 0 <= iSamp <= numSamples) ->
        data_at cells iChan iSamp = None).
Proof.
  intros nc Hchain Hnc H Hb.
  destruct (DecodeDataWithPacking_index info buf cells numSamples
              Hchain Hnc H Hb) as (Hn & j & Hj & Hi).
  fold nc in Hi, Hj.
  split; [exact Hn|]. split; [exists j; auto|].
  split; [|split].
  - rewrite Hi. apply NoDup_app.
    + apply NoDup_sample_rows.
    + apply NoDup_cells_from.
    + intros [i t] H1 H2. apply in_sample_rows in H1.
      apply in_cells_from in H2. lia.
  - intros iChan iSamp Hc Hs. apply data_at_assigned.
    rewrite Hi. apply in_or_app. left. apply in_sample_rows. lia.
  - intros iChan iSamp Hno. apply data_at_not_assigned.
    rewrite Hi. intro Hin. apply in_app_or in Hin.
    destruct Hin as [Hin|Hin].
    + apply in_sample_rows in Hin. lia.
    + apply in_cells_from in Hin. lia.
Qed.

Lemma packed_decoder_assigns_the_counted_cells_once_witness :
  exists cells,
    DecodeDataWithPacking
      (mkDataFileInfo (str "1.0.0") 0 (str "t") 2 2 6 [ch12 true; ch12 false])
      [0xFF; 0xFF; 0xFF; 0x06; 0x40] = Some (cells, 1)
    /\ 0 <= 1
    /\ (exists j, (j < 2)%nat
                  /\ map cell_index cells
                     = sample_rows 2 0 (Z.to_nat 1) ++ cells_from 0 j 1)
    /\ NoDup (map cell_index cells)
    /\ (forall iChan iSamp,
          0 <= iChan < 2 -> 0 <= iSamp < 1 ->
          exists x, data_at cells iChan iSamp = Some x)
    /\ (forall iChan iSamp,
          ~ (0 <= iChan < 2 /\ 0 <= iSamp <= 1) ->
          data_at cells iChan iSamp = None).
Proof.
  eexists. split; [vm_compute; reflexivity|].
  apply (packed_decoder_assigns_the_counted_cells_once
           (mkDataFileInfo (str "1.0.0") 0 (str "t") 2 2 6
                           [ch12 true; ch12 false])
           [0xFF; 0xFF; 0xFF; 0x06; 0x40]).
  - reflexivity.
  - vm_compute. split; [discriminate|reflexivity].
  - vm_compute. reflexivity.
  - vm_compute. reflexivity.
Defined.

End CellFacts.

(** ** What is plotted *)

Module PlotFacts.
Import C DAQmx Decoder Spec CFacts CellFacts.

Lemma Total_ext : forall n row1 row2 iSamp total,
  0 <= iSamp -> iSamp + Z.of_nat n < 2 ^ 32 ->
  (forall s, iSamp <= s < iSamp + Z.of_nat n -> row1 s = row2 s) ->
  Total n row1 iSamp total = Total n row2 iSamp total.
Proof.
  induction n as [|n IH]; intros row1 row2 iSamp total H0 Hb Hrow.
  - reflexivity.
  - cbn [Total]. rewrite (Hrow iSamp) by lia.
    rewrite to_uInt32_small by lia.
    apply IH; [lia|lia|]. intros s Hs. apply Hrow. lia.
Qed.

Lemma PlotChannels_ext : forall n data1 data2 iChan numSamples,
  0 <= iChan -> iChan + Z.of_nat n < 2 ^ 32 ->
  0 <= numSamples < 2 ^ 32 ->
  (forall i s, iChan <= i < iChan + Z.of_nat n -> 0 <= s < numSamples ->
               data1 i s = data2 i s) ->
  PlotChannels n data1 iChan numSamples = PlotChannels n data2 iChan numSamples.
Proof.
  induction n as [|n IH]; intros data1 data2 iChan numSamples H0 Hb Hs Hd.
  - reflexivity.
  - cbn [PlotChannels].
    rewrite (Total_ext _ (data1 iChan) (data2 iChan)); [|lia|lia|].
    + rewrite to_uInt32_small by lia.
      f_equal. apply IH; [lia|lia|lia|].
      intros i s Hi Hs'. apply Hd; lia.
    + intros s Hs'. apply Hd; lia.
Qed.

Lemma PlotChannels_lines : forall n data iChan numSamples,
  0 <= iChan -> iChan + Z.of_nat n < 2 ^ 31 ->
  map line_channel (PlotChannels n data iChan numSamples)
  = map (fun i => iChan + 1 + Z.of_nat i) (seq 0 n)
  /\ Forall (fun l => line_samples l = numSamples)
            (PlotChannels n data iChan numSamples).
Proof.
  induction n as [|n IH]; intros data iChan numSamples H0 Hb.
  - split; [reflexivity|constructor].
  - cbn [PlotChannels map seq line_channel].
    rewrite to_uInt32_small by lia.
    destruct (IH data (iChan + 1) numSamples) as [IH1 IH2]; [lia|lia|].
    split.
    + rewrite to_long_small by lia. f_equal; [lia|].
      rewrite IH1, <- seq_shift, map_map.
      apply map_ext. intro i. lia.
    + constructor; [reflexivity|exact IH2].
Qed.

(** The averages read the cells of the samples counted, and no other. *)
Lemma PlotScaledData_ext data1 data2 numChannels numSamples :
  numChannels < 2 ^ 32 -> numSamples < 2 ^ 32 ->
  (forall i s, 0 <= i < numChannels -> 0 <= s < numSamples ->
               data1 i s = data2 i s) ->
  PlotScaledData data1 numChannels numSamples
  = PlotScaledData data2 numChannels numSamples.
Proof.
  intros Hc Hs Hd. unfold PlotScaledData.
  destruct (Z.leb_spec numChannels 0); [reflexivity|].
  destruct (Z.leb_spec numSamples 0); [reflexivity|].
  cbn [orb]. f_equal.
  apply PlotChannels_ext; [lia|lia|lia|].
  intros i s Hi Hs'. apply Hd; lia.
Qed.

Lemma content_assigned m1 m2 cells iChan iSamp :
  In (iChan, iSamp) (map cell_index cells) ->
  content m1 cells iChan iSamp = content m2 cells iChan iSamp.
Proof.
  intro H. unfold content.
  destruct (data_at_assigned cells iChan iSamp H) as [x ->]. reflexivity.
Qed.

(** X6.  [PlotScaledData] prints nothing and returns 0 when there is no
    channel or no sample; otherwise it returns 1 and prints one line for
    every channel, numbered from 1 (the channel number is printed after it
    has been incremented), each with the number of samples.  The averages
    are computed from the cells [data[iChan][iSamp]] with [iChan] below
    [numChannels] and [iSamp] below [numSamples], and from nothing else. *)
Theorem plot_prints_a_line_for_every_channel
    (data data' : Z -> Z -> float) (numChannels numSamples : Z) :
  0 <= numChannels < 2 ^ 31 -> 0 <= numSamples < 2 ^ 32 ->
  (forall iChan iSamp,
      0 <= iChan < numChannels -> 0 <= iSamp < numSamples ->
      data iChan iSamp = data' iChan iSamp) ->
  let '(result, lines) := PlotScaledData data numChannels numSamples in
  (result = if (0 <? numChannels) && (0 <? numSamples) then 1 else 0)
  /\ (result = 0 -> lines = [])
  /\ (result = 1 ->
      map line_channel lines
      = map (fun i => 1 + Z.of_nat i) (seq 0 (Z.to_nat numChannels))
      /\ Forall (fun l => line_samples l = numSamples) lines)
  /\ PlotScaledData data' numChannels numSamples = (result, lines).
Proof.
  intros Hc Hs Hd.
  rewrite <- (PlotScaledData_ext data data') by (try lia; exact Hd).
  unfold PlotScaledData.
  destruct (Z.leb_spec numChannels 0) as [Hc0|Hc0].
  - cbn [orb]. destruct (Z.ltb_spec 0 numChannels); [lia|]. cbn.
    repeat split; auto; discriminate.
  - destruct (Z.leb_spec numSamples 0) as [Hs0|Hs0].
    + cbn [orb]. destruct (Z.ltb_spec 0 numSamples); [lia|].
      rewrite andb_false_r.
      repeat split; auto; discriminate.
    + cbn [orb].
      destruct (Z.ltb_spec 0 numChannels); [|lia].
      destruct (Z.ltb_spec 0 numSamples); [|lia]. cbn [andb].
      split; [reflexivity|]. split; [discriminate|].
      split; [|reflexivity]. intros _.
      destruct (PlotChannels_lines (Z.to_nat numChannels) data 0 numSamples)
        as [H1 H2]; [lia|lia|].
      split; [|exact H2]. rewrite H1. apply map_ext. intro i. lia.
Qed.

Lemma plot_prints_a_line_for_every_channel_witness :
  let '(result, lines) :=
    PlotScaledData (fun i s => if i =? 0 then 1%float else 3%float) 2 4 in
  (result = if (0 <? 2) && (0 <? 4) then 1 else 0)
  /\ (result = 0 -> lines = [])
  /\ (result = 1 ->
      map line_channel lines
      = map (fun i => 1 + Z.of_nat i) (seq 0 (Z.to_nat 2))
      /\ Forall (fun l => line_samples l = 4) lines)
  /\ PlotScaledData (fun i s => if i <? 1 then 1%float else 3%float) 2 4
     = (result, lines).
Proof.
  apply (plot_prints_a_line_for_every_channel
           (fun i s => if i =? 0 then 1%float else 3%float)
           (fun i s => if i <? 1 then 1%float else 3%float) 2 4).
  - lia.
  - lia.
  - intros iChan iSamp Hc Hs.
    destruct (Z.eqb_spec iChan 0), (Z.ltb_spec iChan 1); try reflexivity; lia.
Defined.

(** X7.  What is plotted has been decoded: after either decoder, every
    cell that [PlotScaledData] reads has been assigned, so that whatever
    [malloc] left in the buffers [data[iChan]] has no part in the lines
    printed. *)
Theorem plotted_cells_have_been_assigned
    (fuel : nat) (info : DataFileInfo) (buf : list Z)
    (cells : list Cell) (numSamples : Z)
    (malloc_data malloc_data' : Z -> Z -> float) :
  numberOfChannels info = Z.of_nat (List.length (channelInfoChain info)) ->
  1 <= numberOfChannels info < 2 ^ 32 ->
  DecodeDataWithoutPacking fuel info buf = Some (cells, numSamples)
  \/ DecodeDataWithPacking info buf = Some (cells, numSamples) ->
  Z.of_nat (List.length cells) < 2 ^ 31 ->
  PlotScaledData (content malloc_data cells) (numberOfChannels info)
                 (to_uInt32 numSamples)
  = PlotScaledData (content malloc_data' cells) (numberOfChannels info)
                   (to_uInt32 numSamples).
Proof.
  intros Hchain Hnc H Hb.
  assert (Hcover : 0 <= numSamples
                   /\ forall i s, 0 <= i < numberOfChannels info ->
                                  0 <= s < numSamples ->
                                  In (i, s) (map cell_index cells)).
  { destruct H as [H|H].
    - destruct (DecodeDataWithoutPacking_index fuel info buf cells numSamples
                  Hchain Hnc H Hb) as [Hn Hi].
      split; [exact Hn|]. intros i s Hi' Hs. rewrite Hi.
      apply in_sample_rows. lia.
    - destruct (DecodeDataWithPacking_index info buf cells numSamples
                  Hchain Hnc H Hb) as (Hn & j & Hj & Hi).
      split; [exact Hn|]. intros i s Hi' Hs. rewrite Hi.
      apply in_or_app. left. apply in_sample_rows. lia. }
  destruct Hcover as [Hn Hcover].
  assert (Hsmall : numSamples < 2 ^ 32).
  { assert (Hin : forall s, 0 <= s < numSamples ->
                            In (0, s) (map cell_index cells))
      by (intros; apply Hcover; lia).
    destruct (Z_lt_le_dec numSamples (2 ^ 32)) as [|Hbig]; [assumption|].
    exfalso.
    destruct (Z_of_nat_complete (2 ^ 31)) as [n Hn31]; [lia|].
    assert (Hincl : incl (map (fun s => (0, Z.of_nat s)) (seq 0 n))
                         (map cell_index cells)).
    { intros p Hp. apply in_map_iff in Hp. destruct Hp as (s & <- & Hs).
      apply in_seq in Hs. apply Hin. lia. }
    apply NoDup_incl_length in Hincl.
    - rewrite !length_map, length_seq in Hincl. lia.
    - apply NoDup_map_NoDup_ForallPairs; [|apply seq_NoDup].
      intros x y _ _ E. inversion E. lia. }
  rewrite to_uInt32_small by lia.
  apply PlotScaledData_ext; [lia|lia|].
  intros i s Hi Hs. apply content_assigned. apply Hcover; assumption.
Qed.

Lemma plotted_cells_have_been_assigned_witness :
  exists cells,
    DecodeDataWithoutPacking 2 info_unpacked_2 [1; 0; 2] = Some (cells, 2)
    /\ PlotScaledData (content (fun _ _ => 7%float) cells) 1 (to_uInt32 2)
       = PlotScaledData (content (fun _ _ => 9%float) cells) 1 (to_uInt32 2).
Proof.
  eexists. split; [vm_compute; reflexivity|].
  apply (plotted_cells_have_been_assigned
           2 info_unpacked_2 [1; 0; 2] _ 2
           (fun _ _ => 7%float) (fun _ _ => 9%float)).
  - reflexivity.
  - vm_compute. split; [discriminate|reflexivity].
  - left. vm_compute. reflexivity.
  - vm_compute. reflexivity.
Defined.

End PlotFacts.

(** ** The packed decoder on streams of blocks *)

Module PackedStreamFacts.
Import C DAQmx Decoder Spec CFacts PackedFacts PackFacts BlockFacts SignFacts
       PackedClaims CellFacts.

(** *** Fuel *)

Lemma PackedBlocks_fuel info : forall fuel fuel' ns buf,
  (List.length buf <= fuel)%nat -> (List.length buf <= fuel')%nat ->
  PackedBlocks fuel info ns buf = PackedBlocks fuel' info ns buf.
Proof.
  induction fuel as [|fuel IH]; intros fuel' ns buf Hf Hf'.
  - destruct buf; [|simpl in Hf; lia]. destruct fuel'; reflexivity.
  - destruct buf as [|b rest]; [destruct fuel'; reflexivity|].
    destruct fuel' as [|fuel']; [simpl in Hf'; lia|].
    cbn [PackedBlocks].
    destruct (PackedSamples _ info ns (mkCursor b 0 1 rest))
      as [cells [[ns' cur']|[ns' cur']]] eqn:ES; [|reflexivity].
    apply PackedSamples_shrinks in ES.
    destruct cur' as [c p k rd]. cbn [rawData] in ES.
    cbn [List.length] in Hf, Hf'.
    rewrite (IH fuel' ns' rd) by lia. reflexivity.
Qed.

(** X8.  The packed decoder returns on every buffer and for every header,
    also for a [ReadBlockSize] of zero and for channels of no bits: every
    block takes its first byte from the buffer before anything else, so the
    loop over the blocks runs at most once for every byte, and more
    iterations than the buffer has bytes are never needed. *)
Theorem packed_decoder_returns_on_every_buffer
    (info : DataFileInfo) (buf : list Z) :
  (exists cells numSamples,
      DecodeDataWithPacking info buf = Some (cells, numSamples))
  /\ (forall fuel ns,
        (List.length buf <= fuel)%nat ->
        PackedBlocks fuel info ns buf <> None
        /\ PackedBlocks fuel info ns buf
           = PackedBlocks (List.length buf) info ns buf).
Proof.
  split.
  - destruct (DecodeDataWithPacking_total info buf) as [[cells n] E].
    eauto.
  - intros fuel ns Hf. split.
    + destruct (PackedBlocks_total info fuel ns buf Hf) as [r E].
      rewrite E. discriminate.
    + apply PackedBlocks_fuel; [exact Hf|lia].
Qed.

(** *** Sample numbers *)

Lemma PackedChannels_later info d : forall n iChan chain ns cur,
  PackedChannels n info iChan chain (ns + d) cur
  = (map (later d) (fst (PackedChannels n info iChan chain ns cur)),
     snd (PackedChannels n info iChan chain ns cur)).
Proof.
  induction n as [|n IH]; intros iChan chain ns cur.
  - reflexivity.
  - cbn [PackedChannels]. destruct chain as [|c next]; [reflexivity|].
    destruct (PackedValue info c cur) as [[val cur']|[val cur']];
      [|reflexivity].
    rewrite IH.
    destruct (PackedChannels n info (to_uInt32 (iChan + 1)) next ns cur')
      as [cells out].
    reflexivity.
Qed.

Section Later.

Variable info : DataFileInfo.
Let chain := channelInfoChain info.
Let nc := List.length chain.
Hypothesis Hchain : numberOfChannels info = Z.of_nat nc.
Hypothesis Hnc : 1 <= numberOfChannels info < 2 ^ 32.
Variable d : Z.
Hypothesis Hd : 0 <= d.

Lemma PackedSamples_later : forall n ns cur cells out,
  PackedSamples n info ns cur = (cells, out) ->
  0 <= ns -> ns + d + Z.of_nat (List.length cells) < 2 ^ 32 ->
  PackedSamples n info (ns + d) cur = (map (later d) cells, later_flow d out).
Proof.
  induction n as [|n IH]; intros ns cur cells out H Hns Hb.
  - cbn in H. inversion H. subst. reflexivity.
  - cbn [PackedSamples] in H |- *.
    rewrite Hchain, Nat2Z.id in H |- *. fold chain in H |- *.
    rewrite PackedChannels_later.
    destruct (PackedChannels nc info 0 chain ns cur) as [cells0 out0] eqn:E0.
    cbn [fst snd].
    apply (PackedChannels_index info chain O) in E0;
      [|clear - Hchain Hnc; cbn; lia].
    destruct E0 as [_ Ho0].
    destruct out0 as [cur'|cur'].
    + destruct (PackedSamples n info (to_uInt32 (ns + 1)) cur')
        as [cells' out'] eqn:E'.
      inversion H. subst cells out. clear H.
      rewrite length_app in Hb. fold nc in Ho0.
      assert (Hnc1 : (1 <= nc)%nat) by (clear - Hchain Hnc; lia).
      rewrite to_uInt32_small in E' by lia.
      rewrite (to_uInt32_small (ns + d + 1)) by lia.
      replace (ns + d + 1) with (ns + 1 + d) by lia.
      rewrite (IH _ _ _ _ E') by lia.
      rewrite map_app. reflexivity.
    + inversion H. subst cells out. reflexivity.
Qed.

Lemma PackedBlocks_later : forall fuel ns buf cells r,
  PackedBlocks fuel info ns buf = Some (cells, r) ->
  0 <= ns -> ns + d + Z.of_nat (List.length cells) < 2 ^ 32 ->
  PackedBlocks fuel info (ns + d) buf = Some (map (later d) cells, r + d).
Proof.
  induction fuel as [|fuel IH]; intros ns buf cells r H Hns Hb.
  - destruct buf; [|discriminate]. cbn in H |- *. inversion H. reflexivity.
  - destruct buf as [|b rest].
    + cbn in H |- *. inversion H. reflexivity.
    + cbn [PackedBlocks] in H |- *.
      destruct (PackedSamples (Z.to_nat (readBlockSize info)) info ns
                              (mkCursor b 0 1 rest)) as [cells1 out1] eqn:E1.
      destruct out1 as [[ns1 cur1]|[ns1 cur1]].
      * destruct cur1 as [c1 p1 k1 rd1].
        destruct (PackedBlocks fuel info ns1 rd1)
          as [[cells' r']|] eqn:E'; [|discriminate].
        inversion H. subst cells r. clear H.
        rewrite length_app in Hb.
        rewrite (PackedSamples_later _ _ _ _ _ E1) by lia.
        cbn [later_flow].
        pose proof E1 as E1i.
        apply (PackedSamples_index info Hchain Hnc) in E1i; [|lia|lia].
        destruct E1i as (k & j & Hi & -> & -> & ->).
        apply (f_equal (@List.length (Z * Z))) in Hi.
        rewrite length_map, length_app, sample_rows_length in Hi.
        cbn in Hi.
        assert (Hnc1 : (1 <= nc)%nat) by (clear - Hchain Hnc; lia).
        assert (Hk : (Z.to_nat (readBlockSize info)
                      <= List.length cells1)%nat)
          by (rewrite Hi; unfold nc, chain in Hnc1; nia).
        rewrite (IH _ _ _ _ E') by lia.
        rewrite map_app. reflexivity.
      * inversion H. subst cells r. clear H.
        rewrite (PackedSamples_later _ _ _ _ _ E1) by lia.
        reflexivity.
Qed.

End Later.

(** *** Whole blocks *)

Lemma field_app buf rest : forall n j val,
  0 <= j -> j + Z.of_nat n <= 8 * Z.of_nat (List.length buf) ->
  field (buf ++ rest) n j val = field buf n j val.
Proof.
  induction n as [|n IH]; intros j val Hj Hb.
  - reflexivity.
  - cbn [field]. rewrite bit_at_app by lia. apply IH; lia.
Qed.

Lemma sample_cells_app buf rest : forall chain iChan ns j,
  0 <= j ->
  j + Z.of_nat (bits_per_sample chain) <= 8 * Z.of_nat (List.length buf) ->
  sample_cells (buf ++ rest) chain iChan ns j = sample_cells buf chain iChan ns j.
Proof.
  induction chain as [|c chain IH]; intros iChan ns j Hj Hb.
  - reflexivity.
  - cbn [sample_cells]. cbn [bits_per_sample fold_right] in Hb.
    fold (bits_per_sample chain) in Hb.
    rewrite field_app by lia. f_equal. apply IH; lia.
Qed.

Lemma block_cells_app buf rest chain : forall n ns j,
  0 <= j ->
  j + Z.of_nat n * Z.of_nat (bits_per_sample chain)
  <= 8 * Z.of_nat (List.length buf) ->
  block_cells (buf ++ rest) chain n ns j = block_cells buf chain n ns j.
Proof.
  induction n as [|n IH]; intros ns j Hj Hb.
  - reflexivity.
  - cbn [block_cells]. rewrite sample_cells_app by nia.
    f_equal. apply IH; nia.
Qed.

Section Blocks.

Variable info : DataFileInfo.
Let rbs := readBlockSize info.
Let rbsb := readBlockSizeInBytes info.
Let chain := channelInfoChain info.
Let S := Z.of_nat (bits_per_sample chain).

Hypothesis Hchain : numberOfChannels info = Z.of_nat (List.length chain).
Hypothesis Hrbs : 0 <= rbs.
Hypothesis Hrbsb : 1 <= rbsb < 2 ^ 32.
Hypothesis Htight : rbsb = (rbs * S + 7) / 8.

(** A whole block at the head of the buffer: its cells depend on its own
    bytes only, and the decoder goes on behind it. *)
Lemma PackedBlocks_whole_block blk rest fuel ns :
  Z.of_nat (List.length blk) = rbsb ->
  0 <= ns < 2 ^ 32 ->
  PackedBlocks (Datatypes.S fuel) info ns (blk ++ rest)
  = match PackedBlocks fuel info (to_uInt32 (ns + rbs)) rest with
    | Some (cells', r) =>
        Some (block_cells blk chain (Z.to_nat rbs) ns 0 ++ cells', r)
    | None => None
    end.
Proof.
  intros Hlen Hns.
  destruct (blk ++ rest) as [|b tl] eqn:Ebuf.
  { apply (f_equal (@List.length Z)) in Ebuf. rewrite length_app in Ebuf.
    cbn in Ebuf. clear - Ebuf Hlen Hrbsb. lia. }
  cbn [PackedBlocks]. fold rbs.
  assert (HN : rbsb <= Z.of_nat (List.length (b :: tl))).
  { rewrite <- Ebuf, length_app. clear - Hlen. lia. }
  destruct (PackedSamples_full info Hchain Hrbs Hrbsb Htight b tl ns HN Hns)
    as (c & p & k & E).
  fold rbs rbsb chain in E. rewrite E.
  replace (skipn (Z.to_nat rbsb) (b :: tl)) with rest.
  2:{ rewrite <- Ebuf, skipn_app.
      replace (Z.to_nat rbsb) with (List.length blk) by (clear - Hlen; lia).
      rewrite skipn_all, Nat.sub_diag. reflexivity. }
  rewrite <- Ebuf.
  rewrite block_cells_app; [reflexivity|lia|].
  pose proof (block_bits_bounds info Htight) as Hb.
  fold rbs rbsb chain S in Hb. fold S.
  rewrite Z2Nat.id by exact Hrbs. rewrite Hlen.
  clear - Hb. lia.
Qed.

End Blocks.



(** *** Samples of any width *)

Lemma Reconstruct_to_long chan y :
  Reconstruct chan (to_long y) = Reconstruct chan y.
Proof.
  unfold Reconstruct, shl_long.
  destruct ((0 <=? to_uInt32 (RawWidth chan - compressedSampleSizeInBits chan))
            && (to_uInt32 (RawWidth chan - compressedSampleSizeInBits chan)
                <? 32)); [|reflexivity].
  f_equal. apply to_long_eqm.
  rewrite <- Zmult_mod_idemp_l, to_long_mod, Zmult_mod_idemp_l. reflexivity.
Qed.

(** What the decoder stores for a value of the compressed width is the
    value with the removed bits put back as zeros. *)
Lemma stored_restored c v :
  restorable c = true -> in_range c v = true -> stored c v = restored c v.
Proof.
  unfold restorable, in_range, restored. intros Hc Hv.
  apply andb_true_iff in Hc. destruct Hc as [Hc Hw].
  apply andb_true_iff in Hc. destruct Hc as [H1 Hle].
  apply Z.leb_le in H1. apply Z.leb_le in Hle.
  set (size := compressedSampleSizeInBits c) in *.
  set (raw := RawWidth c) in *.
  assert (Hraw : raw <= 32).
  { apply orb_true_iff in Hw. destruct Hw as [Hw|Hw].
    - apply Z.leb_le in Hw. lia.
    - apply andb_true_iff in Hw. destruct Hw as [_ Hw].
      apply Z.leb_le in Hw. lia. }
  unfold stored. fold size. rewrite Z2Nat.id by lia.
  rewrite Reconstruct_to_long.
  pose proof (Z.mod_pos_bound v (2 ^ size) ltac:(lia)) as Hm.
  rewrite Reconstruct_spec by (fold size raw; lia).
  fold size raw.
  set (lsb := raw - size).
  assert (Hlsb : 0 <= lsb) by (unfold lsb; lia).
  assert (Hpow : 2 ^ raw = 2 ^ size * 2 ^ lsb).
  { rewrite <- Z.pow_add_r by lia. f_equal. unfold lsb. lia. }
  assert (Hhalf : 2 ^ size = 2 * 2 ^ (size - 1)).
  { rewrite <- Z.pow_succ_r by lia. f_equal. lia. }
  assert (Hp1 : 0 < 2 ^ (size - 1)) by (apply Z.pow_pos_nonneg; lia).
  assert (Hp2 : 0 < 2 ^ lsb) by (apply Z.pow_pos_nonneg; lia).
  assert (Hp31 : 2 ^ raw <= 2 ^ 32) by (apply Z.pow_le_mono_r; lia).
  rewrite Z.mul_pow2_bits by exact Hlsb.
  replace (raw - 1 - lsb) with (size - 1) by (unfold lsb; lia).
  rewrite (testbit_top (size - 1))
    by (replace (size - 1 + 1) with size by lia; lia).
  destruct (signedNumber c) eqn:Hs; cbn [andb] in *.
  - apply andb_true_iff in Hv. destruct Hv as [Hlo Hhi].
    apply Z.leb_le in Hlo. apply Z.ltb_lt in Hhi.
    destruct (Z_lt_ge_dec v 0) as [Hneg|Hpos].
    + assert (E : v mod 2 ^ size = v + 2 ^ size).
      { symmetry. apply Z.mod_unique with (q := -1); lia. }
      rewrite E.
      destruct (Z.leb_spec (2 ^ (size - 1)) (v + 2 ^ size)); [|lia].
      destruct (Z.ltb_spec raw 32); cbn [andb].
      * rewrite Hpow. ring.
      * assert (raw = 32) by lia.
        replace ((v + 2 ^ size) * 2 ^ lsb) with (v * 2 ^ lsb + 1 * 2 ^ 32)
          by (replace (2 ^ 32) with (2 ^ raw) by (f_equal; lia);
              rewrite Hpow; ring).
        unfold to_long.
        replace (v * 2 ^ lsb + 1 * 2 ^ 32 + 2 ^ 31)
          with (v * 2 ^ lsb + 2 ^ 31 + 1 * 2 ^ 32) by ring.
        rewrite Z.mod_add by lia.
        rewrite Z.mod_small; [ring|].
        replace (2 ^ 32) with (2 ^ raw) by (f_equal; lia).
        replace (2 ^ 31) with (2 ^ (size - 1) * 2 ^ lsb).
        -- rewrite Hpow, Hhalf. nia.
        -- rewrite <- Z.pow_add_r by lia. f_equal. unfold lsb. lia.
    + rewrite (Z.mod_small v) by lia.
      destruct (Z.leb_spec (2 ^ (size - 1)) v); [lia|].
      rewrite andb_false_r. apply to_long_small.
      assert (v * 2 ^ lsb < 2 ^ (size - 1) * 2 ^ lsb) by nia.
      assert (2 ^ (size - 1) * 2 ^ lsb <= 2 ^ 31).
      { rewrite <- Z.pow_add_r by lia. apply Z.pow_le_mono_r; unfold lsb; lia. }
      nia.
  - rewrite orb_false_r in Hw. apply Z.leb_le in Hw.
    apply andb_true_iff in Hv. destruct Hv as [Hlo Hhi].
    apply Z.leb_le in Hlo. apply Z.ltb_lt in Hhi.
    rewrite (Z.mod_small v) by lia.
    apply to_long_small.
    assert (v * 2 ^ lsb < 2 ^ size * 2 ^ lsb) by nia.
    assert (2 ^ raw <= 2 ^ 31) by (apply Z.pow_le_mono_r; lia).
    nia.
Qed.

Lemma row_in_range_length : forall chain row,
  row_in_range chain row = true -> List.length row = List.length chain.
Proof.
  induction chain as [|c chain IH]; intros [|v row] H; simpl in *;
    try discriminate; try reflexivity.
  apply andb_true_iff in H. destruct H as [_ H]. f_equal. auto.
Qed.

Lemma expect_sample_restored : forall chain row iChan ns,
  forallb restorable chain = true ->
  row_in_range chain row = true ->
  map cell_val (expect_sample chain row iChan ns) = restored_row chain row.
Proof.
  induction chain as [|c chain IH]; intros [|v row] iChan ns Hc Hr;
    simpl in *; try discriminate; try reflexivity.
  apply andb_true_iff in Hc. destruct Hc as [Hc Hcs].
  apply andb_true_iff in Hr. destruct Hr as [Hv Hr].
  rewrite (stored_restored c v Hc Hv). f_equal. auto.
Qed.

Lemma expect_rows_restored chain : forall rows ns,
  forallb restorable chain = true ->
  forallb (row_in_range chain) rows = true ->
  map cell_val (expect_rows chain rows ns)
  = flat_map (restored_row chain) rows.
Proof.
  induction rows as [|row rows IH]; intros ns Hc Hr; [reflexivity|].
  simpl in Hr. apply andb_true_iff in Hr. destruct Hr as [Hrow Hrows].
  cbn [expect_rows flat_map]. rewrite map_app.
  rewrite expect_sample_restored by assumption. f_equal. auto.
Qed.

Lemma expect_blocks_restored chain r : forall blocks ns,
  forallb restorable chain = true ->
  forallb (block_in_range chain r) blocks = true ->
  map cell_val (expect_blocks chain blocks ns)
  = flat_map (flat_map (restored_row chain)) blocks.
Proof.
  induction blocks as [|rows blocks IH]; intros ns Hc Hb; [reflexivity|].
  simpl in Hb. apply andb_true_iff in Hb. destruct Hb as [Hrows Hblocks].
  unfold block_in_range in Hrows.
  apply andb_true_iff in Hrows. destruct Hrows as [_ Hrows].
  cbn [expect_blocks flat_map]. rewrite map_app.
  rewrite expect_rows_restored by assumption. f_equal. auto.
Qed.

Lemma blocks_in_range_well_formed chain r : forall blocks,
  forallb (block_in_range chain r) blocks = true ->
  Forall (well_formed_block chain r) blocks.
Proof.
  induction blocks as [|rows blocks IH]; intro H; constructor.
  - simpl in H. apply andb_true_iff in H. destruct H as [H _].
    unfold block_in_range in H. apply andb_true_iff in H.
    destruct H as [Hl Hr]. apply Nat.eqb_eq in Hl. split; [exact Hl|].
    rewrite forallb_forall in Hr. apply Forall_forall. intros row Hin.
    apply row_in_range_length. auto.
  - apply IH. simpl in H. apply andb_true_iff in H. tauto.
Qed.

(** What [v * 2 ^ lsb] is bit by bit: the [lsb] low bits are zero, the
    bits of the sample lie above them, and from the restored width
    [size + lsb] up every bit of a signed sample equals the sign bit at
    position [size + lsb - 1] and every bit of an unsigned one is zero. *)
Lemma restored_bits c v :
  restorable c = true -> in_range c v = true ->
  let size := compressedSampleSizeInBits c in
  let lsb := RawWidth c - size in
  (forall i, 0 <= i < lsb -> Z.testbit (restored c v) i = false)
  /\ (forall i, 0 <= i < size ->
                Z.testbit (restored c v) (lsb + i) = Z.testbit v i)
  /\ (forall i, size + lsb <= i ->
                Z.testbit (restored c v) i
                = signedNumber c
                  && Z.testbit (restored c v) (size + lsb - 1)).
Proof.
  intros Hc Hv size lsb.
  unfold restorable in Hc. unfold in_range in Hv. unfold restored.
  apply andb_true_iff in Hc. destruct Hc as [Hc _].
  apply andb_true_iff in Hc. destruct Hc as [H1 H2].
  apply Z.leb_le in H1, H2. fold size in H1, H2, Hv. fold lsb.
  assert (Hlsb : 0 <= lsb) by (unfold lsb; lia).
  split; [|split].
  - intros i Hi. apply Z.mul_pow2_bits_low. lia.
  - intros i Hi. apply Z.mul_pow2_bits_add. exact Hlsb.
  - intros i Hi.
    rewrite !Z.mul_pow2_bits by lia.
    replace (size + lsb - 1 - lsb) with (size - 1) by lia.
    assert (Hhigh : forall k j, 0 <= k < 2 ^ (size - 1) -> size - 1 <= j ->
                                Z.testbit k j = false).
    { intros k j Hk Hj.
      rewrite <- (Z.mod_small k (2 ^ (size - 1))) by exact Hk.
      apply Z.mod_pow2_bits_high. lia. }
    destruct (signedNumber c); cbn [andb].
    + apply andb_true_iff in Hv. destruct Hv as [Hlo Hhi].
      apply Z.leb_le in Hlo. apply Z.ltb_lt in Hhi.
      destruct (Z_lt_ge_dec v 0) as [Hneg|Hpos].
      * replace v with (Z.lnot (- v - 1)) by (unfold Z.lnot; lia).
        rewrite !Z.lnot_spec by lia.
        rewrite !Hhigh by lia. reflexivity.
      * rewrite !Hhigh by lia. reflexivity.
    + apply andb_true_iff in Hv. destruct Hv as [Hlo Hhi].
      apply Z.leb_le in Hlo. apply Z.ltb_lt in Hhi.
      rewrite <- (Z.mod_small v (2 ^ size)) by lia.
      apply Z.mod_pow2_bits_high. lia.
Qed.

(** C5.  In the bit-packed path every sample is shifted left by
    [lsb = rawWidth - compressedWidth] after its bits have been extracted,
    and its sign is extended at the restored width.  For channels whose
    compressed width is at least one bit and at most the raw width, the raw
    width at most 32 bits when the channel is signed and 31 when it is not,
    and for a buffer of whole blocks in which the samples are packed most
    significant bit first, [DecodeDataWithPacking] passes to the scaling,
    for every sample [v] of every channel, [v * 2 ^ lsb]: the [lsb] low
    bits are zero, the bits of [v] lie above them, and from the restored
    width [compressedWidth + lsb] up every bit of a signed sample equals
    the sign bit at position [compressedWidth + lsb - 1], while an unsigned
    sample is not extended.  [rawWidth] is [RawWidth chan]. *)
Theorem packed_samples_are_restored
    (info : DataFileInfo) (blocks : list (list (list Z))) :
  let chain := channelInfoChain info in
  let rbs := readBlockSize info in
  numberOfChannels info = Z.of_nat (List.length chain) ->
  forallb restorable chain = true ->
  0 <= rbs ->
  1 <= readBlockSizeInBytes info < 2 ^ 32 ->
  readBlockSizeInBytes info
  = (rbs * Z.of_nat (bits_per_sample chain) + 7) / 8 ->
  forallb (block_in_range chain (Z.to_nat rbs)) blocks = true ->
  Z.of_nat (List.length blocks) * rbs < 2 ^ 31 ->
  (exists cells,
      DecodeDataWithPacking info (flat_map (pack_block chain) blocks)
      = Some (cells, Z.of_nat (List.length blocks) * rbs)
      /\ map cell_val cells = flat_map (flat_map (restored_row chain)) blocks)
  /\ (forall c v,
        In c chain -> in_range c v = true ->
        let size := compressedSampleSizeInBits c in
        let lsb := RawWidth c - size in
        restored c v = v * 2 ^ lsb
        /\ (forall i, 0 <= i < lsb -> Z.testbit (restored c v) i = false)
        /\ (forall i, 0 <= i < size ->
                      Z.testbit (restored c v) (lsb + i) = Z.testbit v i)
        /\ (forall i, size + lsb <= i ->
                      Z.testbit (restored c v) i
                      = signedNumber c
                        && Z.testbit (restored c v) (size + lsb - 1))).
Proof.
  intros chain rbs Hn Hres Hrbs Hrbsb Htight Hblocks Hcount.
  split.
  - unfold DecodeDataWithPacking.
    rewrite (PackedBlocks_blocks info Hn Hrbs Hrbsb Htight).
    + exists (expect_blocks chain blocks 0). split.
      * fold rbs. rewrite Z.add_0_l, to_uInt32_small, to_long_small by lia.
        reflexivity.
      * apply (expect_blocks_restored chain (Z.to_nat rbs)); assumption.
    + apply blocks_in_range_well_formed. exact Hblocks.
    + apply Nat.le_refl.
    + lia.
  - intros c v Hc Hv size lsb.
    split; [reflexivity|].
    apply restored_bits; [|exact Hv].
    rewrite forallb_forall in Hres. apply Hres. exact Hc.
Qed.

Lemma packed_samples_are_restored_witness :
  exists cells,
    DecodeDataWithPacking
      (mkDataFileInfo (str "1.0.0") 0 (str "t") 2 2 5 [ch10in12; ch10in12u])
      (flat_map (pack_block [ch10in12; ch10in12u])
                [[[-512; 1023]; [100; 0]]; [[511; 1]; [-1; 512]]])
    = Some (cells, 4)
    /\ map cell_val cells = [-2048; 4092; 400; 0; 2044; 4; -4; 2048].
Proof.
  destruct (packed_samples_are_restored
              (mkDataFileInfo (str "1.0.0") 0 (str "t") 2 2 5
                              [ch10in12; ch10in12u])
              [[[-512; 1023]; [100; 0]]; [[511; 1]; [-1; 512]]])
    as [H _].
  - reflexivity.
  - reflexivity.
  - vm_compute. discriminate.
  - vm_compute. split; [discriminate|reflexivity].
  - reflexivity.
  - reflexivity.
  - vm_compute. reflexivity.
  - exact H.
Defined.

End PackedStreamFacts.

(** ** The unpacked decoder on streams of blocks *)

Module UnpackedStreamFacts.
Import C DAQmx Decoder Spec CFacts UnpackedFacts SignFacts UnpackedClaims
  CellFacts.

(** *** Samples of 16 bits *)

Lemma bytes_16_split v :
  let y := v mod 65536 in
  0 <= y mod 256 < 256 /\ 0 <= y / 256 < 256
  /\ y = y mod 256 + 256 * (y / 256).
Proof.
  intro y.
  pose proof (Z.mod_pos_bound v 65536 ltac:(lia)) as Hy. fold y in Hy.
  pose proof (Z.mod_pos_bound y 256 ltac:(lia)).
  pose proof (Z.div_mod y 256 ltac:(lia)).
  assert (0 <= y / 256 < 256).
  { split; [apply Z.div_pos; lia|apply Z.div_lt_upper_bound; lia]. }
  lia.
Qed.

Lemma read_16 c a b rest :
  rawSampleSizeInBits c = 16 ->
  0 <= a < 256 -> 0 <= b < 256 ->
  match compressionByteOrder c with
  | LittleEndian => ReadLittle 2 0 0 (a :: b :: rest)
  | BigEndian => ReadBig 2 0 (b :: a :: rest)
  end = (to_long (a + 256 * b), rest).
Proof.
  intros Hs Ha Hb.
  destruct (compressionByteOrder c).
  - cbn [ReadBig]. f_equal.
    rewrite (to_long_small (0 * 2 ^ 8 + b)) by lia. f_equal. lia.
  - cbn [ReadLittle]. f_equal.
    assert (Ea : shl32 a (0 * 8) = a).
    { unfold shl32. change (0 * 8) with 0. change (2 ^ 0) with 1.
      cbn [Z.leb Z.ltb Z.compare andb].
      rewrite Z.mul_1_r. apply to_uInt32_small. lia. }
    assert (Eb : shl32 b ((0 + 1) * 8) = b * 256).
    { unfold shl32. change ((0 + 1) * 8) with 8. change (2 ^ 8) with 256.
      cbn [Z.leb Z.ltb Z.compare andb].
      apply to_uInt32_small. lia. }
    rewrite Ea, Eb.
    rewrite (to_long_small a), Z.add_0_l, (to_long_small a) by lia.
    rewrite (to_long_small (b * 256)) by lia.
    f_equal. lia.
Qed.

(** Two bytes of a channel of 16 bits: the value they stand for, in two's
    complement when the channel is signed. *)
Lemma UnpackedValue_16 c v rest :
  channel_16 c = true -> in_range_16 c v = true ->
  UnpackedValue c (bytes_16 c v ++ rest) = (v, rest).
Proof.
  unfold channel_16, in_range_16. intros Hc Hv. apply Z.eqb_eq in Hc.
  destruct (bytes_16_split v) as (H0 & H1 & Hy).
  set (y := v mod 65536) in *.
  pose proof (read_16 c (y mod 256) (y / 256) rest Hc H0 H1) as Hread.
  unfold UnpackedValue, bytes_16. fold y. rewrite Hc.
  change (Z.to_nat (16 / 8)) with 2%nat.
  replace (match compressionByteOrder c with
           | BigEndian => ReadBig 2 0 (match compressionByteOrder c with
                                       | BigEndian => [y / 256; y mod 256]
                                       | LittleEndian => [y mod 256; y / 256]
                                       end ++ rest)
           | LittleEndian =>
               ReadLittle 2 0 0 (match compressionByteOrder c with
                                 | BigEndian => [y / 256; y mod 256]
                                 | LittleEndian => [y mod 256; y / 256]
                                 end ++ rest)
           end)
    with (to_long (y mod 256 + 256 * (y / 256)), rest)
    by (rewrite <- Hread; destruct (compressionByteOrder c); reflexivity).
  rewrite <- Hy. f_equal.
  change (shl32 1 (to_uInt32 (16 - 1))) with (2 ^ (16 - 1)).
  change (to_uInt32 (0xFFFFFFFF - shl32 1 (to_uInt32 (32 - 16)) + 1))
    with (to_uInt32 (2 ^ 32 - 2 ^ 16)).
  pose proof (Z.mod_pos_bound v 65536 ltac:(lia)) as Hyb. fold y in Hyb.
  rewrite ExtendSign_at_width by (change (2 ^ 16) with 65536; lia).
  change (16 <? 32) with true. rewrite andb_true_r.
  rewrite (testbit_top 15) by (change (2 ^ (15 + 1)) with 65536; lia).
  change (2 ^ 15) with 32768. change (2 ^ 16) with 65536.
  destruct (signedNumber c); cbn [andb].
  - apply andb_true_iff in Hv. destruct Hv as [Hlo Hhi].
    apply Z.leb_le in Hlo. apply Z.ltb_lt in Hhi.
    destruct (Z_lt_ge_dec v 0) as [Hneg|Hpos].
    + assert (E : y = v + 65536).
      { unfold y. symmetry. apply Z.mod_unique with (q := -1); lia. }
      rewrite E. destruct (Z.leb_spec 32768 (v + 65536)); lia.
    + assert (E : y = v) by (unfold y; apply Z.mod_small; lia).
      rewrite E. destruct (Z.leb_spec 32768 v); [lia|].
      apply to_long_small. lia.
  - apply andb_true_iff in Hv. destruct Hv as [Hlo Hhi].
    apply Z.leb_le in Hlo. apply Z.ltb_lt in Hhi.
    assert (E : y = v) by (unfold y; apply Z.mod_small; lia).
    rewrite E. apply to_long_small. lia.
Qed.

Lemma UnpackedChannels_16 : forall chain row iChan ns rest,
  forallb channel_16 chain = true ->
  row_in_range_16 chain row = true ->
  exists cells,
    UnpackedChannels (List.length chain) iChan chain ns
                     (sample_bytes_16 chain row ++ rest)
    = (cells, Next rest)
    /\ map cell_val cells = row.
Proof.
  induction chain as [|c chain IH]; intros [|v row] iChan ns rest Hc Hr;
    simpl in Hc, Hr; try discriminate.
  - exists []. split; reflexivity.
  - apply andb_true_iff in Hc. destruct Hc as [Hc Hcs].
    apply andb_true_iff in Hr. destruct Hr as [Hv Hr].
    cbn [List.length UnpackedChannels sample_bytes_16].
    rewrite <- app_assoc, (UnpackedValue_16 c v _ Hc Hv).
    destruct (IH row (to_uInt32 (iChan + 1)) ns rest Hcs Hr) as (cells & E & Hm).
    rewrite E. eexists. split; [reflexivity|].
    cbn [map cell_val]. f_equal. exact Hm.
Qed.

Section Stream16.

Variable info : DataFileInfo.
Let chain := channelInfoChain info.
Hypothesis Hchain : numberOfChannels info = Z.of_nat (List.length chain).
Hypothesis H16 : forallb channel_16 chain = true.

Lemma UnpackedSamples_16 : forall rows ns rest,
  0 <= ns < 2 ^ 32 ->
  forallb (row_in_range_16 chain) rows = true ->
  exists cells,
    UnpackedSamples (List.length rows) info ns
                    (flat_map (sample_bytes_16 chain) rows ++ rest)
    = (cells, Next (to_uInt32 (ns + Z.of_nat (List.length rows)), rest))
    /\ map cell_val cells = List.concat rows.
Proof.
  induction rows as [|row rows IH]; intros ns rest Hns Hr.
  - exists []. cbn. rewrite Z.add_0_r, to_uInt32_small by lia. auto.
  - cbn [forallb] in Hr. apply andb_true_iff in Hr. destruct Hr as [Hrow Hr].
    cbn [List.length UnpackedSamples flat_map].
    rewrite Hchain, Nat2Z.id. fold chain. rewrite <- app_assoc.
    destruct (UnpackedChannels_16 chain row 0 ns
                (flat_map (sample_bytes_16 chain) rows ++ rest) H16 Hrow)
      as (cells & E & Hm).
    rewrite E.
    destruct (IH (to_uInt32 (ns + 1)) rest (to_uInt32_range _) Hr)
      as (cells' & E' & Hm').
    rewrite E'. exists (cells ++ cells'). split.
    + rewrite to_uInt32_add_l.
      replace (ns + 1 + Z.of_nat (List.length rows))
        with (ns + Z.of_nat (Datatypes.S (List.length rows))) by lia.
      reflexivity.
    + rewrite map_app, Hm, Hm'. reflexivity.
Qed.

Lemma sample_bytes_16_length : forall chs row,
  row_in_range_16 chs row = true ->
  List.length (sample_bytes_16 chs row) = (2 * List.length chs)%nat.
Proof.
  induction chs as [|c chs IH]; intros [|v row] H; simpl in H;
    try discriminate; [reflexivity|].
  apply andb_true_iff in H. destruct H as [_ H].
  cbn [sample_bytes_16 List.length]. rewrite length_app, (IH row H).
  unfold bytes_16. destruct (compressionByteOrder c); cbn; lia.
Qed.

Hypothesis Hnc : 1 <= numberOfChannels info.
Hypothesis Hrbs : 1 <= readBlockSize info.

Lemma UnpackedBlocks_16 : forall blocks fuel ns,
  (List.length blocks <= fuel)%nat ->
  0 <= ns < 2 ^ 32 ->
  forallb (block_in_range_16 chain (Z.to_nat (readBlockSize info))) blocks
  = true ->
  exists cells,
    UnpackedBlocks fuel info ns
      (flat_map (flat_map (sample_bytes_16 chain)) blocks)
    = Some (cells,
            to_uInt32 (ns + Z.of_nat (List.length blocks)
                            * readBlockSize info))
    /\ map cell_val cells = List.concat (List.concat blocks).
Proof.
  induction blocks as [|rows blocks IH]; intros fuel ns Hf Hns Hb.
  - exists []. cbn. rewrite Z.add_0_r, to_uInt32_small by lia.
    destruct fuel; auto.
  - cbn [forallb] in Hb. apply andb_true_iff in Hb. destruct Hb as [Hrows Hb].
    unfold block_in_range_16 in Hrows.
    apply andb_true_iff in Hrows. destruct Hrows as [Hl Hrows].
    apply Nat.eqb_eq in Hl.
    destruct fuel as [|fuel]; [cbn in Hf; lia|].
    cbn [flat_map].
    destruct (UnpackedSamples_16 rows ns
                (flat_map (flat_map (sample_bytes_16 chain)) blocks) Hns Hrows)
      as (cells & E & Hm).
    rewrite Hl in E.
    (* the block is not empty *)
    destruct rows as [|row rows'] eqn:Erows;
      [cbn in Hl; clear - Hl Hrbs; lia|].
    rewrite <- Erows in *.
    assert (Hrow : row_in_range_16 chain row = true).
    { rewrite Erows in Hrows. cbn [forallb] in Hrows.
      apply andb_true_iff in Hrows. tauto. }
    pose proof (sample_bytes_16_length chain row Hrow) as Hlen.
    destruct (flat_map (sample_bytes_16 chain) rows
              ++ flat_map (flat_map (sample_bytes_16 chain)) blocks)
      as [|b tl] eqn:Ebuf.
    { apply (f_equal (@List.length Z)) in Ebuf. rewrite Erows in Ebuf.
      cbn [flat_map] in Ebuf. rewrite !length_app, Hlen in Ebuf.
      cbn in Ebuf. clear - Ebuf Hchain Hnc. unfold chain in *. lia. }
    cbn [UnpackedBlocks]. rewrite E.
    destruct (IH fuel (to_uInt32 (ns + Z.of_nat (Z.to_nat (readBlockSize info))))
                ltac:(cbn in Hf; lia) (to_uInt32_range _) Hb)
      as (cells' & E' & Hm').
    rewrite E'. exists (cells ++ cells'). split.
    + rewrite to_uInt32_add_l.
      replace (ns + Z.of_nat (Z.to_nat (readBlockSize info))
               + Z.of_nat (List.length blocks) * readBlockSize info)
        with (ns + Z.of_nat (List.length (rows :: blocks))
                   * readBlockSize info)
        by (cbn [List.length]; clear - Hrbs; lia).
      reflexivity.
    + rewrite map_app, Hm, Hm'. cbn [List.concat].
      rewrite concat_app. reflexivity.
Qed.

End Stream16.

(** X11.  Samples of 16 bits that are not packed are recovered: for
    channels of two bytes, signed or unsigned and in either byte order, and
    a buffer of whole blocks that holds the samples as two bytes each (two's
    complement for a negative sample), the unpacked decoder passes every
    sample to the scaling as the integer it is, in order, and counts every
    sample; one iteration of its outer loop for every block is enough. *)
Theorem unpacked_16_bit_samples_are_recovered
    (info : DataFileInfo) (blocks : list (list (list Z))) (fuel : nat) :
  let chain := channelInfoChain info in
  let rbs := readBlockSize info in
  numberOfChannels info = Z.of_nat (List.length chain) ->
  1 <= numberOfChannels info ->
  forallb channel_16 chain = true ->
  1 <= rbs ->
  forallb (block_in_range_16 chain (Z.to_nat rbs)) blocks = true ->
  Z.of_nat (List.length blocks) * rbs < 2 ^ 31 ->
  (List.length blocks <= fuel)%nat ->
  exists cells,
    DecodeDataWithoutPacking fuel info
      (flat_map (flat_map (sample_bytes_16 chain)) blocks)
    = Some (cells, Z.of_nat (List.length blocks) * rbs)
    /\ map cell_val cells = List.concat (List.concat blocks).
Proof.
  intros chain rbs Hchain Hnc H16 Hrbs Hb Hcount Hf.
  unfold DecodeDataWithoutPacking.
  destruct (UnpackedBlocks_16 info Hchain H16 Hnc Hrbs blocks fuel 0 Hf
              ltac:(lia) Hb) as (cells & E & Hm).
  fold chain in E. rewrite E. exists cells. split; [|exact Hm].
  fold rbs. rewrite Z.add_0_l, to_uInt32_small, to_long_small by lia.
  reflexivity.
Qed.

Lemma unpacked_16_bit_samples_are_recovered_witness :
  exists cells,
    DecodeDataWithoutPacking 2
      (mkDataFileInfo (str "1.0.0") 0 (str "t") 2 2 8 [ch16s; ch16ub])
      (flat_map (flat_map (sample_bytes_16 [ch16s; ch16ub]))
                [[[-1; 65535]; [-32768; 0]]; [[32767; 258]; [256; 1]]])
    = Some (cells, 4)
    /\ map cell_val cells = [-1; 65535; -32768; 0; 32767; 258; 256; 1].
Proof.
  apply (unpacked_16_bit_samples_are_recovered
           (mkDataFileInfo (str "1.0.0") 0 (str "t") 2 2 8 [ch16s; ch16ub])
           [[[-1; 65535]; [-32768; 0]]; [[32767; 258]; [256; 1]]] 2).
  - reflexivity.
  - vm_compute. discriminate.
  - reflexivity.
  - vm_compute. discriminate.
  - reflexivity.
  - vm_compute. reflexivity.
  - apply Nat.le_refl.
Defined.

(** *** Whole blocks *)

Lemma ReadLittle_app b : forall n iByte val a,
  (n <= List.length a)%nat ->
  ReadLittle n iByte val (a ++ b)
  = (fst (ReadLittle n iByte val a), snd (ReadLittle n iByte val a) ++ b).
Proof.
  induction n as [|n IH]; intros iByte val a Hn.
  - reflexivity.
  - destruct a as [|x a]; [cbn in Hn; lia|].
    cbn [ReadLittle app]. apply IH. cbn in Hn. lia.
Qed.

Lemma ReadBig_app b : forall n val a,
  (n <= List.length a)%nat ->
  ReadBig n val (a ++ b)
  = (fst (ReadBig n val a), snd (ReadBig n val a) ++ b).
Proof.
  induction n as [|n IH]; intros val a Hn.
  - reflexivity.
  - destruct a as [|x a]; [cbn in Hn; lia|].
    cbn [ReadBig app]. apply IH. cbn in Hn. lia.
Qed.

Lemma UnpackedValue_app c a b :
  (Z.to_nat (rawSampleSizeInBits c / 8) <= List.length a)%nat ->
  UnpackedValue c (a ++ b)
  = (fst (UnpackedValue c a), snd (UnpackedValue c a) ++ b).
Proof.
  intro Hn. unfold UnpackedValue.
  destruct (compressionByteOrder c).
  - rewrite ReadBig_app by exact Hn.
    destruct (ReadBig _ 0 a). reflexivity.
  - rewrite ReadLittle_app by exact Hn.
    destruct (ReadLittle _ 0 0 a). reflexivity.
Qed.

Lemma UnpackedChannels_app b : forall chain iChan ns a,
  (bytes_per_sample chain <= List.length a)%nat ->
  UnpackedChannels (List.length chain) iChan chain ns (a ++ b)
  = (fst (UnpackedChannels (List.length chain) iChan chain ns a),
     Next (skipn (bytes_per_sample chain) a ++ b)).
Proof.
  induction chain as [|c chain IH]; intros iChan ns a Hn.
  - reflexivity.
  - cbn [bytes_per_sample fold_right] in Hn |- *.
    fold (bytes_per_sample chain) in Hn |- *.
    cbn [List.length UnpackedChannels].
    rewrite UnpackedValue_app by lia.
    pose proof (UnpackedValue_rest c a) as Hrest.
    destruct (UnpackedValue c a) as [val a']. cbn [fst snd] in *. subst a'.
    rewrite IH by (rewrite length_skipn; lia).
    destruct (UnpackedChannels (List.length chain) (to_uInt32 (iChan + 1))
                               chain ns _) as [cells out].
    cbn [fst]. rewrite skipn_skipn.
    rewrite (Nat.add_comm (bytes_per_sample chain)). reflexivity.
Qed.

Section Blocks.

Variable info : DataFileInfo.
Let chain := channelInfoChain info.
Let nc := List.length chain.
Let bps := bytes_per_sample chain.
Hypothesis Hchain : numberOfChannels info = Z.of_nat nc.
Hypothesis Hnc : 1 <= numberOfChannels info < 2 ^ 32.

Lemma UnpackedSamples_app b : forall n ns a,
  (n * bps <= List.length a)%nat ->
  UnpackedSamples n info ns (a ++ b)
  = (fst (UnpackedSamples n info ns a),
     Next (match snd (UnpackedSamples n info ns a) with
           | Next (ns', _) | GotoError (ns', _) => ns'
           end,
           skipn (n * bps) a ++ b)).
Proof.
  induction n as [|n IH]; intros ns a Hn.
  - reflexivity.
  - cbn [UnpackedSamples]. rewrite Hchain, Nat2Z.id. fold chain.
    unfold nc. rewrite UnpackedChannels_app by (fold bps; lia).
    destruct (UnpackedChannels_rest chain 0 ns a) as (cells & E & _).
    rewrite E. cbn [fst]. fold bps.
    rewrite IH by (rewrite length_skipn; lia).
    destruct (UnpackedSamples n info (to_uInt32 (ns + 1)) (skipn bps a))
      as [cells' out'].
    cbn [fst snd]. rewrite skipn_skipn.
    rewrite (Nat.add_comm (n * bps)). reflexivity.
Qed.

Lemma UnpackedChannels_later d : forall n iChan chs ns rd,
  UnpackedChannels n iChan chs (ns + d) rd
  = (map (later d) (fst (UnpackedChannels n iChan chs ns rd)),
     snd (UnpackedChannels n iChan chs ns rd)).
Proof.
  induction n as [|n IH]; intros iChan chs ns rd.
  - reflexivity.
  - cbn [UnpackedChannels]. destruct chs as [|c next]; [reflexivity|].
    destruct (UnpackedValue c rd) as [val rd'].
    rewrite IH.
    destruct (UnpackedChannels n (to_uInt32 (iChan + 1)) next ns rd')
      as [cells out].
    reflexivity.
Qed.

Variable d : Z.
Hypothesis Hd : 0 <= d.

Lemma UnpackedSamples_later : forall n ns rd,
  0 <= ns -> ns + d + Z.of_nat n < 2 ^ 32 ->
  UnpackedSamples n info (ns + d) rd
  = (map (later d) (fst (UnpackedSamples n info ns rd)),
     match snd (UnpackedSamples n info ns rd) with
     | Next (ns', r) => Next (ns' + d, r)
     | GotoError (ns', r) => GotoError (ns' + d, r)
     end).
Proof.
  induction n as [|n IH]; intros ns rd Hns Hb.
  - reflexivity.
  - cbn [UnpackedSamples]. rewrite Hchain, Nat2Z.id. fold chain.
    rewrite UnpackedChannels_later.
    destruct (UnpackedChannels nc 0 chain ns rd) as [cells [rd'|rd']];
      cbn [fst snd]; [|reflexivity].
    rewrite (to_uInt32_small (ns + 1)), (to_uInt32_small (ns + d + 1)) by lia.
    replace (ns + d + 1) with (ns + 1 + d) by lia.
    rewrite IH by lia.
    destruct (UnpackedSamples n info (ns + 1) rd') as [cells' out'].
    cbn [fst snd]. rewrite map_app. reflexivity.
Qed.

Lemma UnpackedBlocks_later : forall fuel ns rd cells r,
  UnpackedBlocks fuel info ns rd = Some (cells, r) ->
  0 <= ns -> ns + d + Z.of_nat (List.length cells) < 2 ^ 32 ->
  UnpackedBlocks fuel info (ns + d) rd = Some (map (later d) cells, r + d).
Proof.
  assert (Hnc1 : (1 <= nc)%nat) by (clear - Hchain Hnc; lia).
  induction fuel as [|fuel IH]; intros ns rd cells r H Hns Hb.
  - destruct rd; [|discriminate]. cbn in H |- *. inversion H. reflexivity.
  - destruct rd as [|b rd].
    + cbn in H |- *. inversion H. reflexivity.
    + cbn [UnpackedBlocks] in H |- *.
      remember (Z.to_nat (readBlockSize info)) as n eqn:En.
      destruct (UnpackedSamples_length info Hchain n ns (b :: rd))
        as (cells1 & ns1 & rd1 & E1 & Hl1).
      rewrite E1 in H.
      destruct (UnpackedBlocks fuel info ns1 rd1)
        as [[cells' r']|] eqn:E'; [|discriminate].
      inversion H. subst cells r. clear H.
      rewrite length_app, Hl1 in Hb. fold chain nc in Hb.
      assert (Hn : (n <= n * nc)%nat) by nia.
      destruct (UnpackedSamples_index info Hchain Hnc n ns (b :: rd) Hns
                  ltac:(lia)) as (rd2 & E2 & _).
      rewrite E1 in E2. cbn [fst] in E2.
      apply pair_equal_spec in E2. destruct E2 as [_ E2].
      inversion E2. subst ns1 rd2. clear E2.
      rewrite UnpackedSamples_later by lia.
      rewrite E1. cbn [fst snd].
      rewrite (IH _ _ _ _ E') by lia.
      rewrite map_app. reflexivity.
Qed.

End Blocks.

(** X12.  The unpacked decoder, too, takes a stream apart block by block:
    decoding the bytes of a whole block followed by more data gives the
    cells of the block, as they are when the block is decoded alone,
    followed by the cells of the rest, as they are when the rest is decoded
    alone, [ReadBlockSize] samples later. *)
Theorem unpacked_stream_is_decoded_block_by_block
    (info : DataFileInfo) (blk rest : list Z) (fuel : nat)
    (cells2 : list Cell) (n2 : Z) :
  let chain := channelInfoChain info in
  let rbs := readBlockSize info in
  numberOfChannels info = Z.of_nat (List.length chain) ->
  1 <= numberOfChannels info < 2 ^ 32 ->
  1 <= rbs ->
  (1 <= bytes_per_sample chain)%nat ->
  Z.of_nat (List.length blk) = rbs * Z.of_nat (bytes_per_sample chain) ->
  DecodeDataWithoutPacking fuel info rest = Some (cells2, n2) ->
  rbs + Z.of_nat (List.length cells2) < 2 ^ 31 ->
  exists cells1,
    DecodeDataWithoutPacking 1 info blk = Some (cells1, rbs)
    /\ DecodeDataWithoutPacking (S fuel) info (blk ++ rest)
       = Some (cells1 ++ map (later rbs) cells2, rbs + n2).
Proof.
  intros chain rbs Hchain Hnc Hrbs Hbps Hlen H2 Hb.
  set (n := Z.to_nat rbs).
  set (bps := bytes_per_sample chain) in *.
  assert (Hlen' : List.length blk = (n * bps)%nat) by (unfold n; nia).
  destruct (UnpackedSamples_length info Hchain n 0 blk)
    as (cells1 & ns1 & rd1 & E1 & Hl1).
  destruct (UnpackedSamples_rest info n 0 blk Hchain ltac:(lia))
    as (cells1' & E1').
  rewrite E1 in E1'. apply pair_equal_spec in E1'. destruct E1' as [_ E1'].
  inversion E1'. subst ns1 rd1. clear E1'.
  fold chain bps in E1. rewrite <- Hlen', skipn_all in E1.
  rewrite to_uInt32_small in E1 by (unfold n; lia).
  replace (Z.of_nat n) with rbs in E1 by (unfold n; lia).
  assert (Hblk : exists b tl, blk = b :: tl).
  { destruct blk as [|b tl]; [cbn in Hlen'; nia|eauto]. }
  destruct Hblk as (b & tl & Eblk).
  exists cells1. split.
  - unfold DecodeDataWithoutPacking. rewrite Eblk. cbn [UnpackedBlocks].
    rewrite <- Eblk. fold rbs n. rewrite E1.
    rewrite app_nil_r, to_long_small by (clear - Hb Hrbs; lia). reflexivity.
  - unfold DecodeDataWithoutPacking in H2 |- *.
    destruct (UnpackedBlocks fuel info 0 rest) as [[cells2' r2]|] eqn:E2;
      [|discriminate].
    inversion H2. subst cells2' n2. clear H2.
    pose proof E2 as E2i.
    apply (UnpackedBlocks_index info Hchain Hnc) in E2i;
      [|lia|clear - Hb Hrbs; lia].
    destruct E2i as (k & -> & Hi).
    apply (f_equal (@List.length (Z * Z))) in Hi.
    rewrite length_map, sample_rows_length in Hi.
    assert (Hk : Z.of_nat k <= Z.of_nat (List.length cells2)).
    { assert (1 <= List.length (channelInfoChain info))%nat
        by (clear - Hchain Hnc; unfold chain in Hchain; lia).
      clear - Hi H. nia. }
    rewrite Eblk. cbn [app UnpackedBlocks]. rewrite app_comm_cons, <- Eblk.
    fold rbs n.
    rewrite (UnpackedSamples_app info Hchain rest n 0 blk)
      by (fold chain bps; clear - Hlen'; lia).
    rewrite E1. cbn [fst snd]. fold chain bps.
    rewrite <- Hlen', skipn_all. cbn [app].
    replace rbs with (0 + rbs) at 1 by (clear; lia).
    rewrite (UnpackedBlocks_later info Hchain Hnc rbs
               ltac:(clear - Hrbs; lia) _ _ _ _ _ E2)
      by (clear - Hb Hrbs; lia).
    rewrite !to_long_small by (clear - Hb Hrbs Hk; lia).
    f_equal. f_equal. clear. lia.
Qed.

Lemma unpacked_stream_is_decoded_block_by_block_witness :
  exists cells2,
    DecodeDataWithoutPacking 1 info_unpacked_2 [5; 0; 6] = Some (cells2, 2)
    /\ exists cells1,
         DecodeDataWithoutPacking 1 info_unpacked_2 [1; 0; 2; 0]
         = Some (cells1, 2)
         /\ DecodeDataWithoutPacking 2 info_unpacked_2
              ([1; 0; 2; 0] ++ [5; 0; 6])
            = Some (cells1 ++ map (later 2) cells2, 2 + 2).
Proof.
  eexists. split; [vm_compute; reflexivity|].
  apply (unpacked_stream_is_decoded_block_by_block
           info_unpacked_2 [1; 0; 2; 0] [5; 0; 6] 1 _ 2).
  - reflexivity.
  - vm_compute. split; [discriminate|reflexivity].
  - vm_compute. discriminate.
  - apply Nat.leb_le. reflexivity.
  - reflexivity.
  - vm_compute. reflexivity.
  - vm_compute. reflexivity.
Defined.

(** *** Bytes of any width *)

Lemma sum_shifted_range : forall bytes i,
  forallb is_byte bytes = true -> 0 <= i ->
  0 <= sum_shifted bytes i
  /\ sum_shifted bytes i + 2 ^ (8 * i)
     <= 2 ^ (8 * (i + Z.of_nat (List.length bytes))).
Proof.
  induction bytes as [|b bytes IH]; intros i Hb Hi.
  - cbn [sum_shifted List.length]. rewrite Z.add_0_r. lia.
  - cbn [forallb] in Hb. apply andb_true_iff in Hb. destruct Hb as [Hb Hbs].
    unfold is_byte in Hb. apply andb_true_iff in Hb. destruct Hb as [H0 H1].
    apply Z.leb_le in H0. apply Z.ltb_lt in H1.
    cbn [sum_shifted]. destruct (IH (i + 1) Hbs ltac:(lia)) as [IH0 IH1].
    rewrite Z.shiftl_mul_pow2 by lia.
    replace (8 * (i + Z.of_nat (List.length (b :: bytes))))
      with (8 * (i + 1 + Z.of_nat (List.length bytes)))
      by (cbn [List.length]; lia).
    assert (E : 2 ^ (8 * (i + 1)) = 256 * 2 ^ (8 * i)).
    { replace (8 * (i + 1)) with (8 + 8 * i) by lia.
      rewrite Z.pow_add_r by lia. reflexivity. }
    assert (0 < 2 ^ (8 * i)) by (apply Z.pow_pos_nonneg; lia).
    rewrite E in IH1. split; nia.
Qed.

Lemma big_endian_range : forall bytes v,
  forallb is_byte bytes = true -> 0 <= v ->
  0 <= big_endian bytes v
  /\ big_endian bytes v + 1 <= (v + 1) * 256 ^ Z.of_nat (List.length bytes).
Proof.
  induction bytes as [|b bytes IH]; intros v Hb Hv.
  - cbn. lia.
  - cbn [forallb] in Hb. apply andb_true_iff in Hb. destruct Hb as [Hb Hbs].
    unfold big_endian. cbn [fold_left].
    fold (big_endian bytes (Z.lor (Z.shiftl v 8) b)).
    rewrite lor_shift_byte by exact Hb.
    unfold is_byte in Hb. apply andb_true_iff in Hb. destruct Hb as [H0 H1].
    apply Z.leb_le in H0. apply Z.ltb_lt in H1.
    change (2 ^ 8) with 256.
    destruct (IH (v * 256 + b) Hbs ltac:(lia)) as [IH0 IH1].
    replace (Z.of_nat (List.length (b :: bytes)))
      with (1 + Z.of_nat (List.length bytes)) by (cbn [List.length]; lia).
    rewrite Z.pow_add_r by lia. change (256 ^ 1) with 256.
    assert (0 < 256 ^ Z.of_nat (List.length bytes))
      by (apply Z.pow_pos_nonneg; lia).
    split; nia.
Qed.

Lemma channel_bytes_spec c bytes :
  channel_bytes c bytes = true ->
  Z.to_nat (rawSampleSizeInBits c / 8) = List.length bytes
  /\ (1 <= List.length bytes <= 4)%nat
  /\ forallb is_byte bytes = true.
Proof.
  unfold channel_bytes. intro H.
  apply andb_true_iff in H. destruct H as [H Hb].
  apply andb_true_iff in H. destruct H as [H H4].
  apply andb_true_iff in H. destruct H as [Hn H1].
  apply Z.eqb_eq in Hn. apply Nat.leb_le in H1, H4.
  split; [lia|]. split; [lia|exact Hb].
Qed.

(** The bytes of a channel of fewer than four bytes fit a [long]. *)
Lemma accumulated_small c bytes :
  forallb is_byte bytes = true -> (List.length bytes < 4)%nat ->
  0 <= accumulated c bytes < 2 ^ 31.
Proof.
  intros Hb Hn. unfold accumulated.
  assert (Hp : 256 ^ Z.of_nat (List.length bytes) <= 256 ^ 3)
    by (apply Z.pow_le_mono_r; lia).
  destruct (compressionByteOrder c).
  - destruct (big_endian_range bytes 0 Hb ltac:(lia)) as [H0 H1]. lia.
  - destruct (sum_shifted_range bytes 0 Hb ltac:(lia)) as [H0 H1].
    change (8 * 0) with 0 in H1. change (2 ^ 0) with 1 in H1.
    rewrite Z.add_0_l in H1.
    replace (8 * Z.of_nat (List.length bytes))
      with (Z.of_nat (List.length bytes) * 8) in H1 by lia.
    rewrite Z.pow_mul_r in H1 by lia.
    assert (Hq : (2 ^ Z.of_nat (List.length bytes)) ^ 8
                 = 256 ^ Z.of_nat (List.length bytes)).
    { rewrite <- Z.pow_mul_r by lia.
      replace (Z.of_nat (List.length bytes) * 8)
        with (8 * Z.of_nat (List.length bytes)) by lia.
      rewrite Z.pow_mul_r by lia. reflexivity. }
    lia.
Qed.

Lemma UnpackedValue_bytes c bytes rest :
  channel_bytes c bytes = true ->
  UnpackedValue c (bytes ++ rest) = (unpacked_raw c bytes, rest).
Proof.
  intro H. destruct (channel_bytes_spec c bytes H) as (Hn & Hl & Hb).
  unfold UnpackedValue, unpacked_raw, accumulated. rewrite Hn.
  destruct (compressionByteOrder c).
  - rewrite ReadBig_app by apply Nat.le_refl.
    assert (E : ReadBig (List.length bytes) 0 bytes
                = (to_long (big_endian (firstn (List.length bytes) bytes) 0),
                   skipn (List.length bytes) bytes))
      by exact (ReadBig_fold (List.length bytes) 0 bytes Hb).
    rewrite E, firstn_all, skipn_all. reflexivity.
  - rewrite ReadLittle_app by apply Nat.le_refl.
    assert (E : ReadLittle (List.length bytes) 0 0 bytes
                = (to_long (sum_shifted (firstn (List.length bytes) bytes) 0),
                   skipn (List.length bytes) bytes))
      by exact (ReadLittle_sum (List.length bytes) 0 0 bytes
                  ltac:(lia) ltac:(lia)).
    rewrite E, firstn_all, skipn_all. reflexivity.
Qed.

Lemma UnpackedChannels_bytes : forall chain row iChan ns rest,
  0 <= iChan -> iChan + Z.of_nat (List.length chain) < 2 ^ 32 ->
  sample_of_bytes chain row = true ->
  UnpackedChannels (List.length chain) iChan chain ns
                   (List.concat row ++ rest)
  = (unpacked_sample chain row iChan ns, Next rest).
Proof.
  induction chain as [|c chain IH]; intros [|bytes row] iChan ns rest Hi Hb Hr;
    cbn [sample_of_bytes] in Hr; try discriminate.
  - reflexivity.
  - apply andb_true_iff in Hr. destruct Hr as [Hc Hr].
    cbn [List.length] in Hb.
    cbn [List.length UnpackedChannels List.concat unpacked_sample].
    rewrite <- app_assoc, (UnpackedValue_bytes c bytes _ Hc).
    rewrite to_uInt32_small by lia.
    rewrite (IH row (iChan + 1) ns rest) by (try exact Hr; lia).
    reflexivity.
Qed.

Lemma sample_of_bytes_nonempty : forall chain row,
  (1 <= List.length chain)%nat ->
  sample_of_bytes chain row = true -> List.concat row <> [].
Proof.
  intros [|c chain] [|bytes row] Hn Hr; cbn [sample_of_bytes] in Hr;
    try discriminate; [cbn in Hn; lia|].
  apply andb_true_iff in Hr. destruct Hr as [Hc _].
  destruct (channel_bytes_spec c bytes Hc) as (_ & Hl & _).
  destruct bytes; [cbn in Hl; lia|]. discriminate.
Qed.

Lemma unpacked_samples_app chain : forall r1 r2 ns,
  unpacked_samples chain (r1 ++ r2) ns
  = unpacked_samples chain r1 ns
    ++ unpacked_samples chain r2 (ns + Z.of_nat (List.length r1)).
Proof.
  induction r1 as [|row r1 IH]; intros r2 ns.
  - cbn. rewrite Z.add_0_r. reflexivity.
  - cbn [app unpacked_samples List.length]. rewrite IH, <- app_assoc.
    do 3 f_equal. lia.
Qed.

Section Bytes.

Variable info : DataFileInfo.
Let chain := channelInfoChain info.
Hypothesis Hchain : numberOfChannels info = Z.of_nat (List.length chain).
Hypothesis Hnc : 1 <= numberOfChannels info < 2 ^ 32.

Lemma UnpackedSamples_bytes : forall rows ns rest,
  0 <= ns -> ns + Z.of_nat (List.length rows) < 2 ^ 32 ->
  forallb (sample_of_bytes chain) rows = true ->
  UnpackedSamples (List.length rows) info ns
                  (flat_map (@List.concat Z) rows ++ rest)
  = (unpacked_samples chain rows ns,
     Next (ns + Z.of_nat (List.length rows), rest)).
Proof.
  induction rows as [|row rows IH]; intros ns rest Hns Hb Hr.
  - cbn. rewrite Z.add_0_r. reflexivity.
  - cbn [forallb] in Hr. apply andb_true_iff in Hr. destruct Hr as [Hrow Hr].
    cbn [List.length] in Hb.
    cbn [List.length UnpackedSamples flat_map unpacked_samples].
    rewrite Hchain, Nat2Z.id. fold chain. rewrite <- app_assoc.
    rewrite UnpackedChannels_bytes
      by (try exact Hrow; unfold chain in *; lia).
    rewrite to_uInt32_small by lia.
    rewrite IH by (try exact Hr; lia).
    do 3 f_equal. lia.
Qed.

Hypothesis Hrbs : 1 <= readBlockSize info.

Lemma UnpackedBlocks_bytes : forall k rows fuel ns,
  List.length rows = (k * Z.to_nat (readBlockSize info))%nat ->
  (k <= fuel)%nat ->
  0 <= ns -> ns + Z.of_nat (List.length rows) < 2 ^ 32 ->
  forallb (sample_of_bytes chain) rows = true ->
  UnpackedBlocks fuel info ns (flat_map (@List.concat Z) rows)
  = Some (unpacked_samples chain rows ns,
          ns + Z.of_nat (List.length rows)).
Proof.
  set (n := Z.to_nat (readBlockSize info)).
  assert (Hn : (1 <= n)%nat) by (unfold n; lia).
  induction k as [|k IH]; intros rows fuel ns Hl Hf Hns Hb Hr.
  - destruct rows; [|cbn in Hl; lia].
    cbn. rewrite Z.add_0_r. destruct fuel; reflexivity.
  - destruct fuel as [|fuel]; [lia|].
    rewrite <- (firstn_skipn n rows) in Hr |- *.
    set (r1 := firstn n rows) in *. set (r2 := skipn n rows) in *.
    assert (Hl1 : List.length r1 = n)
      by (unfold r1; rewrite length_firstn; cbn in Hl; fold n in Hl; lia).
    assert (Hl2 : List.length r2 = (k * n)%nat)
      by (unfold r2; rewrite length_skipn; cbn in Hl; fold n in Hl; lia).
    rewrite forallb_app in Hr. apply andb_true_iff in Hr.
    destruct Hr as [Hr1 Hr2].
    rewrite flat_map_app, unpacked_samples_app, length_app.
    assert (Hlen : List.length rows = (n + k * n)%nat)
      by (cbn in Hl; fold n in Hl; exact Hl).
    pose proof (UnpackedSamples_bytes r1 ns
                  (flat_map (@List.concat Z) r2) Hns ltac:(lia) Hr1) as E.
    rewrite Hl1 in E.
    destruct (flat_map (@List.concat Z) r1 ++ flat_map (@List.concat Z) r2)
      as [|b tl] eqn:Ebuf.
    { exfalso. destruct r1 as [|row r1']; [cbn in Hl1; lia|].
      cbn [forallb] in Hr1. apply andb_true_iff in Hr1.
      destruct Hr1 as [Hrow _].
      apply (sample_of_bytes_nonempty chain row);
        [unfold chain in *; lia|exact Hrow|].
      cbn [flat_map] in Ebuf.
      destruct (List.concat row); [reflexivity|discriminate]. }
    cbn [UnpackedBlocks]. fold n. rewrite E.
    rewrite (IH r2 fuel (ns + Z.of_nat n)) by (try assumption; lia).
    rewrite Hl1. do 2 f_equal. lia.
Qed.

End Bytes.

(** C9.  The unpacked decoder takes the samples of a buffer in order and,
    within a sample, the channels in the order of the header; for every
    channel it reads [rawSampleSizeInBits / 8] bytes and accumulates them,
    as a 32-bit integer, to [sum(byte[i] << (8*i))] when the byte order is
    little endian and by [value = (value << 8) | byte[i]] when it is big
    endian.  For channels of one to four bytes and a buffer of whole
    blocks, [DecodeDataWithoutPacking] makes exactly the assignments
    [unpacked_samples]: to [data[iChan][iSamp]], the polynomial at the
    accumulated value after the sign extension of this path.  For an
    unsigned channel that value is the accumulated one, the sum itself
    below four bytes.  With two channels of 16 bits, little endian,
    coefficients [0.0; 1.0], the bytes [01 00 02 00] decode to 1.0 for
    sample 0 of channel 0 and 2.0 for sample 0 of channel 1. *)
Theorem unpacked_bytes_are_accumulated
    (info : DataFileInfo) (rows : list (list (list Z))) (blocks fuel : nat) :
  let chain := channelInfoChain info in
  let rbs := readBlockSize info in
  numberOfChannels info = Z.of_nat (List.length chain) ->
  1 <= numberOfChannels info < 2 ^ 32 ->
  1 <= rbs ->
  forallb (sample_of_bytes chain) rows = true ->
  Z.of_nat (List.length rows) = Z.of_nat blocks * rbs ->
  Z.of_nat (List.length rows) < 2 ^ 31 ->
  (blocks <= fuel)%nat ->
  DecodeDataWithoutPacking fuel info (flat_map (@List.concat Z) rows)
  = Some (unpacked_samples chain rows 0, Z.of_nat (List.length rows))
  /\ (forall c bytes,
        channel_bytes c bytes = true -> signedNumber c = false ->
        unpacked_raw c bytes = to_long (accumulated c bytes)
        /\ ((List.length bytes < 4)%nat ->
            unpacked_raw c bytes = accumulated c bytes))
  /\ (forall info2 c0 c1 fuel2,
        channelInfoChain info2 = [c0; c1] ->
        numberOfChannels info2 = 2 ->
        1 <= readBlockSize info2 < 2 ^ 32 ->
        scenario_channel c0 -> scenario_channel c1 ->
        (1 <= fuel2)%nat ->
        exists cells numSamples,
          DecodeDataWithoutPacking fuel2 info2 [0x01; 0x00; 0x02; 0x00]
          = Some (cells, numSamples)
          /\ data_at cells 0 0 = Some 1%float
          /\ data_at cells 1 0 = Some 2%float).
Proof.
  intros chain rbs Hchain Hnc Hrbs Hrows Hlen Hsmall Hfuel.
  split; [|split].
  - unfold DecodeDataWithoutPacking.
    assert (Hl : List.length rows
                 = (blocks * Z.to_nat (readBlockSize info))%nat).
    { apply Nat2Z.inj. rewrite Nat2Z.inj_mul, Z2Nat.id by lia. exact Hlen. }
    rewrite (UnpackedBlocks_bytes info Hchain Hnc Hrbs blocks rows fuel 0
               Hl Hfuel ltac:(lia) ltac:(lia) Hrows).
    rewrite Z.add_0_l, to_long_small by lia. reflexivity.
  - intros c bytes Hc Hs.
    assert (E : unpacked_raw c bytes = to_long (accumulated c bytes)).
    { unfold unpacked_raw, ExtendSign. rewrite Hs. reflexivity. }
    split; [exact E|]. intro Hl. rewrite E.
    destruct (channel_bytes_spec c bytes Hc) as (_ & _ & Hb).
    pose proof (accumulated_small c bytes Hb Hl).
    apply to_long_small. lia.
  - intros info2 c0 c1 fuel2. apply scenario_is_decoded.
Qed.

Lemma unpacked_bytes_are_accumulated_witness :
  DecodeDataWithoutPacking 2
    (mkDataFileInfo (str "1.0.0") 0 (str "t") 2 2 10 [ch16s; ch24ub])
    [0x34; 0x12; 1; 2; 3;  0xFF; 0xFF; 0xFF; 0; 0;
     1; 0; 2; 0; 0;  0; 0x80; 0; 0; 0x80]
  = Some ([mkCell 0 0 0x1234 4660%float; mkCell 1 0 0x010203 66051%float;
           mkCell 0 1 (-1) (-1)%float; mkCell 1 1 0xFF0000 16711680%float;
           mkCell 0 2 1 1%float; mkCell 1 2 0x020000 131072%float;
           mkCell 0 3 (-32768) (-32768)%float; mkCell 1 3 0x80 128%float],
          4).
Proof.
  destruct (unpacked_bytes_are_accumulated
              (mkDataFileInfo (str "1.0.0") 0 (str "t") 2 2 10
                              [ch16s; ch24ub])
              [[[0x34; 0x12]; [1; 2; 3]]; [[0xFF; 0xFF]; [0xFF; 0; 0]];
               [[1; 0]; [2; 0; 0]]; [[0; 0x80]; [0; 0; 0x80]]]
              2 2)
    as [H _].
  - reflexivity.
  - vm_compute. split; [discriminate|reflexivity].
  - vm_compute. discriminate.
  - reflexivity.
  - reflexivity.
  - vm_compute. reflexivity.
  - apply Nat.le_refl.
  - exact H.
Defined.

End UnpackedStreamFacts.

(** ** The encoder: block size, header and stream *)

Module EncoderStreamFacts.
Import C DAQmx Encoder Spec CFacts EncoderFacts.

(** *** Decimal numbers *)

Lemma decimal_value_fold ds : decimal_value ds = fold_left decimal_step ds 0.
Proof. reflexivity. Qed.

Lemma uint_chars_acc : forall d acc,
  fold_left decimal_step (uint_chars d) (Z.pos acc)
  = Z.pos (Pos.of_uint_acc d acc).
Proof.
  induction d; intro acc; cbn [Pos.of_uint_acc]; try reflexivity;
    unfold uint_chars in *;
    cbn [DecimalString.NilEmpty.string_of_uint list_ascii_of_string fold_left];
    rewrite <- IHd; f_equal;
    unfold decimal_step, byte_of_ascii;
    cbn -[Z.mul Z.add Z.sub Pos.mul Pos.add]; lia.
Qed.

Lemma uint_chars_value : forall d,
  fold_left decimal_step (uint_chars d) 0 = Z.of_N (Pos.of_uint d).
Proof.
  induction d; cbn [Pos.of_uint]; try reflexivity;
    unfold uint_chars in *;
    cbn [DecimalString.NilEmpty.string_of_uint list_ascii_of_string fold_left];
    try exact IHd;
    cbn [Z.of_N]; rewrite <- (uint_chars_acc d); reflexivity.
Qed.

Lemma uint_chars_digits : forall d, forallb isdigit (uint_chars d) = true.
Proof.
  induction d; try reflexivity; unfold uint_chars in *;
    cbn [DecimalString.NilEmpty.string_of_uint list_ascii_of_string forallb];
    rewrite IHd; reflexivity.
Qed.

Lemma decimal_pos p : decimal (Z.pos p) = uint_chars (Pos.to_uint p).
Proof.
  unfold decimal, uint_chars. cbn [Z.to_int DecimalString.NilZero.string_of_int].
  unfold DecimalString.NilZero.string_of_uint.
  pose proof (DecimalPos.Unsigned.to_uint_nonnil p) as Hn.
  destruct (Pos.to_uint p); try reflexivity. contradiction.
Qed.

(** What ["%d"] and ["%u"] print for a number that is not negative: digits,
    at least one, that read back as the number. *)
Lemma decimal_spec z :
  0 <= z ->
  decimal z <> []
  /\ forallb isdigit (decimal z) = true
  /\ decimal_value (decimal z) = z.
Proof.
  intro Hz. destruct z as [|p|p]; [| |lia].
  - repeat split. discriminate.
  - rewrite decimal_pos. split; [|split].
    + intro E. apply (f_equal decimal_value) in E.
      rewrite decimal_value_fold, uint_chars_value,
        DecimalPos.Unsigned.of_to in E. discriminate.
    + apply uint_chars_digits.
    + rewrite decimal_value_fold, uint_chars_value,
        DecimalPos.Unsigned.of_to. reflexivity.
Qed.

Lemma decimal_length z : 0 <= z -> (1 <= List.length (decimal z))%nat.
Proof.
  intro Hz. destruct (decimal_spec z Hz) as (Hn & _).
  destruct (decimal z); [contradiction|cbn; lia].
Qed.

Lemma decimal_nonempty z : (1 <= List.length (decimal z))%nat.
Proof.
  destruct z as [|p|p].
  - cbn. lia.
  - apply decimal_length. lia.
  - unfold decimal. cbn [Z.to_int DecimalString.NilZero.string_of_int
                         list_ascii_of_string List.length]. lia.
Qed.

Lemma fixed_decimal_digits : forall w z,
  0 <= z -> forallb isdigit (fixed_decimal w z) = true.
Proof.
  induction w as [|w IH]; intros z Hz; [reflexivity|].
  cbn [fixed_decimal]. rewrite forallb_app, IH by (apply Z.div_pos; lia).
  cbn [forallb andb]. rewrite andb_true_r.
  pose proof (Z.mod_pos_bound z 10 ltac:(lia)) as Hm.
  assert (Hd : z mod 10 = 0 \/ z mod 10 = 1 \/ z mod 10 = 2 \/ z mod 10 = 3
               \/ z mod 10 = 4 \/ z mod 10 = 5 \/ z mod 10 = 6
               \/ z mod 10 = 7 \/ z mod 10 = 8 \/ z mod 10 = 9) by lia.
  repeat (destruct Hd as [Hd|Hd]; [rewrite Hd; reflexivity|]).
  rewrite Hd. reflexivity.
Qed.

(** *** The header, line by line *)

Section Header.

Variable drv : Driver.
Variable format_E15 : float -> text.

Lemma fold_left_flat_map (f : float -> text) : forall l g,
  fold_left (fun g c => g ++ f c) l g = g ++ flat_map f l.
Proof.
  induction l as [|c l IH]; intro g.
  - cbn. rewrite app_nil_r. reflexivity.
  - cbn [fold_left flat_map]. rewrite IH, <- app_assoc. reflexivity.
Qed.

Lemma CreateDataFileChannelEntry_text g idx :
  CreateDataFileChannelEntry drv format_E15 g idx
  = g ++ channel_text drv format_E15 idx.
Proof.
  unfold CreateDataFileChannelEntry, channel_text, header_line.
  rewrite (fold_left_flat_map (fun c => format_E15 c ++ str ";")).
  repeat rewrite <- app_assoc.
  destruct (DAQmxGetAIRawDataCompressionType drv
              (DAQmxGetNthTaskChannel drv (idx + 1))); reflexivity.
Qed.

Lemma ChannelEntries_text : forall n i g,
  ChannelEntries drv format_E15 n i g
  = g ++ channels_text drv format_E15 n i.
Proof.
  induction n as [|n IH]; intros i g.
  - cbn. rewrite app_nil_r. reflexivity.
  - cbn [ChannelEntries channels_text].
    rewrite CreateDataFileChannelEntry_text, IH, <- app_assoc. reflexivity.
Qed.

Lemma CreateDataFileTaskEntry_text g grbs numChannels sampsToRead :
  CreateDataFileTaskEntry drv g grbs numChannels sampsToRead
  = (fst (CalculateReadBlockSize drv grbs numChannels sampsToRead),
     g ++ task_text drv numChannels sampsToRead
            (snd (CalculateReadBlockSize drv grbs numChannels sampsToRead)),
     snd (CalculateReadBlockSize drv grbs numChannels sampsToRead)).
Proof.
  unfold CreateDataFileTaskEntry, task_text, header_line.
  destruct (CalculateReadBlockSize drv grbs numChannels sampsToRead)
    as [success r].
  cbn [fst snd]. repeat rewrite <- app_assoc. reflexivity.
Qed.

Lemma header_text_start numChannels sampsPerChan size :
  str "[DAQCompressedBinaryFile]\nVersion=1.0.0\nHeaderSize=0deadBEEF0\nNumberOfTasks=1\n"
  ++ task_text drv numChannels sampsPerChan size
  = str "[DAQCompressedBinaryFile]\n"
    ++ header_line "Version=" (str "1.0.0")
    ++ header_line "HeaderSize=" placeholder
    ++ header_line "NumberOfTasks=" (str "1")
    ++ task_text drv numChannels sampsPerChan size.
Proof. reflexivity. Qed.

Lemma header_text_field field numChannels sampsPerChan size :
  header_text drv format_E15 field numChannels sampsPerChan size
  = header_prefix ++ field
    ++ (str "\nNumberOfTasks=1\n"
        ++ (task_text drv numChannels sampsPerChan size
            ++ channels_text drv format_E15 (Z.to_nat numChannels) 0)
        ++ header_end).
Proof.
  unfold header_text, header_line, header_prefix, header_end.
  repeat rewrite <- app_assoc. reflexivity.
Qed.

(** The header first written. *)
Lemma WriteHeaderWithPlaceholder_text tm grbs numChannels sampsPerChan :
  let r := CalculateReadBlockSize drv grbs numChannels sampsPerChan in
  fst r = 1 ->
  WriteHeaderWithPlaceholder drv format_E15 tm grbs numChannels sampsPerChan
  = (1,
     header_text drv format_E15 placeholder numChannels sampsPerChan (snd r),
     snd r,
     to_disk tm (header_text drv format_E15 placeholder numChannels
                             sampsPerChan (snd r))).
Proof.
  intros r Hr. unfold WriteHeaderWithPlaceholder.
  rewrite CreateDataFileTaskEntry_text. fold r. rewrite Hr.
  change (1 =? 0) with false. cbv iota.
  rewrite ChannelEntries_text, header_text_start.
  unfold header_text. repeat rewrite <- app_assoc. reflexivity.
Qed.

(** [CreateDataFileHeader] when the block size can be calculated and the
    header fits [gHeader]: the header and the file with the length of the
    file in the place of the placeholder. *)
Lemma CreateDataFileHeader_text tm st filePath numChannels sampsPerChan :
  let r := CalculateReadBlockSize drv (gReadBlockSize st) numChannels
                                  sampsPerChan in
  let g := header_text drv format_E15 placeholder numChannels sampsPerChan
                       (snd r) in
  let size := Z.of_nat (List.length (to_disk tm g)) in
  let g' := header_text drv format_E15 (decimal_010 size) numChannels
                        sampsPerChan (snd r) in
  filePath <> [] -> fst r = 1 -> (List.length g < 2000)%nat ->
  CreateDataFileHeader drv format_E15 tm true st filePath numChannels
                       sampsPerChan
  = (true, mkState g' (snd r) (Some (to_disk tm g')))
    /\ List.length (to_disk tm g') = List.length (to_disk tm g).
Proof.
  intros r g size g' Hpath Hr Hcap.
  pose proof (to_disk_length tm g) as Hlen.
  assert (Hsize : 0 <= size < 2 ^ 31) by (unfold size; lia).
  destruct (decimal_010_int size Hsize) as (Hl & Hv & Hnl).
  assert (Eg' : to_disk tm g'
                = to_disk tm header_prefix ++ decimal_010 size
                  ++ to_disk tm
                       (str "\nNumberOfTasks=1\n"
                        ++ (task_text drv numChannels sampsPerChan (snd r)
                            ++ channels_text drv format_E15
                                 (Z.to_nat numChannels) 0)
                        ++ header_end)).
  { unfold g'. rewrite header_text_field, !to_disk_app.
    rewrite (to_disk_no_NL tm _ Hnl). reflexivity. }
  split.
  - unfold CreateDataFileHeader.
    destruct filePath as [|c path]; [contradiction|].
    cbn [negb].
    rewrite (WriteHeaderWithPlaceholder_text tm _ _ _ Hr). fold r g.
    change (1 =? 0) with false. cbv iota.
    pose proof (PatchHeaderSize_spec tm
                  (str "\nNumberOfTasks=1\n"
                   ++ (task_text drv numChannels sampsPerChan (snd r)
                       ++ channels_text drv format_E15
                            (Z.to_nat numChannels) 0)
                   ++ header_end)) as HP.
    cbv zeta in HP. rewrite <- header_text_field in HP. fold g in HP.
    rewrite HP by exact Hcap. fold size.
    rewrite <- header_text_field. fold g'. rewrite Eg'. reflexivity.
  - rewrite Eg'. unfold g. rewrite header_text_field, !to_disk_app.
    rewrite to_disk_placeholder, !length_app, Hl. reflexivity.
Qed.

End Header.

(** *** The block size *)

(** X13.  For a task whose raw data width is that of [numChannels] raw
    samples, [CalculateReadBlockSize] succeeds and sets [gReadBlockSize]
    to the bits of a block, [numChannels * sampsPerChan] samples at the
    compressed width, divided by 8 and rounded down: [ceil] is applied to a
    quotient of integers, which has no fraction left.  The result is the
    size of a packed block, the bits divided by 8 and rounded up, when the
    bits are a multiple of 8, and one byte less when they are not. *)
Theorem read_block_size_is_rounded_down
    (drv : Driver) (grbs numChannels sampsPerChan : Z) :
  let rawSampSize := DAQmxGetAIRawSampSize drv [] in
  let val := CompressedSize drv [] rawSampSize in
  let bits := val * numChannels * sampsPerChan in
  CompressedSampSizeExceedsResolution drv = false ->
  1 <= rawSampSize -> 1 <= val -> 0 <= numChannels -> 1 <= sampsPerChan ->
  DAQmxGetReadRawDataWidth drv * 8 = numChannels * rawSampSize ->
  val * (numChannels * rawSampSize) * sampsPerChan < 2 ^ 32 ->
  CalculateReadBlockSize drv grbs numChannels sampsPerChan = (1, bits / 8)
  /\ (bits mod 8 = 0 -> bits / 8 = (bits + 7) / 8)
  /\ (bits mod 8 <> 0 -> bits / 8 + 1 = (bits + 7) / 8).
Proof.
  intros rawSampSize val bits Herr Hr Hval Hnc Hs Hw Hb.
  assert (Hbits : 0 <= bits) by (unfold bits; nia).
  split; [|split].
  - unfold CalculateReadBlockSize. rewrite Herr. fold rawSampSize val.
    rewrite Hw.
    set (width := numChannels * rawSampSize) in *.
    assert (H0 : 0 <= width) by (unfold width; nia).
    assert (H1 : width <= val * width) by nia.
    assert (H2 : val * width <= val * width * sampsPerChan) by nia.
    rewrite (to_uInt32_small width) by lia.
    rewrite (to_uInt32_small (val * width)) by lia.
    rewrite (to_uInt32_small (val * width * sampsPerChan)) by lia.
    replace (width mod rawSampSize) with 0
      by (unfold width; rewrite Z.mod_mul; lia).
    cbn [Z.eqb negb andb].
    f_equal. f_equal.
    replace (val * width * sampsPerChan) with (bits * rawSampSize)
      by (unfold bits, width; ring).
    rewrite Z.div_mul by lia. reflexivity.
  - intro Hm. clearbody bits. pose proof (Z.div_mod bits 8 ltac:(lia)).
    apply Z.div_unique with (r := 7); lia.
  - intro Hm. clearbody bits. pose proof (Z.div_mod bits 8 ltac:(lia)).
    pose proof (Z.mod_pos_bound bits 8 ltac:(lia)).
    apply Z.div_unique with (r := bits mod 8 - 1); lia.
Qed.

Lemma read_block_size_is_rounded_down_witness :
  CalculateReadBlockSize packing_driver 0 1 1 = (1, 12 * 1 * 1 / 8)
  /\ (12 * 1 * 1 mod 8 = 0 -> 12 * 1 * 1 / 8 = (12 * 1 * 1 + 7) / 8)
  /\ (12 * 1 * 1 mod 8 <> 0 -> 12 * 1 * 1 / 8 + 1 = (12 * 1 * 1 + 7) / 8).
Proof.
  apply (read_block_size_is_rounded_down packing_driver 0 1 1).
  - reflexivity.
  - vm_compute. discriminate.
  - vm_compute. discriminate.
  - lia.
  - lia.
  - reflexivity.
  - vm_compute. reflexivity.
Defined.

(** *** The stream *)

Lemma EveryNCallback_appends acq r d :
  let size := gReadBlockSize (file acq) in
  disk (file acq) = Some d -> 0 <= size < 2 ^ 32 ->
  exists block,
    disk (file (EveryNCallback acq r)) = Some (d ++ block)
    /\ (if writes r then Z.of_nat (List.length block) = size else block = [])
    /\ gHeader (file (EveryNCallback acq r)) = gHeader (file acq)
    /\ gReadBlockSize (file (EveryNCallback acq r)) = size.
Proof.
  intros size Hd Hs. unfold EveryNCallback, writes.
  destruct (DAQmxFailed (status r)).
  - exists []. rewrite app_nil_r. cbn. auto.
  - destruct (0 <? read r).
    + eexists. cbn [file WriteDataToDataFile disk gHeader gReadBlockSize].
      rewrite Hd. cbn [option_map]. split; [reflexivity|].
      cbn [negb andb]. rewrite length_map, length_seq.
      fold size. rewrite to_uInt32_to_long, to_uInt32_small by lia.
      repeat split. lia.
    + exists []. rewrite app_nil_r. cbn. auto.
Qed.

Lemma Callbacks_appends : forall calls acq d,
  disk (file acq) = Some d ->
  0 <= gReadBlockSize (file acq) < 2 ^ 32 ->
  exists blocks,
    disk (file (Callbacks acq calls)) = Some (d ++ List.concat blocks)
    /\ Forall (fun b => Z.of_nat (List.length b) = gReadBlockSize (file acq))
              blocks
    /\ List.length blocks = List.length (filter writes calls)
    /\ gHeader (file (Callbacks acq calls)) = gHeader (file acq)
    /\ gReadBlockSize (file (Callbacks acq calls))
       = gReadBlockSize (file acq).
Proof.
  unfold Callbacks.
  induction calls as [|r calls IH]; intros acq d Hd Hs.
  - exists []. cbn. rewrite app_nil_r. auto.
  - cbn [fold_left filter].
    destruct (EveryNCallback_appends acq r d Hd Hs)
      as (block & Hd' & Hb & Hg & Hr).
    destruct (IH (EveryNCallback acq r) (d ++ block) Hd')
      as (blocks & Hdd & Hbs & Hl & Hgg & Hrr); [rewrite Hr; exact Hs|].
    rewrite Hr in Hbs, Hrr.
    destruct (writes r).
    + exists (block :: blocks). cbn [List.concat List.length].
      rewrite Hdd, <- app_assoc, Hl, Hgg, Hg, Hrr.
      repeat split. constructor; assumption.
    + subst block. rewrite app_nil_r in Hdd.
      exists blocks. rewrite Hdd, Hl, Hgg, Hg, Hrr. auto.
Qed.

(** X14.  Every call of [EveryNCallback] appends to the file either
    nothing, when [DAQmxReadRaw] fails or reads no sample, or exactly
    [gReadBlockSize] bytes, whatever the number of samples read: behind the
    bytes the file had when the acquisition began, it holds a whole number
    of blocks, one for every call that read something, and the header in
    memory and the block size stay as they were. *)
Theorem every_callback_appends_a_whole_block
    (acq : Acquisition) (calls : list ReadRaw) (d : text) :
  let size := gReadBlockSize (file acq) in
  disk (file acq) = Some d ->
  0 <= size < 2 ^ 32 ->
  exists blocks,
    disk (file (Callbacks acq calls)) = Some (d ++ List.concat blocks)
    /\ Forall (fun b => Z.of_nat (List.length b) = size) blocks
    /\ List.length blocks = List.length (filter writes calls)
    /\ gHeader (file (Callbacks acq calls)) = gHeader (file acq)
    /\ gReadBlockSize (file (Callbacks acq calls)) = size.
Proof.
  intros size Hd Hs. exact (Callbacks_appends calls acq d Hd Hs).
Qed.

Lemma every_callback_appends_a_whole_block_witness :
  exists blocks,
    disk (file (Callbacks
                  (mkAcquisition (mkState [] 3 (Some (str "header"))) 0)
                  [read_ok 1000 "a"; read_failed; read_ok 0 "b";
                   read_ok 5 "c"]))
    = Some (str "header" ++ List.concat blocks)
    /\ Forall (fun b => Z.of_nat (List.length b) = 3) blocks
    /\ List.length blocks
       = List.length (filter writes [read_ok 1000 "a"; read_failed;
                                     read_ok 0 "b"; read_ok 5 "c"])
    /\ gHeader (file (Callbacks
                        (mkAcquisition (mkState [] 3 (Some (str "header"))) 0)
                        [read_ok 1000 "a"; read_failed; read_ok 0 "b";
                         read_ok 5 "c"]))
       = []
    /\ gReadBlockSize
         (file (Callbacks
                  (mkAcquisition (mkState [] 3 (Some (str "header"))) 0)
                  [read_ok 1000 "a"; read_failed; read_ok 0 "b";
                   read_ok 5 "c"]))
       = 3.
Proof.
  apply (every_callback_appends_a_whole_block
           (mkAcquisition (mkState [] 3 (Some (str "header"))) 0)
           [read_ok 1000 "a"; read_failed; read_ok 0 "b"; read_ok 5 "c"]
           (str "header")).
  - reflexivity.
  - vm_compute. split; [discriminate|reflexivity].
Defined.

(** *** The size of the header *)

Section Size.

Variable drv : Driver.
Variable format_E15 : float -> text.

Lemma header_line_length key value :
  List.length (header_line key value)
  = (List.length (str key) + List.length value + 1)%nat.
Proof.
  unfold header_line. rewrite !length_app. cbn [List.length str]. lia.
Qed.

Lemma task_text_length numChannels sampsToRead size :
  (72 <= List.length (task_text drv numChannels sampsToRead size))%nat.
Proof.
  unfold task_text. rewrite !length_app, !header_line_length.
  pose proof (decimal_nonempty (to_long numChannels)).
  pose proof (decimal_nonempty (to_long sampsToRead)).
  pose proof (decimal_nonempty (to_long size)).
  change (List.length (str "[Task0]\n")) with 8%nat.
  change (List.length (str "Name=")) with 5%nat.
  change (List.length (str "NumberOfChannels=")) with 17%nat.
  change (List.length (str "ReadBlockSize=")) with 14%nat.
  change (List.length (str "ReadBlockSizeInBytes=")) with 21%nat.
  lia.
Qed.

Lemma channel_text_length idx :
  (218 <= List.length (channel_text drv format_E15 idx))%nat.
Proof.
  unfold channel_text. rewrite !length_app, !header_line_length.
  pose proof (decimal_nonempty idx).
  pose proof (decimal_nonempty
                (to_uInt32 (DAQmxGetAIResolution drv
                              (DAQmxGetNthTaskChannel drv (idx + 1))))).
  pose proof (decimal_nonempty
                (to_uInt32 (DAQmxGetAIRawSampSize drv
                              (DAQmxGetNthTaskChannel drv (idx + 1))))).
  pose proof (decimal_nonempty
                (to_uInt32
                   (CompressedSize drv (DAQmxGetNthTaskChannel drv (idx + 1))
                      (DAQmxGetAIRawSampSize drv
                         (DAQmxGetNthTaskChannel drv (idx + 1)))))).
  destruct (DAQmxGetAIRawSampJustification drv _);
    destruct (PrimFloat.ltb _ _);
    destruct (_ =? _);
    destruct (DAQmxGetAIRawDataCompressionType drv _);
    cbn [orb];
    repeat match goal with
           | |- context [List.length (str ?s)] =>
               let n := eval vm_compute in (List.length (str s)) in
               change (List.length (str s)) with n
           end;
    lia.
Qed.

Lemma channels_text_length : forall n i,
  (218 * n <= List.length (channels_text drv format_E15 n i))%nat.
Proof.
  induction n as [|n IH]; intro i; [cbn; lia|].
  cbn [channels_text]. rewrite length_app.
  pose proof (channel_text_length i). specialize (IH (i + 1)). lia.
Qed.

Lemma header_text_length field numChannels sampsPerChan size :
  (164 + List.length field + 218 * Z.to_nat numChannels
   <= List.length (header_text drv format_E15 field numChannels sampsPerChan
                               size))%nat.
Proof.
  unfold header_text. rewrite !length_app, !header_line_length.
  pose proof (task_text_length numChannels sampsPerChan size).
  pose proof (channels_text_length (Z.to_nat numChannels) 0).
  change (List.length (str "[DAQCompressedBinaryFile]\n")) with 26%nat.
  change (List.length (str "Version=")) with 8%nat.
  change (List.length (str "1.0.0")) with 5%nat.
  change (List.length (str "HeaderSize=")) with 11%nat.
  change (List.length (str "NumberOfTasks=")) with 14%nat.
  change (List.length (str "1")) with 1%nat.
  change (List.length (str "[BinaryData]\n")) with 13%nat.
  change (List.length (str "Begin=Here\n")) with 11%nat.
  lia.
Qed.

End Size.

(** X15.  The header grows by at least 218 characters with every channel:
    the header that [CreateDataFileHeader] builds in [gHeader] for
    [numChannels] channels has at least [174 + 218 * numChannels]
    characters, whatever the driver answers, so that from nine channels on
    it does not fit the 2000 characters of [gHeader]. *)
Theorem header_grows_with_every_channel
    (drv : Driver) (format_E15 : float -> text) (tm : TextMode)
    (grbs numChannels sampsPerChan : Z)
    (gHeader : text) (grbs' : Z) (written : text) :
  WriteHeaderWithPlaceholder drv format_E15 tm grbs numChannels sampsPerChan
  = (1, gHeader, grbs', written) ->
  0 <= numChannels ->
  174 + 218 * numChannels <= Z.of_nat (List.length gHeader)
  /\ (9 <= numChannels -> 2000 < Z.of_nat (List.length gHeader)).
Proof.
  intros HW Hnc.
  assert (Hr : fst (CalculateReadBlockSize drv grbs numChannels sampsPerChan)
               = 1).
  { unfold WriteHeaderWithPlaceholder in HW.
    rewrite CreateDataFileTaskEntry_text in HW.
    destruct (fst (CalculateReadBlockSize drv grbs numChannels sampsPerChan)
              =? 0) eqn:E.
    - apply pair_equal_spec in HW. destruct HW as [HW _].
      apply pair_equal_spec in HW. destruct HW as [HW _].
      apply pair_equal_spec in HW. destruct HW as [HW _]. discriminate.
    - unfold CalculateReadBlockSize in E |- *.
      destruct (CompressedSampSizeExceedsResolution drv); [discriminate|].
      match goal with
      | |- fst (if ?c then _ else _) = 1 => destruct c; [discriminate|]
      end.
      reflexivity. }
  rewrite (WriteHeaderWithPlaceholder_text drv format_E15 tm _ _ _ Hr) in HW.
  apply pair_equal_spec in HW. destruct HW as [HW _].
  apply pair_equal_spec in HW. destruct HW as [HW _].
  apply pair_equal_spec in HW. destruct HW as [_ HW]. subst gHeader.
  pose proof (header_text_length drv format_E15 placeholder numChannels
                sampsPerChan
                (snd (CalculateReadBlockSize drv grbs numChannels sampsPerChan)))
    as Hlen.
  change (List.length placeholder) with 10%nat in Hlen.
  split; [lia|]. intro H9. lia.
Qed.

Lemma header_grows_with_every_channel_witness :
  174 + 218 * 1 <= Z.of_nat (List.length (snd (fst (fst example_written))))
  /\ (9 <= 1 ->
      2000 < Z.of_nat (List.length (snd (fst (fst example_written))))).
Proof.
  apply (header_grows_with_every_channel example_driver example_format CRLF
           0 1 1000 (snd (fst (fst example_written)))
           (snd (fst example_written)) (snd example_written)).
  - vm_compute. reflexivity.
  - lia.
Defined.

End EncoderStreamFacts.

(** ** From the encoder to the decoder *)

Module RoundTripFacts.
Import C DAQmx Encoder Decoder Spec CFacts EncoderFacts ParserFacts
       EncoderStreamFacts RegionFacts.

(** *** fscanf on a line of the header *)

Lemma fscanf_run_chars : forall lit ds f items,
  fscanf_run (map DChar lit ++ ds) (lit ++ f) items = fscanf_run ds f items.
Proof.
  induction lit as [|a lit IH]; intros ds f items.
  - reflexivity.
  - cbn [map app fscanf_run]. rewrite Ascii.eqb_refl. apply IH.
Qed.

Lemma skip_space_text t f :
  is_word (firstn 1 t) = true -> skip_space (t ++ f) = t ++ f.
Proof.
  destruct t as [|a t]; [discriminate|].
  cbn [firstn is_word forallb app skip_space]. rewrite andb_true_r.
  intro H. apply negb_true_iff in H. rewrite H. reflexivity.
Qed.

Lemma is_word_first w : is_word w = true -> is_word (firstn 1 w) = true.
Proof.
  destruct w as [|a w]; [discriminate|].
  cbn [is_word firstn forallb]. intro H.
  apply andb_true_iff in H. destruct H as [H _]. rewrite H. reflexivity.
Qed.

Lemma is_word_spec w :
  is_word w = true ->
  w <> [] /\ forallb (fun a => negb (isspace a)) w = true.
Proof. destruct w; [discriminate|]. intro H. split; [discriminate|exact H]. Qed.

Lemma span_all (p : ascii -> bool) : forall w a f,
  forallb p w = true -> p a = false -> span p (w ++ a :: f) = (w, a :: f).
Proof.
  induction w as [|b w IH]; intros a f Hw Ha.
  - cbn. rewrite Ha. reflexivity.
  - cbn [forallb] in Hw. apply andb_true_iff in Hw. destruct Hw as [Hb Hw].
    cbn [app span]. rewrite Hb, (IH a f Hw Ha). reflexivity.
Qed.

Lemma digits_word ds :
  ds <> [] -> forallb isdigit ds = true -> is_word ds = true.
Proof.
  intros Hn Hd. destruct ds as [|a ds]; [contradiction|].
  unfold is_word. apply forallb_forall. intros x Hx.
  rewrite forallb_forall in Hd. specialize (Hd x Hx).
  unfold isdigit, isspace in *.
  apply andb_true_iff in Hd. destruct Hd as [H1 H2].
  apply N.leb_le in H1. apply N.leb_le in H2.
  apply negb_true_iff. apply orb_false_iff. split.
  - apply N.eqb_neq. lia.
  - apply andb_false_iff. right. apply N.leb_gt. lia.
Qed.

(** A literal line. *)
Lemma scan_literal (fmt : string) lit f :
  directives (str fmt) = map DChar lit ++ [DSpace] ->
  scan fmt (lit ++ str "\n" ++ f) = Some ([], skip_space f).
Proof.
  intro Hd. unfold scan, fscanf. rewrite Hd, fscanf_run_chars.
  reflexivity.
Qed.

(** A line with a string. *)
Lemma scan_string (fmt key : string) w f :
  directives (str fmt) = map DChar (str key) ++ [DString; DSpace] ->
  is_word w = true ->
  scan fmt (header_line key w ++ f) = Some ([IString w], skip_space f).
Proof.
  intros Hd Hw. unfold scan, fscanf, header_line.
  rewrite Hd, <- !app_assoc, fscanf_run_chars.
  cbn [fscanf_run].
  rewrite (skip_space_text w _ (is_word_first w Hw)).
  destruct (is_word_spec w Hw) as [Hne Hall].
  destruct w as [|a w]; [contradiction|]. cbn [app].
  change (a :: w ++ str "\n" ++ f) with ((a :: w) ++ NL :: f).
  rewrite (span_all _ (a :: w) NL f Hall eq_refl).
  reflexivity.
Qed.

(** A line with a number. *)
Lemma fscanf_run_long ds a f rest items :
  ds <> [] -> forallb isdigit ds = true -> isdigit a = false ->
  fscanf_run (DLong :: rest) (ds ++ a :: f) items
  = fscanf_run rest (a :: f) (items ++ [ILong (decimal_value ds)]).
Proof.
  intros Hn Hd Ha. cbn [fscanf_run].
  rewrite (skip_space_text ds _ (is_word_first ds (digits_word ds Hn Hd))).
  destruct ds as [|b ds]; [contradiction|]. cbn [app].
  assert (Hb : isdigit b = true)
    by (cbn [forallb] in Hd; apply andb_true_iff in Hd; tauto).
  assert (Hs : Ascii.eqb b "-" || Ascii.eqb b "+" = false).
  { unfold isdigit in Hb. apply andb_true_iff in Hb. destruct Hb as [H1 H2].
    apply N.leb_le in H1. apply N.leb_le in H2.
    apply orb_false_iff. split; apply Ascii.eqb_neq; intro E; subst b;
      cbn in H1; lia. }
  rewrite Hs.
  change (b :: ds ++ a :: f) with ((b :: ds) ++ a :: f).
  rewrite (span_all isdigit (b :: ds) a f Hd Ha).
  apply orb_false_iff in Hs. destruct Hs as [Hm _]. rewrite Hm.
  reflexivity.
Qed.

Lemma scan_long (fmt key : string) ds f :
  directives (str fmt) = map DChar (str key) ++ [DLong; DSpace] ->
  ds <> [] -> forallb isdigit ds = true ->
  scan fmt (header_line key ds ++ f)
  = Some ([ILong (decimal_value ds)], skip_space f).
Proof.
  intros Hdir Hn Hd. unfold scan, fscanf, header_line.
  rewrite Hdir, <- !app_assoc, fscanf_run_chars.
  change (str "\n" ++ f) with (NL :: f).
  rewrite (fscanf_run_long ds NL f [DSpace] [] Hn Hd eq_refl).
  reflexivity.
Qed.

(** The line that opens the entry of a channel. *)
Lemma scan_channel ds f :
  ds <> [] -> forallb isdigit ds = true ->
  scan "[Task0Channel%ld]\n" (str "[Task0Channel" ++ ds ++ str "]\n" ++ f)
  = Some ([ILong (decimal_value ds)], skip_space f).
Proof.
  intros Hn Hd. unfold scan, fscanf.
  change (directives (str "[Task0Channel%ld]\n"))
    with (map DChar (str "[Task0Channel") ++ [DLong; DChar "]"; DSpace]).
  rewrite fscanf_run_chars.
  change (str "]\n" ++ f) with ("]"%char :: NL :: f).
  rewrite (fscanf_run_long ds "]" (NL :: f) [DChar "]"; DSpace] [] Hn Hd eq_refl).
  reflexivity.
Qed.

(** *** The coefficients *)

Lemma is_token_spec w :
  is_token w = true ->
  is_word w = true /\ forallb (fun a => negb (Ascii.eqb a ";")) w = true.
Proof. unfold is_token. intro H. apply andb_true_iff in H. exact H. Qed.

Lemma strtok_all_token : forall w rest tok,
  forallb (fun a => negb (Ascii.eqb a ";")) w = true ->
  tok ++ w <> [] ->
  strtok_all (w ++ str ";" ++ rest) tok = (tok ++ w) :: strtok_all rest [].
Proof.
  induction w as [|a w IH]; intros rest tok Hw Hn.
  - rewrite app_nil_r in *. cbn [app str strtok_all].
    change (Ascii.eqb ";" ";") with true. cbv iota.
    destruct tok; [contradiction|reflexivity].
  - cbn [forallb] in Hw. apply andb_true_iff in Hw. destruct Hw as [Ha Hw].
    apply negb_true_iff in Ha.
    cbn [app strtok_all]. rewrite Ha.
    rewrite IH; [|exact Hw|rewrite <- app_assoc; exact Hn].
    rewrite <- app_assoc. reflexivity.
Qed.

Lemma strtok_all_coeffs (f : float -> text) : forall l,
  forallb (fun c => is_token (f c)) l = true ->
  strtok_all (flat_map (fun c => f c ++ str ";") l) [] = map f l.
Proof.
  induction l as [|c l IH]; intro H; [reflexivity|].
  cbn [forallb] in H. apply andb_true_iff in H. destruct H as [Hc Hl].
  destruct (is_token_spec _ Hc) as [Hw Hs].
  cbn [flat_map map]. rewrite <- app_assoc.
  rewrite strtok_all_token; [|exact Hs|].
  - cbn [app]. rewrite (IH Hl). reflexivity.
  - cbn [app]. destruct (f c); [discriminate|discriminate].
Qed.

Lemma coeffs_field_word (f : float -> text) : forall l,
  l <> [] ->
  forallb (fun c => is_token (f c)) l = true ->
  is_word (flat_map (fun c => f c ++ str ";") l) = true
  /\ match flat_map (fun c => f c ++ str ";") l with
     | [] => true
     | c :: _ => Ascii.eqb c ";"
     end = false.
Proof.
  intros l Hn H.
  assert (Hall : forallb (fun a => negb (isspace a))
                         (flat_map (fun c => f c ++ str ";") l) = true).
  { clear Hn. induction l as [|c l IH]; [reflexivity|].
    cbn [forallb] in H. apply andb_true_iff in H. destruct H as [Hc Hl].
    destruct (is_token_spec _ Hc) as [Hw _].
    destruct (is_word_spec _ Hw) as [_ Hw'].
    cbn [flat_map]. rewrite !forallb_app, Hw', (IH Hl). reflexivity. }
  destruct l as [|c l]; [contradiction|].
  cbn [forallb] in H. apply andb_true_iff in H. destruct H as [Hc _].
  destruct (is_token_spec _ Hc) as [Hw Hs].
  cbn [flat_map] in *.
  destruct (f c) as [|a w]; [discriminate|].
  cbn [app] in *. split.
  - unfold is_word. exact Hall.
  - cbn [forallb] in Hs. apply andb_true_iff in Hs. destruct Hs as [Ha _].
    apply negb_true_iff in Ha. exact Ha.
Qed.

Lemma int31_spec z : int31 z = true -> 0 <= z < 2 ^ 31.
Proof.
  unfold int31. intro H. apply andb_true_iff in H. destruct H as [H1 H2].
  apply Z.leb_le in H1. apply Z.ltb_lt in H2. lia.
Qed.

(** A number as the encoder prints it and the parser stores it. *)
Lemma stored_decimal z before :
  0 <= z < 2 ^ 32 ->
  decimal z <> []
  /\ forallb isdigit (decimal z) = true
  /\ stored_ld [ILong (decimal_value (decimal z))] before = z.
Proof.
  intro Hz. destruct (decimal_spec z ltac:(lia)) as (Hn & Hd & Hv).
  split; [exact Hn|]. split; [exact Hd|].
  cbn [stored_ld]. rewrite Hv. apply to_uInt32_small. exact Hz.
Qed.

(** *** The entries of the channels *)

Section Channels.

Variable drv : Driver.
Variable format_E15 : float -> text.
Variable sscanf_le : text -> option float.
Variable ind : Indeterminate.
Variable read_back : float -> float.
Hypothesis Hread : forall c, sscanf_le (format_E15 c) = Some (read_back c).

Lemma ParseCoeffs_read_back i : forall l k,
  ParseCoeffs sscanf_le ind i k (map format_E15 l) = map read_back l.
Proof.
  induction l as [|c l IH]; intro k; [reflexivity|].
  cbn [map ParseCoeffs]. rewrite Hread, IH. reflexivity.
Qed.

Lemma channels_text_start n i tail :
  skip_space tail = tail ->
  skip_space (channels_text drv format_E15 n i ++ tail)
  = channels_text drv format_E15 n i ++ tail.
Proof.
  intro Ht. destruct n as [|n]; [exact Ht|].
  cbn [channels_text]. rewrite <- app_assoc.
  apply skip_space_text. reflexivity.
Qed.

Ltac scan_s fmt key :=
  unfold bind at 1;
  rewrite (scan_string fmt key) by first [reflexivity | assumption | discriminate];
  cbv beta iota;
  rewrite ?skip_space_text by reflexivity.

Ltac scan_ld fmt key :=
  unfold bind at 1;
  rewrite (scan_long fmt key) by first [reflexivity | assumption | discriminate];
  cbv beta iota;
  rewrite ?skip_space_text by reflexivity.

Lemma ParseChannels_text : forall n i loc tail,
  0 <= i -> i + Z.of_nat n < 2 ^ 31 ->
  (forall idx, i <= idx < i + Z.of_nat n ->
               channel_is_plain drv format_E15 idx = true) ->
  skip_space tail = tail ->
  ParseChannels sscanf_le ind n i loc
                (channels_text drv format_E15 n i ++ tail)
  = Some (channels_written drv read_back n i, tail).
Proof.
  induction n as [|n IH]; intros i loc tail Hi Hb Hplain Htail.
  - reflexivity.
  - pose proof (Hplain i ltac:(lia)) as Hp.
    unfold channel_is_plain in Hp. cbv zeta in Hp.
    apply andb_true_iff in Hp. destruct Hp as [Hp Htok].
    apply andb_true_iff in Hp. destruct Hp as [Hp Hne].
    apply andb_true_iff in Hp. destruct Hp as [Hp Hcs].
    apply andb_true_iff in Hp. destruct Hp as [Hp Hraw].
    apply andb_true_iff in Hp. destruct Hp as [Hname Hres].
    apply int31_spec in Hres. apply int31_spec in Hraw.
    apply int31_spec in Hcs.
    set (channelName := DAQmxGetNthTaskChannel drv (i + 1)) in *.
    set (resolution := DAQmxGetAIResolution drv channelName) in *.
    set (rawSampSize := DAQmxGetAIRawSampSize drv channelName) in *.
    set (coeffs := firstn 1000 (DAQmxGetAIDevScalingCoeff drv channelName))
      in *.
    assert (Hcne : coeffs <> []) by (destruct coeffs; [discriminate|discriminate]).
    destruct (coeffs_field_word format_E15 coeffs Hcne Htok) as [Hfw Hfirst].
    destruct (stored_decimal i (channelNum loc) ltac:(lia)) as (Di1 & Di2 & Di3).
    pose proof (IH (i + 1)) as IH'.
    cbn [ParseChannels channels_text channels_written].
    rewrite <- app_assoc.
    pose proof (channels_text_start n (i + 1) tail Htail) as Hrest.
    set (rest := channels_text drv format_E15 n (i + 1) ++ tail) in *.
    unfold channel_text. cbv zeta.
    fold channelName. fold resolution. fold rawSampSize. fold coeffs.
    rewrite (to_uInt32_small resolution) by lia.
    rewrite (to_uInt32_small rawSampSize) by lia.
    rewrite (to_uInt32_small (CompressedSize drv channelName rawSampSize))
      by lia.
    repeat rewrite <- app_assoc.
    destruct (decimal_spec resolution ltac:(lia)) as (Dr1 & Dr2 & Dr3).
    destruct (decimal_spec rawSampSize ltac:(lia)) as (Ds1 & Ds2 & Ds3).
    destruct (decimal_spec (CompressedSize drv channelName rawSampSize)
                ltac:(lia)) as (Dc1 & Dc2 & Dc3).
    assert (Hj : is_word
                   match DAQmxGetAIRawSampJustification drv channelName with
                   | DAQmx_Val_LeftJustified => str "Left"
                   | DAQmx_Val_RightJustified => str "Right"
                   end = true)
      by (destruct (DAQmxGetAIRawSampJustification drv channelName);
          reflexivity).
    assert (Hsg : is_word
                    (if PrimFloat.ltb (DAQmxGetAIMin drv channelName) 0
                     then str "TRUE" else str "FALSE") = true)
      by (destruct (PrimFloat.ltb (DAQmxGetAIMin drv channelName) 0);
          reflexivity).
    assert (Hct : is_word
                    match DAQmxGetAIRawDataCompressionType drv channelName with
                    | DAQmx_Val_LosslessPacking => str "LosslessPacking"
                    | DAQmx_Val_LossyLSBRemoval => str "LossyLSBRemoval"
                    | DAQmx_Val_None => str "None"
                    end = true)
      by (destruct (DAQmxGetAIRawDataCompressionType drv channelName);
          reflexivity).
    set (little := (rawSampSize =? resolution)
                   || match DAQmxGetAIRawDataCompressionType drv channelName
                      with DAQmx_Val_None => true | _ => false end) in *.
    assert (Hbo : is_word (if little then str "LittleEndian"
                           else str "BigEndian") = true)
      by (destruct little; reflexivity).
    unfold bind at 1. rewrite (scan_channel _ _ Di1 Di2). cbv beta iota.
    rewrite skip_space_text by reflexivity.
    scan_s "Name=%s\n"%string "Name="%string.
    scan_ld "RawSampleResolution=%ld\n"%string "RawSampleResolution="%string.
    scan_ld "RawSampleSizeInBits=%ld\n"%string "RawSampleSizeInBits="%string.
    scan_s "RawSampleJustification=%s\n"%string "RawSampleJustification="%string.
    scan_s "SignedNumber=%s\n"%string "SignedNumber="%string.
    scan_s "CompressionType=%s\n"%string "CompressionType="%string.
    scan_ld "CompressedSampleSizeInBits=%ld\n"%string
            "CompressedSampleSizeInBits="%string.
    scan_s "CompressionByteOrder=%s\n"%string "CompressionByteOrder="%string.
    unfold bind at 1.
    rewrite (scan_string "PolynomialScalingCoeffs=%s\n"
                         "PolynomialScalingCoeffs=" _ rest eq_refl Hfw).
    cbv beta iota. rewrite Hrest.
    cbn [stored_s]. rewrite Di3, Z.eqb_refl, Hfirst. cbn [negb orb].
    unfold bind at 1. unfold rest.
    rewrite IH' by (try assumption; try lia; intros; apply Hplain; lia).
    unfold ret. do 3 f_equal.
    unfold channel_written. cbv zeta.
    fold channelName. fold resolution. fold rawSampSize. fold coeffs.
    fold little.
    cbn [stored_ld]. rewrite Dr3, Ds3, Dc3.
    rewrite !to_uInt32_small by lia.
    rewrite (strtok_all_coeffs format_E15 coeffs Htok), ParseCoeffs_read_back.
    f_equal.
    + destruct (DAQmxGetAIRawSampJustification drv channelName); reflexivity.
    + destruct (PrimFloat.ltb (DAQmxGetAIMin drv channelName) 0); reflexivity.
    + destruct (DAQmxGetAIRawDataCompressionType drv channelName); reflexivity.
    + destruct little; reflexivity.
Qed.

Ltac scan_lit fmt lit :=
  unfold bind at 1;
  rewrite (scan_literal fmt lit) by reflexivity;
  cbv beta iota;
  rewrite ?skip_space_text by reflexivity.

(** The whole header, with any digits in the place of the header size and
    anything behind the last line. *)
Lemma ParseDataFileHeader_text info0 field numChannels sampsPerChan size data :
  field <> [] -> forallb isdigit field = true ->
  is_word (DAQmxGetTaskName drv) = true ->
  1 <= numChannels < 2 ^ 31 ->
  0 <= sampsPerChan < 2 ^ 31 ->
  0 <= size < 2 ^ 31 ->
  (forall idx, 0 <= idx < numChannels ->
               channel_is_plain drv format_E15 idx = true) ->
  ParseDataFileHeader sscanf_le ind info0
    (Some (header_text drv format_E15 field numChannels sampsPerChan size
           ++ data))
  = Some (mkDataFileInfo (str "1.0.0") (to_uInt32 (decimal_value field))
                         (DAQmxGetTaskName drv) numChannels sampsPerChan size
                         (channels_written drv read_back
                                           (Z.to_nat numChannels) 0)).
Proof.
  intros Hf1 Hf2 Hname Hnc Hs Hsize Hplain.
  destruct (stored_decimal numChannels (numberOfChannels info0) ltac:(lia))
    as (Dn1 & Dn2 & Dn3).
  destruct (stored_decimal sampsPerChan (readBlockSize info0) ltac:(lia))
    as (Dp1 & Dp2 & Dp3).
  destruct (stored_decimal size (readBlockSizeInBytes info0) ltac:(lia))
    as (Dz1 & Dz2 & Dz3).
  unfold ParseDataFileHeader, header_text, task_text.
  rewrite !to_long_small by lia.
  repeat rewrite <- app_assoc.
  change (str "[DAQCompressedBinaryFile]\n")
    with (str "[DAQCompressedBinaryFile]" ++ str "\n").
  change (str "[Task0]\n") with (str "[Task0]" ++ str "\n").
  repeat rewrite <- app_assoc.
  scan_lit "[DAQCompressedBinaryFile]\n"%string (str "[DAQCompressedBinaryFile]").
  scan_s "Version=%s\n"%string "Version="%string.
  scan_ld "HeaderSize=%ld\n"%string "HeaderSize="%string.
  scan_ld "NumberOfTasks=%ld\n"%string "NumberOfTasks="%string.
  scan_lit "[Task0]\n"%string (str "[Task0]").
  scan_s "Name=%s\n"%string "Name="%string.
  scan_ld "NumberOfChannels=%ld\n"%string "NumberOfChannels="%string.
  scan_ld "ReadBlockSize=%ld\n"%string "ReadBlockSize="%string.
  unfold bind at 1.
  rewrite (scan_long "ReadBlockSizeInBytes=%ld\n" "ReadBlockSizeInBytes="
                     _ _ eq_refl Dz1 Dz2).
  cbv beta iota.
  set (tail := str "[BinaryData]\n" ++ str "Begin=Here\n" ++ data).
  assert (Htail : skip_space tail = tail) by reflexivity.
  rewrite (channels_text_start _ 0 tail Htail).
  cbn [stored_s]. rewrite Dn3, Dp3, Dz3.
  change (streq (str "1.0.0") (str "1.0.0")) with true.
  destruct (Z.ltb_spec numChannels 1) as [|_]; [lia|]. cbn [negb orb].
  unfold bind at 1.
  rewrite ParseChannels_text
    by (try exact Htail; try lia; intros; apply Hplain; lia).
  unfold tail.
  change (str "[BinaryData]\n") with (str "[BinaryData]" ++ str "\n").
  change (str "Begin=Here\n") with (str "Begin=Here" ++ str "\n").
  repeat rewrite <- app_assoc.
  scan_lit "[BinaryData]\n"%string (str "[BinaryData]").
  unfold bind at 1.
  rewrite (scan_literal "Begin=Here\n" (str "Begin=Here") data eq_refl).
  reflexivity.
Qed.

End Channels.

(** *** Text mode *)

Lemma from_disk_untranslated : forall d, from_disk Untranslated d = d.
Proof. induction d as [|a d IH]; [reflexivity|]. cbn. rewrite IH. reflexivity. Qed.

(** A text that ends with a new line, written in text mode and followed by
    binary data, is read back in text mode as it was, followed by what the
    text mode makes of the data. *)
Lemma from_disk_header tm data : forall h,
  from_disk tm (to_disk tm (h ++ [NL]) ++ data)
  = h ++ NL :: from_disk tm data.
Proof.
  destruct tm.
  - intro h. rewrite !from_disk_untranslated.
    replace (to_disk Untranslated (h ++ [NL])) with (h ++ [NL]).
    + rewrite <- app_assoc. reflexivity.
    + generalize (h ++ [NL]). induction l as [|a l IH]; [reflexivity|].
      cbn. rewrite <- IH. reflexivity.
  - induction h as [|a h IH].
    + reflexivity.
    + cbn [app to_disk].
      destruct (Ascii.eqb a NL) eqn:Ea.
      * apply Ascii.eqb_eq in Ea. subst a.
        cbn [app from_disk]. change (Ascii.eqb CR CR && Ascii.eqb NL NL) with true.
        cbv iota. rewrite IH. reflexivity.
      * destruct (to_disk CRLF (h ++ [NL])) as [|b r] eqn:Er.
        { destruct h; cbn in Er; [discriminate|].
          destruct (Ascii.eqb a0 NL); discriminate. }
        pose proof (to_disk_head_not_NL _ _ _ Er) as Hb.
        change (from_disk CRLF ((a :: b :: r) ++ data))
          with (if Ascii.eqb a CR && Ascii.eqb b NL
                then NL :: from_disk CRLF (r ++ data)
                else a :: from_disk CRLF ((b :: r) ++ data)).
        rewrite Hb, andb_false_r, IH. reflexivity.
Qed.

Lemma header_text_ends drv format_E15 field numChannels sampsPerChan size :
  exists h,
    header_text drv format_E15 field numChannels sampsPerChan size
    = h ++ [NL].
Proof.
  unfold header_text.
  change (str "Begin=Here\n") with (str "Begin=Here" ++ [NL]).
  eexists. rewrite !app_assoc. reflexivity.
Qed.

(** *** The file of the encoder, read by the decoder *)

Section File.

Variable drv : Driver.
Variable format_E15 : float -> text.
Variable sscanf_le : text -> option float.
Variable ind : Indeterminate.
Variable read_back : float -> float.
Hypothesis Hread : forall c, sscanf_le (format_E15 c) = Some (read_back c).

Variable tm : TextMode.
Variable st : State.
Variable filePath : text.
Variable numChannels sampsPerChan : Z.

Let r := CalculateReadBlockSize drv (gReadBlockSize st) numChannels
                                sampsPerChan.
Let g := header_text drv format_E15 placeholder numChannels sampsPerChan
                     (snd r).

Hypothesis Hpath : filePath <> [].
Hypothesis Hr : fst r = 1.
Hypothesis Hcap : (List.length g < 2000)%nat.
Hypothesis Hname : is_word (DAQmxGetTaskName drv) = true.
Hypothesis Hnc : 1 <= numChannels < 2 ^ 31.
Hypothesis Hs : 0 <= sampsPerChan < 2 ^ 31.
Hypothesis Hsize : 0 <= snd r < 2 ^ 31.
Hypothesis Hplain :
  forall idx, 0 <= idx < numChannels ->
              channel_is_plain drv format_E15 idx = true.

Lemma file_round_trip :
  exists st' d,
    CreateDataFileHeader drv format_E15 tm true st filePath numChannels
                         sampsPerChan = (true, st')
    /\ gReadBlockSize st' = snd r
    /\ disk st' = Some d
    /\ Z.of_nat (List.length d) < 4000
    /\ forall info0 data,
         ParseDataFileHeader sscanf_le ind info0
           (Some (from_disk tm (d ++ data)))
         = Some (mkDataFileInfo (str "1.0.0") (Z.of_nat (List.length d))
                   (DAQmxGetTaskName drv) numChannels sampsPerChan (snd r)
                   (channels_written drv read_back (Z.to_nat numChannels) 0)).
Proof.
  destruct (CreateDataFileHeader_text drv format_E15 tm st filePath
              numChannels sampsPerChan Hpath Hr Hcap) as [HC Hlen].
  fold r g in HC, Hlen.
  set (size := Z.of_nat (List.length (to_disk tm g))) in *.
  set (g' := header_text drv format_E15 (decimal_010 size) numChannels
                         sampsPerChan (snd r)) in *.
  pose proof (to_disk_length tm g) as Hdl.
  assert (Hsz : 0 <= size < 2 ^ 31) by (unfold size; lia).
  destruct (decimal_010_int size Hsz) as (Hl & Hv & _).
  exists (mkState g' (snd r) (Some (to_disk tm g'))), (to_disk tm g').
  split; [exact HC|]. split; [reflexivity|]. split; [reflexivity|].
  split; [rewrite Hlen; fold size; unfold size; lia|].
  intros info0 data.
  destruct (header_text_ends drv format_E15 (decimal_010 size) numChannels
              sampsPerChan (snd r)) as [h Eh].
  fold g' in Eh.
  assert (Hfd : from_disk tm (to_disk tm g' ++ data)
                = g' ++ from_disk tm data).
  { rewrite Eh, from_disk_header, <- app_assoc. reflexivity. }
  rewrite Hfd. unfold g'.
  etransitivity.
  { apply (ParseDataFileHeader_text drv format_E15 sscanf_le ind read_back
             Hread info0 (decimal_010 size) numChannels sampsPerChan (snd r)
             (from_disk tm data)); try assumption.
    - intro E. rewrite E in Hl. discriminate.
    - unfold decimal_010. destruct (Z.ltb_spec size 0); [lia|].
      apply fixed_decimal_digits. lia. }
  rewrite Hv, to_uInt32_small by lia.
  fold g'. rewrite Hlen. reflexivity.
Qed.

End File.


Lemma example_read_back_spec c :
  example_sscanf (example_format c) = Some (example_read_back c).
Proof.
  unfold example_sscanf, example_format, example_read_back.
  destruct (PrimFloat.eqb c 0); reflexivity.
Qed.


Lemma concat_blocks_length (blocks : list text) (k : Z) :
  Forall (fun b => Z.of_nat (List.length b) = k) blocks ->
  Z.of_nat (List.length (List.concat blocks))
  = Z.of_nat (List.length blocks) * k.
Proof.
  induction 1 as [|b bs Hb _ IH]; [reflexivity|].
  cbn [List.concat List.length]. rewrite length_app. lia.
Qed.



End RoundTripFacts.
